(** * headlamp-intel-gpu-plugin: metrics parser and resource classification

    A shallow embedding of the pure parts of the plugin:
    - [src/api/metrics.ts]: [parsePrometheusText], [extractGpuNodeMetrics];
    - [src/api/k8s.ts]: [isIntelGpuNode], [getNodeGpuCount],
      [pluginStatusToStatus];
    - [src/components/OverviewPage.tsx]: the cluster-wide capacity totals;
    - [src/api/IntelGpuDataContext.tsx]: de-duplication of plugin pods.
    - the other guards and helpers of [src/api/k8s.ts], the lists the data
      provider derives, and the counters and groupings of the pages that
      call them;
    - [parseInt], [||] and the device sums in double precision, to compare
      the integer counts with the doubles of the code.

    JavaScript numbers that hold measurements are IEEE 754 binary64 values and
    are modelled by Rocq's primitive floats, so that [parseFloat], division,
    multiplication, [Math.round] and [Math.min] compute what the engine
    computes.  Integer counts (the results of [parseInt] and the counters of
    a CRD status) are modelled by [Z], with an explicit [NaN] for [parseInt].
    Strings are sequences of 8-bit code units.  Objects used as maps and
    [Map] are finite maps; property access on [unknown] input may raise and
    is modelled in an error monad.

    The file has two parts: the embedding of the sources with the
    declarative definitions the statements use, then the properties. *)

From Stdlib Require Import ZArith Floats Ascii String List Bool Lia.
From Stdlib Require Import DecimalString.
From Stdlib Require Uint63 DecimalPos.
From stdpp Require Import gmap strings list fin_maps sorting.

Local Open Scope string_scope.
Local Open Scope Z_scope.

(* ===================================================================== *)
(** * JavaScript built-ins used by the sources *)
(* ===================================================================== *)

Module JS.

(** ** Strings *)

(** [WhiteSpace] and [LineTerminator] code units below 256: TAB, LF, VT, FF,
    CR, SP and NBSP. *)
Definition isWhite (c : ascii) : bool :=
  let n := nat_of_ascii c in
  ((9 <=? n) && (n <=? 13) || (n =? 32) || (n =? 160))%nat.

Definition isDigit (c : ascii) : bool :=
  let n := nat_of_ascii c in ((48 <=? n) && (n <=? 57))%nat.

(** The regular-expression class [\w]. *)
Definition isWord (c : ascii) : bool :=
  let n := nat_of_ascii c in
  ((48 <=? n) && (n <=? 57) || (65 <=? n) && (n <=? 90)
   || (97 <=? n) && (n <=? 122) || (n =? 95))%nat.

Definition isEmpty (s : string) : bool :=
  match s with EmptyString => true | String _ _ => false end.

Fixpoint trimStart (s : string) : string :=
  match s with
  | String c r => if isWhite c then trimStart r else s
  | EmptyString => EmptyString
  end.

Fixpoint trimEnd (s : string) : string :=
  match s with
  | EmptyString => EmptyString
  | String c r =>
      let r' := trimEnd r in
      if isWhite c && isEmpty r' then EmptyString else String c r'
  end.

(** [s.trim()] *)
Definition trim (s : string) : string := trimEnd (trimStart s).

(** [s.startsWith(p)] *)
Definition startsWith (p s : string) : bool := String.prefix p s.

(** [s.slice(n)] for [0 <= n]. *)
Fixpoint sliceFrom (n : nat) (s : string) : string :=
  match n, s with
  | O, _ => s
  | S n', String _ r => sliceFrom n' r
  | S _, EmptyString => EmptyString
  end.

(** [s.slice(0, n)] for [0 <= n]. *)
Fixpoint sliceTo (n : nat) (s : string) : string :=
  match n, s with
  | O, _ => EmptyString
  | S n', String c r => String c (sliceTo n' r)
  | S _, EmptyString => EmptyString
  end.

(** [s.slice(a, b)] for [0 <= a] and [0 <= b]; empty when [b <= a]. *)
Definition slice (a b : nat) (s : string) : string :=
  sliceTo (b - a) (sliceFrom a s).

(** [s.indexOf(c)] for a one-character needle; [None] stands for [-1]. *)
Fixpoint indexOf (c : ascii) (s : string) : option nat :=
  match s with
  | EmptyString => None
  | String a r =>
      if Ascii.eqb a c then Some O
      else match indexOf c r with Some i => Some (S i) | None => None end
  end.

(** [s.lastIndexOf(c)] for a one-character needle. *)
Fixpoint lastIndexOf (c : ascii) (s : string) : option nat :=
  match s with
  | EmptyString => None
  | String a r =>
      match lastIndexOf c r with
      | Some i => Some (S i)
      | None => if Ascii.eqb a c then Some O else None
      end
  end.

(** [s.split(c)] for a one-character separator: never the empty list. *)
Fixpoint split (c : ascii) (s : string) : list string :=
  match s with
  | EmptyString => [EmptyString]
  | String a r =>
      if Ascii.eqb a c then EmptyString :: split c r
      else match split c r with
           | h :: t => String a h :: t
           | [] => [String a EmptyString]
           end
  end.

(** The longest prefix of [s] whose characters satisfy [p], and the rest. *)
Fixpoint span (p : ascii -> bool) (s : string) : string * string :=
  match s with
  | EmptyString => (EmptyString, EmptyString)
  | String a r =>
      if p a then let '(h, t) := span p r in (String a h, t)
      else (EmptyString, s)
  end.

(** A double quote and a line feed, as one-character strings. *)
Definition dq : string := String "034"%char EmptyString.
Definition newline : string := String "010"%char EmptyString.

(** ** Numbers *)

(** The decimal [(-1)^neg * m * 10^e] as the nearest binary64 value. *)
Definition floatOfDecimal (neg : bool) (m : Z) (e : Z) : float :=
  match m with
  | Zpos p =>
      if (0 <=? e)%Z
      then SF2Prim (binary_normalize prec emax
                      (if neg then - (m * 10 ^ e) else m * 10 ^ e) 0 false)
      else match 10 ^ (- e) with
           | Zpos d => SF2Prim (SFdiv prec emax (S754_finite neg p 0)
                                                (S754_finite false d 0))
           | _ => PrimFloat.nan
           end
  | _ => if neg then PrimFloat.neg_zero else PrimFloat.zero
  end.

Fixpoint digitsValue (acc : Z) (s : string) : Z :=
  match s with
  | EmptyString => acc
  | String c r => digitsValue (10 * acc + (Z.of_nat (nat_of_ascii c) - 48)) r
  end.

(** An optional leading sign: [(negative, rest)]. *)
Definition takeSign (s : string) : bool * string :=
  match s with
  | String "-"%char r => (true, r)
  | String "+"%char r => (false, r)
  | _ => (false, s)
  end.

(** The [ExponentPart] at the head of [s], when one is there: its value. *)
Definition exponentPart (s : string) : Z :=
  match s with
  | String c r =>
      if Ascii.eqb c "e"%char || Ascii.eqb c "E"%char then
        let '(neg, r1) := takeSign r in
        let '(ds, _) := span isDigit r1 in
        if isEmpty ds then 0
        else if neg then - digitsValue 0 ds else digitsValue 0 ds
      else 0
  | EmptyString => 0
  end.

(** [parseFloat(s)]: the value of the longest prefix of the left-trimmed
    string that is a [StrDecimalLiteral], [NaN] when there is none. *)
Definition parseFloat (s : string) : float :=
  let '(neg, s1) := takeSign (trimStart s) in
  if startsWith "Infinity" s1 then (if neg then PrimFloat.neg_infinity else PrimFloat.infinity)
  else
    let '(ip, r1) := span isDigit s1 in
    let '(fp, r2) :=
      match r1 with
      | String "."%char r => span isDigit r
      | _ => (EmptyString, r1)
      end in
    if isEmpty ip && isEmpty fp then PrimFloat.nan
    else floatOfDecimal neg (digitsValue 0 (ip ++ fp))
           (exponentPart r2 - Z.of_nat (String.length fp)).

(** [Number.isFinite(x)] for a number [x]. *)
Definition isFinite (x : float) : bool := is_finite x.

(** [Math.round(x)]: the integer nearest to [x], ties towards +infinity;
    [NaN], the infinities and the zeros are returned unchanged, and a
    negative [x] that rounds to zero gives [-0]. *)
Definition Math_round (x : float) : float :=
  match Prim2SF x with
  | S754_finite s m e =>
      if (0 <=? e)%Z then x
      else
        let half := Z.shiftl 1 (- e - 1) in
        if s then
          let n := Z.shiftr (half - Zpos m) (- e) in
          (- of_uint63 (Uint63.of_Z (- n)))%float
        else
          let n := Z.shiftr (Zpos m + half) (- e) in
          of_uint63 (Uint63.of_Z n)
  | _ => x
  end.

(** [Math.min(a, b)] on numbers. *)
Definition Math_min (a b : float) : float :=
  if is_nan a || is_nan b then PrimFloat.nan
  else if (b <? a)%float then b
  else if (a <? b)%float then a
  else if get_sign a then a else b.

(** ** Signs of binary64 values *)

(** A zero of either sign, or a positive value. *)
Definition SFnonneg (x : spec_float) : Prop :=
  match x with
  | S754_zero _ | S754_finite false _ _ | S754_infinity false => True
  | _ => False
  end.

Definition SFpositive (x : spec_float) : Prop :=
  match x with
  | S754_finite false _ _ | S754_infinity false => True
  | _ => False
  end.

(** The result of an operation that rounds a magnitude and attaches [s]. *)
Definition signedBy (s : bool) (x : spec_float) : Prop :=
  match x with
  | S754_zero s' | S754_finite s' _ _ | S754_infinity s' => s' = s
  | S754_nan => False
  end.

End JS.

(* ===================================================================== *)
(** * src/api/metrics.ts *)
(* ===================================================================== *)

Module Metrics.
Import JS.

(** ** Types *)

Record MetricSample := {
  labels : gmap string string;
  value : float
}.

Record MetricFamily := {
  name : string;
  help : string;
  type : string;
  samples : list MetricSample
}.

(** [ParsedMetrics = Map<string, MetricFamily>] *)
Abbreviation ParsedMetrics := (gmap string MetricFamily).

Record UtilizationEntry := { card : string; engine : string; pct : float }.

Record CardValue := { cv_card : string; cv_value : float }.

Record GpuNodeMetrics := {
  nodeName : string;
  podName : string;
  engineUtilization : list UtilizationEntry;
  boostFreqMhz : list CardValue;
  memoryLocalBytes : list CardValue;
  memorySystemBytes : list CardValue;
  energyMicrojoules : list CardValue;
  raw : ParsedMetrics
}.

(** ** Prometheus text format parser *)

(** One attempt of [LABEL_PAIR_RE] at the head of [s]: a non-empty run of
    word characters, an equals sign, and a run of non-quote characters
    between two double quotes.  The result is the key, the value and the
    length of the match. *)
Definition matchLabelPair (s : string) : option (string * string * nat) :=
  let '(key, r1) := span isWord s in
  if isEmpty key then None
  else match r1 with
       | String "="%char (String "034"%char r2) =>
           let '(val, r3) := span (fun c => negb (Ascii.eqb c "034"%char)) r2 in
           match r3 with
           | String _ _ =>
               Some (key, val, (String.length key + 2 + String.length val + 1)%nat)
           | EmptyString => None
           end
       | _ => None
       end.

(** [labels[key] = val] on an object created by [{}]: an assignment to
    ["__proto__"] of a string is ignored by the inherited setter. *)
Definition setLabel (key val : string) (labels : gmap string string)
  : gmap string string :=
  if String.eqb key "__proto__" then labels else <[key := val]> labels.

(** The [while ((match = re.exec(labelStr)) !== null)] loop: [skip] characters
    belong to the previous match; otherwise the expression is tried at the
    current position and, when it fails, at the next one. *)
Fixpoint parseLabelsFrom (skip : nat) (s : string) (labels : gmap string string)
  : gmap string string :=
  match s with
  | EmptyString => labels
  | String _ r =>
      match skip with
      | S k => parseLabelsFrom k r labels
      | O =>
          match matchLabelPair s with
          | Some (key, val, len) =>
              parseLabelsFrom (len - 1) r
                (if negb (isEmpty key) then setLabel key val labels else labels)
          | None => parseLabelsFrom O r labels
          end
      end
  end.

Definition parseLabels (labelStr : string) : gmap string string :=
  parseLabelsFrom O labelStr ∅.

(** The loop state of [parsePrometheusText]. *)
Record ParserState := {
  families : ParsedMetrics;
  currentName : string;
  currentHelp : string;
  currentType : string
}.

Definition initialState : ParserState :=
  {| families := ∅; currentName := ""; currentHelp := ""; currentType := "" |}.

(** The name, labels and value part of a data line: the branch on
    [openBrace >= 0 && closeBrace > openBrace]; [None] is the [continue] of
    the brace-less branch. *)
Definition splitDataLine (line : string)
  : option (string * gmap string string * string) :=
  let openBrace := indexOf "{"%char line in
  let closeBrace := lastIndexOf "}"%char line in
  match openBrace, closeBrace with
  | Some ob, Some cb =>
      if (ob <? cb)%nat then
        Some (slice 0 ob line,
              parseLabels (slice (ob + 1) cb line),
              trim (sliceFrom (cb + 1) line))
      else
        match lastIndexOf " "%char line with
        | None => None
        | Some sp => Some (slice 0 sp line, ∅, trim (sliceFrom (sp + 1) line))
        end
  | _, _ =>
      match lastIndexOf " "%char line with
      | None => None
      | Some sp => Some (slice 0 sp line, ∅, trim (sliceFrom (sp + 1) line))
      end
  end.

(** [valuePart.split(' ')[0] ?? ''] *)
Definition valueToken (valuePart : string) : string :=
  match split " "%char valuePart with
  | tok :: _ => tok
  | [] => ""
  end.

(** [family.samples.push(sample)], the family being created first when the
    map has none under [metricName]. *)
Definition pushSample (st : ParserState) (metricName : string)
    (sample : MetricSample) : ParserState :=
  let family :=
    match families st !! metricName with
    | Some f => f
    | None =>
        {| name := metricName;
           help := if String.eqb metricName (currentName st)
                   then currentHelp st else "";
           type := if String.eqb metricName (currentName st)
                   then currentType st else "";
           samples := [] |}
    end in
  {| families :=
       <[metricName := {| name := name family; help := help family;
                          type := type family;
                          samples := samples family ++ [sample] |}]>
         (families st);
     currentName := currentName st;
     currentHelp := currentHelp st;
     currentType := currentType st |}.

(** The body of [for (const rawLine of text.split('\n'))]. *)
Definition parseLine (st : ParserState) (rawLine : string) : ParserState :=
  let line := trim rawLine in
  if isEmpty line then st
  else if startsWith "# HELP " line then
    let rest := sliceFrom 7 line in
    match indexOf " "%char rest with
    | Some spaceIdx =>
        {| families := families st;
           currentName := slice 0 spaceIdx rest;
           currentHelp := sliceFrom (spaceIdx + 1) rest;
           currentType := currentType st |}
    | None =>
        {| families := families st; currentName := rest; currentHelp := "";
           currentType := currentType st |}
    end
  else if startsWith "# TYPE " line then
    let rest := sliceFrom 7 line in
    {| families := families st;
       currentName := currentName st;
       currentHelp := currentHelp st;
       currentType := match indexOf " "%char rest with
                      | Some spaceIdx => sliceFrom (spaceIdx + 1) rest
                      | None => ""
                      end |}
  else if startsWith "#" line then st
  else
    match splitDataLine line with
    | None => st
    | Some (metricName, labels, valuePart) =>
        let value := parseFloat (valueToken valuePart) in
        if negb (isFinite value) then st
        else pushSample st metricName {| labels := labels; value := value |}
    end.

Definition parseLines (lines : list string) : ParserState :=
  fold_left parseLine lines initialState.

Definition parsePrometheusText (text : string) : ParsedMetrics :=
  families (parseLines (split "010"%char text)).

(** ** Extraction of the Intel GPU metrics *)

Definition samplesFor (families : ParsedMetrics) (name : string)
  : list MetricSample :=
  match families !! name with
  | Some f => samples f
  | None => []
  end.

(** [s.labels['card'] ?? s.labels['gpu']] *)
Definition rawCard (s : MetricSample) : option string :=
  match labels s !! "card" with
  | Some c => Some c
  | None => labels s !! "gpu"
  end.

(** [s.labels['card'] ?? s.labels['gpu'] ?? 'gpu0'] *)
Definition cardOf (s : MetricSample) : string :=
  match rawCard s with Some c => c | None => "gpu0" end.

(** [active.labels['engine'] ?? 'render/0'] *)
Definition engineOf (s : MetricSample) : string :=
  match labels s !! "engine" with Some e => e | None => "render/0" end.

(** [v === s] for [v] a string or [undefined]. *)
Definition strictEq (v : option string) (s : string) : bool :=
  match v with Some x => String.eqb x s | None => false end.

(** The predicate given to [totalSamples.find]. *)
Definition matchesTotal (card engine : string) (s : MetricSample) : bool :=
  strictEq (rawCard s) card && strictEq (labels s !! "engine") engine.

(** [total > 0 ? Math.min(100, Math.round((active.value / total) * 100)) : 0]
    with [total = totalSample?.value ?? 0]. *)
Definition utilizationPct (active : MetricSample)
    (totalSample : option MetricSample) : float :=
  let total := match totalSample with Some t => value t | None => 0%float end in
  if (0 <? total)%float
  then Math_min 100 (Math_round (value active / total * 100))
  else 0%float.

(** The body of [for (const active of activeSamples)]: one [push]. *)
Definition pushUtilization (totalSamples : list MetricSample)
    (acc : list UtilizationEntry) (active : MetricSample)
  : list UtilizationEntry :=
  let card := cardOf active in
  let engine := engineOf active in
  let totalSample := List.find (matchesTotal card engine) totalSamples in
  acc ++ [{| card := card; engine := engine;
             pct := utilizationPct active totalSample |}].

Definition cardValue (s : MetricSample) : CardValue :=
  {| cv_card := cardOf s; cv_value := value s |}.

Definition extractGpuNodeMetrics (families : ParsedMetrics)
    (nodeName podName : string) : GpuNodeMetrics :=
  let activeSamples := samplesFor families "gpu_i915_engine_active_ticks" in
  let totalSamples := samplesFor families "gpu_i915_engine_total_ticks" in
  {| nodeName := nodeName;
     podName := podName;
     engineUtilization :=
       fold_left (pushUtilization totalSamples) activeSamples [];
     boostFreqMhz :=
       map cardValue (samplesFor families "gpu_i915_gt_boost_freq_mhz");
     memoryLocalBytes :=
       map cardValue (samplesFor families "gpu_i915_memory_local");
     memorySystemBytes :=
       map cardValue (samplesFor families "gpu_i915_memory_system");
     energyMicrojoules :=
       map cardValue (samplesFor families "gpu_i915_energy_microjoules");
     raw := families |}.

(** ** Reading a line declaratively *)

(** The name and help text of a [# HELP] line. *)
Definition helpOfLine (rawLine : string) : option (string * string) :=
  let line := trim rawLine in
  if startsWith "# HELP " line then
    let rest := sliceFrom 7 line in
    match indexOf " "%char rest with
    | Some i => Some (slice 0 i rest, sliceFrom (i + 1) rest)
    | None => Some (rest, "")
    end
  else None.

(** The name and type of a [# TYPE] line. *)
Definition typeOfLine (rawLine : string) : option (string * string) :=
  let line := trim rawLine in
  if startsWith "# TYPE " line then
    let rest := sliceFrom 7 line in
    match indexOf " "%char rest with
    | Some i => Some (slice 0 i rest, sliceFrom (i + 1) rest)
    | None => Some (rest, "")
    end
  else None.

(** The metric name and the sample of a data line whose value is finite. *)
Definition sampleOfLine (rawLine : string) : option (string * MetricSample) :=
  let line := trim rawLine in
  if isEmpty line || startsWith "#" line then None
  else
    match splitDataLine line with
    | Some (metricName, labels, valuePart) =>
        let value := parseFloat (valueToken valuePart) in
        if isFinite value
        then Some (metricName, {| labels := labels; value := value |})
        else None
    | None => None
    end.

(** The value token of a data line, when the line has one. *)
Definition valueTokenOfLine (rawLine : string) : option string :=
  let line := trim rawLine in
  if isEmpty line || startsWith "#" line then None
  else
    match splitDataLine line with
    | Some (_, _, valuePart) => Some (valueToken valuePart)
    | None => None
    end.

(** The most recent [# HELP] and [# TYPE] lines of a list of lines. *)
Definition lastHelp (lines : list string) : option (string * string) :=
  last (omap helpOfLine lines).

Definition lastType (lines : list string) : option (string * string) :=
  last (omap typeOfLine lines).

(** The name and the text of the most recent [# HELP] line, and the type of
    the most recent [# TYPE] line; empty when there is no such line. *)
Definition helpName (lines : list string) : string :=
  match lastHelp lines with Some (n, _) => n | None => "" end.

Definition helpText (lines : list string) : string :=
  match lastHelp lines with Some (_, h) => h | None => "" end.

Definition typeText (lines : list string) : string :=
  match lastType lines with Some (_, t) => t | None => "" end.

(** The sample of a line when it belongs to the family [metricName]. *)
Definition sampleFor (metricName : string) (rawLine : string)
  : option MetricSample :=
  match sampleOfLine rawLine with
  | Some (n, s) => if String.eqb n metricName then Some s else None
  | None => None
  end.

(** The samples of the family [metricName], in line order. *)
Definition samplesOf (metricName : string) (lines : list string)
  : list MetricSample :=
  omap (sampleFor metricName) lines.

(** Where a family comes from: the first line that yields a sample for it,
    and the metadata lines before that line. *)
Definition createdAt (lines : list string) (metricName : string)
    (fam : MetricFamily) : Prop :=
  exists pre rawLine post,
    lines = (pre ++ rawLine :: post)%list /\
    samplesOf metricName pre = [] /\
    is_Some (sampleFor metricName rawLine) /\
    help fam = (if String.eqb metricName (helpName pre)
                then helpText pre else "") /\
    type fam = (if String.eqb metricName (helpName pre)
                then typeText pre else "").

(** The entry [extractGpuNodeMetrics] pushes for one active sample. *)
Definition utilizationEntry (totalSamples : list MetricSample)
    (active : MetricSample) : UtilizationEntry :=
  {| card := cardOf active;
     engine := engineOf active;
     pct := utilizationPct active
              (List.find (matchesTotal (cardOf active) (engineOf active))
                 totalSamples) |}.

(** What the join guarantees about the entry [e] pushed for the active
    sample [active]. *)
Definition entryFor (totalSamples : list MetricSample)
    (active : MetricSample) (e : UtilizationEntry) : Prop :=
  card e = cardOf active /\
  engine e = engineOf active /\
  match List.find (matchesTotal (cardOf active) (engineOf active))
          totalSamples with
  | None => pct e = 0%float
  | Some t =>
      ((0 <? value t)%float = false -> pct e = 0%float) /\
      ((0 <? value t)%float = true ->
       isFinite (value active) = true ->
       (0 <=? value active)%float = true ->
       pct e = Math_min 100 (Math_round (value active / value t * 100)) /\
       (0 <=? pct e)%float = true /\
       (pct e <=? 100)%float = true)
  end.

(** The percentage as the specification words it: 0 for a total of 0,
    otherwise the rounded ratio clamped to [0, 100]. *)
Definition clamp (lo hi x : float) : float :=
  if (x <? lo)%float then lo else if (hi <? x)%float then hi else x.

Definition specPct (active total : float) : float :=
  if (total =? 0)%float then 0%float
  else clamp 0 100 (Math_round (100 * active / total)).

(** ** Example inputs *)

Definition ACTIVE_TICKS : string := "gpu_i915_engine_active_ticks".
Definition TOTAL_TICKS : string := "gpu_i915_engine_total_ticks".

(** A family with the given samples and no metadata. *)
Definition familyOf (metricName : string) (samples : list MetricSample)
  : MetricFamily :=
  {| name := metricName; help := ""; type := ""; samples := samples |}.

(** Active and total tick families with one sample each. *)
Definition ticks (active total : MetricSample) : ParsedMetrics :=
  {[ ACTIVE_TICKS := familyOf ACTIVE_TICKS [active];
     TOTAL_TICKS := familyOf TOTAL_TICKS [total] ]}.

Definition card0Labels : gmap string string :=
  {[ "card" := "card0"; "engine" := "render/0" ]}.

Definition engineOnlyLabels : gmap string string :=
  {[ "engine" := "render/0" ]}.

(** The two lines of the specification's example. *)
Definition exampleText : string :=
  "gpu_i915_engine_active_ticks{card=" ++ dq ++ "card0" ++ dq
    ++ ",engine=" ++ dq ++ "render/0" ++ dq ++ "} 50" ++ newline
  ++ "gpu_i915_engine_total_ticks{card=" ++ dq ++ "card0" ++ dq
    ++ ",engine=" ++ dq ++ "render/0" ++ dq ++ "} 100".

(** A [# TYPE] line that names another metric than the [# HELP] line. *)
Definition mixedMetadataLines : list string :=
  ["# HELP foo number of foos"; "# TYPE bar counter"].

Definition mixedMetadataText : string :=
  "# HELP foo number of foos" ++ newline
  ++ "# TYPE bar counter" ++ newline
  ++ "foo 1".

(** The family the parser builds for [foo] from that text. *)
Definition fooFamily : MetricFamily :=
  {| name := "foo"; help := "number of foos"; type := "counter";
     samples := [{| labels := ∅; value := 1 |}] |}.

End Metrics.

(* ===================================================================== *)
(** * src/api/k8s.ts *)
(* ===================================================================== *)

Module K8s.
Import JS.

(** ** Constants *)

Definition INTEL_GPU_RESOURCE : string := "gpu.intel.com/i915".
Definition INTEL_GPU_XE_RESOURCE : string := "gpu.intel.com/xe".
Definition INTEL_GPU_MILLICORES_RESOURCE : string := "gpu.intel.com/millicores".
Definition INTEL_GPU_MEMORY_RESOURCE : string := "gpu.intel.com/memory.max".
Definition INTEL_GPU_RESOURCE_PREFIX : string := "gpu.intel.com/".
Definition INTEL_GPU_NODE_LABEL : string := "intel.feature.node.kubernetes.io/gpu".
Definition INTEL_DISCRETE_GPU_NODE_ROLE : string := "node-role.kubernetes.io/gpu".
Definition INTEL_INTEGRATED_GPU_NODE_ROLE : string := "node-role.kubernetes.io/igpu".

(** ** Untyped input: the values of [unknown] that JSON can carry *)

#[local] Set Warnings "-register-all".
Inductive JSValue :=
| JUndefined
| JNull
| JBool (b : bool)
| JNumber (x : float)
| JString (s : string)
| JArray (items : list JSValue)
| JObject (fields : gmap string JSValue).
#[local] Set Warnings "register-all".

(** A computation that may raise a [TypeError]. *)
Inductive result (A : Type) : Type :=
| Ok (a : A)
| TypeError.
Arguments Ok {A} a.
Arguments TypeError {A}.

Definition bind {A B : Type} (c : result A) (k : A -> result B) : result B :=
  match c with Ok a => k a | TypeError => TypeError end.

Notation "'let*' x ':=' c 'in' k" := (bind c (fun x => k))
  (at level 10, x name, c at level 100, k at level 200).

(** [!!v] *)
Definition truthy (v : JSValue) : bool :=
  match v with
  | JUndefined | JNull => false
  | JBool b => b
  | JNumber x => negb (is_nan x || is_zero x)
  | JString s => negb (isEmpty s)
  | JArray _ | JObject _ => true
  end.

(** [typeof v === 'object'] *)
Definition typeofObject (v : JSValue) : bool :=
  match v with
  | JNull | JArray _ | JObject _ => true
  | _ => false
  end.

(** [v[k]] for the property names the sources read, none of which is an
    array index or the name of a built-in property: an object answers with
    its own field, [null] and [undefined] raise, and every other value
    answers [undefined]. *)
Definition getProp (v : JSValue) (k : string) : result JSValue :=
  match v with
  | JUndefined | JNull => TypeError
  | JObject fields =>
      Ok (match fields !! k with Some x => x | None => JUndefined end)
  | _ => Ok JUndefined
  end.

(** [v?.[k]] *)
Definition getPropOpt (v : JSValue) (k : string) : result JSValue :=
  match v with
  | JUndefined | JNull => Ok JUndefined
  | _ => getProp v k
  end.

(** The index keys ["0"], ..., ["n-1"]. *)
Definition indexKeys (n : nat) : list string :=
  map (fun i => NilEmpty.string_of_uint (Nat.to_uint i)) (seq 0 n).

(** [Object.keys(v)] *)
Definition objectKeys (v : JSValue) : result (list string) :=
  match v with
  | JUndefined | JNull => TypeError
  | JObject fields => Ok (map fst (map_to_list fields))
  | JArray items => Ok (indexKeys (List.length items))
  | JString s => Ok (indexKeys (String.length s))
  | JBool _ | JNumber _ => Ok []
  end.

(** [v === s] for a string [s]. *)
Definition isString (v : JSValue) (s : string) : bool :=
  match v with JString x => String.eqb x s | _ => false end.

(** [labels[k] === 'true'] *)
Definition labelIsTrue (labels : JSValue) (k : string) : result bool :=
  let* v := getProp labels k in Ok (isString v "true").

Definition isIntelGpuNode (node : JSValue) : result bool :=
  if negb (truthy node) || negb (typeofObject node) then Ok false
  else
    let* meta := getProp node "metadata" in
    let* labels := getPropOpt meta "labels" in
    let* status := getProp node "status" in
    let* capacity := getPropOpt status "capacity" in
    let* byLabel :=
      (if truthy labels then
         let* b1 := labelIsTrue labels INTEL_GPU_NODE_LABEL in
         if b1 then Ok true else
         let* b2 := labelIsTrue labels INTEL_DISCRETE_GPU_NODE_ROLE in
         if b2 then Ok true else
         labelIsTrue labels INTEL_INTEGRATED_GPU_NODE_ROLE
       else Ok false) in
    if byLabel then Ok true
    else if truthy capacity then
      let* keys := objectKeys capacity in
      Ok (existsb (startsWith INTEL_GPU_RESOURCE_PREFIX) keys)
    else Ok false.

(** ** Integer counts *)

(** The result of [parseInt]: an integer or [NaN].  An exact integer stands
    for the double that represents it, which is exact for the device counts
    a node can report. *)
Inductive JSInt :=
| NaN
| Int (z : Z).

(** [a + b] *)
Definition add (a b : JSInt) : JSInt :=
  match a, b with
  | Int x, Int y => Int (x + y)
  | _, _ => NaN
  end.

(** [a || 0]: [NaN] and zero are falsy. *)
Definition orZero (a : JSInt) : JSInt :=
  match a with
  | NaN => Int 0
  | Int z => Int z
  end.

(** [parseInt(s, 10)]: leading white space, an optional sign, and the
    longest run of decimal digits; [NaN] when there is no digit. *)
Definition parseInt (s : string) : JSInt :=
  let '(neg, s1) := takeSign (trimStart s) in
  let '(ds, _) := span isDigit s1 in
  if isEmpty ds then NaN
  else Int (if neg then - digitsValue 0 ds else digitsValue 0 ds).

(** ** Typed input *)

(** [NodeResources]: [{ [key: string]: string | undefined }] *)
Abbreviation NodeResources := (gmap string (option string)).

Record NodeStatus := {
  capacity : option NodeResources;
  allocatable : option NodeResources
}.

Record KubeObjectMeta := {
  meta_name : string;
  meta_labels : option (gmap string string);
  uid : option string
}.

Record IntelGpuNode := {
  node_metadata : KubeObjectMeta;
  node_status : option NodeStatus
}.

(** [Object.entries(o)] *)
Definition objectEntries {V : Type} (o : gmap string V) : list (string * V) :=
  map_to_list o.

(** [node.status?.capacity ?? {}] *)
Definition capacityOf (node : IntelGpuNode) : NodeResources :=
  match node_status node with
  | Some st => match capacity st with Some c => c | None => ∅ end
  | None => ∅
  end.

(** [node.status?.allocatable ?? {}] *)
Definition allocatableOf (node : IntelGpuNode) : NodeResources :=
  match node_status node with
  | Some st => match allocatable st with Some c => c | None => ∅ end
  | None => ∅
  end.

(** [key === INTEL_GPU_RESOURCE || key === INTEL_GPU_XE_RESOURCE] *)
Definition isDeviceCountKey (key : string) : bool :=
  String.eqb key INTEL_GPU_RESOURCE || String.eqb key INTEL_GPU_XE_RESOURCE.

(** The body of the loop of [getNodeGpuCount]. *)
Definition countStep (count : JSInt) (entry : string * option string) : JSInt :=
  let '(key, value) := entry in
  match value with
  | Some v =>
      if isDeviceCountKey key && negb (isEmpty v)
      then add count (orZero (parseInt v))
      else count
  | None => count
  end.

Definition getNodeGpuCount (node : IntelGpuNode) : JSInt :=
  fold_left countStep (objectEntries (capacityOf node)) (Int 0).

(** ** GpuDevicePlugin status *)

(** The counters are the integers of the DaemonSet status. *)
Record GpuDevicePluginStatus := {
  desiredNumberScheduled : option Z;
  numberReady : option Z;
  numberUnavailable : option Z;
  numberAvailable : option Z
}.

Record GpuDevicePlugin := {
  plugin_metadata : KubeObjectMeta;
  plugin_status : option GpuDevicePluginStatus
}.

Inductive Status := success | warning | error.

(** [plugin.status?.field ?? 0] *)
Definition statusField (plugin : GpuDevicePlugin)
    (field : GpuDevicePluginStatus -> option Z) : Z :=
  match plugin_status plugin with
  | Some st => match field st with Some n => n | None => 0 end
  | None => 0
  end.

Definition pluginStatusToStatus (plugin : GpuDevicePlugin) : Status :=
  let desired := statusField plugin desiredNumberScheduled in
  let ready := statusField plugin numberReady in
  let unavailable := statusField plugin numberUnavailable in
  if desired =? 0 then warning
  else if 0 <? unavailable then warning
  else if ready =? desired then success
  else error.

(** ** Pods *)

Record IntelGpuPod := {
  pod_metadata : KubeObjectMeta
}.

(** ** Reading a node declaratively *)

(** The field [k] of an object, when [v] is an object that has it. *)
Definition field (v : JSValue) (k : string) : option JSValue :=
  match v with JObject fields => fields !! k | _ => None end.

(** The fields of [x.metadata.labels], when all three are objects. *)
Definition nodeLabels (x : JSValue) : option (gmap string JSValue) :=
  match field x "metadata" with
  | Some meta =>
      match field meta "labels" with
      | Some (JObject ls) => Some ls
      | _ => None
      end
  | None => None
  end.

(** The fields of [x.status.capacity], when all three are objects. *)
Definition nodeCapacity (x : JSValue) : option (gmap string JSValue) :=
  match field x "status" with
  | Some status =>
      match field status "capacity" with
      | Some (JObject c) => Some c
      | _ => None
      end
  | None => None
  end.

Definition gpuNodeLabels : list string :=
  [INTEL_GPU_NODE_LABEL; INTEL_DISCRETE_GPU_NODE_ROLE;
   INTEL_INTEGRATED_GPU_NODE_ROLE].

(** One of the three GPU labels is the string [true]. *)
Definition hasGpuLabel (x : JSValue) : Prop :=
  exists ls k, nodeLabels x = Some ls /\ In k gpuNodeLabels /\
               ls !! k = Some (JString "true").

(** The capacity map has a key that extends [gpu.intel.com/]. *)
Definition hasGpuCapacityKey (x : JSValue) : Prop :=
  exists c rest, nodeCapacity x = Some c /\
                 is_Some (c !! (INTEL_GPU_RESOURCE_PREFIX ++ rest)).

(** [parseInt(v, 10) || 0] of the value stored under [key], and 0 for a
    key that is missing or whose value is [undefined]. *)
Definition deviceCount (resources : NodeResources) (key : string) : Z :=
  match resources !! key with
  | Some (Some v) => match parseInt v with Int z => z | NaN => 0 end
  | _ => 0
  end.

(** [labels && (labels[k1] === 'true' || ...)] as a total function. *)
Definition labelCheck (labels : JSValue) : bool :=
  match labels with
  | JObject ls =>
      existsb (fun k => match ls !! k with
                        | Some v => isString v "true"
                        | None => false
                        end) gpuNodeLabels
  | _ => false
  end.

(** The scan of [Object.keys(capacity)] as a total function. *)
Definition capacityCheck (capacity : JSValue) : bool :=
  match capacity with
  | JObject c =>
      existsb (startsWith INTEL_GPU_RESOURCE_PREFIX) (map fst (map_to_list c))
  | _ => false
  end.

(** [v?.[k]] never raises. *)
Definition propOr (v : JSValue) (k : string) : JSValue :=
  match field v k with Some x => x | None => JUndefined end.

(** What one capacity entry adds to the count. *)
Definition contribution (entry : string * option string) : Z :=
  match entry with
  | (key, Some v) =>
      if isDeviceCountKey key
      then match parseInt v with Int z => z | NaN => 0 end
      else 0
  | (_, None) => 0
  end.

Definition sumZ (l : list Z) : Z := foldr Z.add 0 l.

(** ** Example inputs *)

(** [{ metadata: { name, labels }, status: { capacity } }] as a JSON value. *)
Definition jsonNode (labels capacity : gmap string JSValue) : JSValue :=
  JObject {[ "metadata" := JObject {[ "name" := JString "test-node";
                                      "labels" := JObject labels ]};
             "status" := JObject {[ "capacity" := JObject capacity ]} ]}.

Definition nodeWithCapacity (c : NodeResources) : IntelGpuNode :=
  {| node_metadata :=
       {| meta_name := "test-node"; meta_labels := None; uid := None |};
     node_status := Some {| capacity := Some c; allocatable := None |} |}.

Definition mkPlugin (desired ready unavailable : option Z) : GpuDevicePlugin :=
  {| plugin_metadata :=
       {| meta_name := "test-plugin"; meta_labels := None; uid := None |};
     plugin_status :=
       Some {| desiredNumberScheduled := desired; numberReady := ready;
               numberUnavailable := unavailable; numberAvailable := None |} |}.

End K8s.

(* ===================================================================== *)
(** * src/components/OverviewPage.tsx: GPU allocation summary *)
(* ===================================================================== *)

Module OverviewPage.
Import JS K8s.

Record Totals := {
  totalCapacityGpus : JSInt;
  totalAllocatableGpus : JSInt
}.

(** [parseInt(resources[key] ?? '0', 10)] *)
Definition quantity (resources : NodeResources) (key : string) : JSInt :=
  parseInt (match resources !! key with
            | Some (Some v) => v
            | _ => "0"
            end).

(** The body of [for (const key of Object.keys(capacity))]. *)
Definition keyStep (capacity allocatable : NodeResources)
    (t : Totals) (key : string) : Totals :=
  if isDeviceCountKey key then
    {| totalCapacityGpus := add (totalCapacityGpus t) (quantity capacity key);
       totalAllocatableGpus :=
         add (totalAllocatableGpus t) (quantity allocatable key) |}
  else t.

(** The body of [for (const node of gpuNodes)]. *)
Definition nodeStep (t : Totals) (node : IntelGpuNode) : Totals :=
  let capacity := capacityOf node in
  let allocatable := allocatableOf node in
  fold_left (keyStep capacity allocatable)
    (map fst (objectEntries capacity)) t.

Definition allocationTotals (gpuNodes : list IntelGpuNode) : Totals :=
  fold_left nodeStep gpuNodes
    {| totalCapacityGpus := Int 0; totalAllocatableGpus := Int 0 |}.

(** Two GPU nodes: one reports two devices, the other reports a capacity
    that is not a number. *)
Definition healthyNode : IntelGpuNode :=
  {| node_metadata :=
       {| meta_name := "gpu-node-1"; meta_labels := None; uid := None |};
     node_status :=
       Some {| capacity := Some {[ INTEL_GPU_RESOURCE := Some "2" ]};
               allocatable := Some {[ INTEL_GPU_RESOURCE := Some "2" ]} |} |}.

Definition malformedNode : IntelGpuNode :=
  {| node_metadata :=
       {| meta_name := "gpu-node-2"; meta_labels := None; uid := None |};
     node_status :=
       Some {| capacity := Some {[ INTEL_GPU_RESOURCE := Some "unknown" ]};
               allocatable := Some {[ INTEL_GPU_RESOURCE := Some "unknown" ]} |} |}.

End OverviewPage.

(* ===================================================================== *)
(** * src/api/IntelGpuDataContext.tsx: plugin pods found by several queries *)
(* ===================================================================== *)

Module IntelGpuDataContext.
Import JS K8s.

(** The state of the filter callback: the set [seen] and the pods kept. *)
Record DedupState := {
  seen : gset string;
  kept : list IntelGpuPod
}.

(** The callback of [foundPluginPods.filter], with [seen.add] made explicit. *)
Definition dedupStep (st : DedupState) (p : IntelGpuPod) : DedupState :=
  match uid (pod_metadata p) with
  | Some u =>
      if isEmpty u || bool_decide (u ∈ seen st) then st
      else {| seen := {[u]} ∪ seen st; kept := kept st ++ [p] |}
  | None => st
  end.

Definition uniquePluginPods (foundPluginPods : list IntelGpuPod)
  : list IntelGpuPod :=
  kept (fold_left dedupStep foundPluginPods {| seen := ∅; kept := [] |}).





(** The pods the filter keeps, as a recursive function of the set of UIDs
    already seen. *)
Fixpoint keepFresh (seen : gset string) (pods : list IntelGpuPod)
  : list IntelGpuPod :=
  match pods with
  | [] => []
  | p :: rest =>
      match uid (pod_metadata p) with
      | Some u =>
          if isEmpty u || bool_decide (u ∈ seen) then keepFresh seen rest
          else p :: keepFresh ({[u]} ∪ seen) rest
      | None => keepFresh seen rest
      end
  end.

Definition mkPod (name : string) (u : option string) : IntelGpuPod :=
  {| pod_metadata := {| meta_name := name; meta_labels := None; uid := u |} |}.

(** Three query results that overlap on the pod with UID [abc]. *)
Definition overlappingLists : list (list IntelGpuPod) :=
  [ [mkPod "plugin-a" (Some "abc"); mkPod "plugin-b" (Some "def")];
    [mkPod "plugin-a" (Some "abc")];
    [mkPod "plugin-c" (Some "ghi"); mkPod "plugin-a" (Some "abc")] ].

End IntelGpuDataContext.

(* ===================================================================== *)
(** * src/api/k8s.ts: the other guards and helpers *)
(* ===================================================================== *)

Module K8sHelpers.
Import JS K8s.

(** ** Guards on [unknown] input *)

Definition isGpuDevicePlugin (value : JSValue) : result bool :=
  if negb (truthy value) || negb (typeofObject value) then Ok false
  else
    let* kind := getProp value "kind" in
    Ok (isString kind "GpuDevicePlugin").

(** [Array.isArray(v)] *)
Definition isArray (v : JSValue) : bool :=
  match v with JArray _ => true | _ => false end.

Definition isKubeList (value : JSValue) : result bool :=
  if negb (truthy value) || negb (typeofObject value) then Ok false
  else
    let* items := getProp value "items" in
    Ok (isArray items).

(** [items.filter(pred)] for a callback that may raise: the callback runs on
    every element, in order. *)
Fixpoint filterR (pred : JSValue -> result bool) (items : list JSValue)
  : result (list JSValue) :=
  match items with
  | [] => Ok []
  | x :: rest =>
      let* b := pred x in
      let* kept := filterR pred rest in
      Ok (if b then x :: kept else kept)
  end.

(** [items.some(pred)] for a callback that may raise: the scan stops at the
    first element the callback accepts. *)
Fixpoint someR (pred : JSValue -> result bool) (items : list JSValue)
  : result bool :=
  match items with
  | [] => Ok false
  | x :: rest =>
      let* b := pred x in
      if b then Ok true else someR pred rest
  end.

(** [v.filter(pred)]: only an array has the method. *)
Definition callFilter (v : JSValue) (pred : JSValue -> result bool)
  : result (list JSValue) :=
  match v with
  | JArray items => filterR pred items
  | _ => TypeError
  end.

Definition filterIntelGpuNodes (items : list JSValue) : result (list JSValue) :=
  filterR isIntelGpuNode items.

(** [v ?? d] *)
Definition orElse (v d : JSValue) : JSValue :=
  match v with JUndefined | JNull => d | _ => v end.

(** The one-character strings a string iterates over. *)
Fixpoint characters (s : string) : list JSValue :=
  match s with
  | EmptyString => []
  | String c r => JString (String c EmptyString) :: characters r
  end.

(** The elements the spread [...v] puts into an array literal: arrays and
    strings are iterable, every other value raises. *)
Definition spreadElements (v : JSValue) : result (list JSValue) :=
  match v with
  | JArray items => Ok items
  | JString s => Ok (characters s)
  | _ => TypeError
  end.

(** The own enumerable properties the spread [{ ...v }] copies: those of an
    object, the indexed elements of an array or a string, none otherwise. *)
Definition spreadFields (v : JSValue) : gmap string JSValue :=
  match v with
  | JObject fields => fields
  | JArray items => list_to_map (zip (indexKeys (List.length items)) items)
  | JString s =>
      list_to_map (zip (indexKeys (String.length s)) (characters s))
  | _ => ∅
  end.

(** [{ ...a, ...b }]: a property of [b] replaces the one of [a]. *)
Definition spread2 (a b : JSValue) : gmap string JSValue :=
  spreadFields b ∪ spreadFields a.

(** The callback of [some] in [isGpuRequestingPod]. *)
Definition requestsGpu (c : JSValue) : result bool :=
  let* resources := getProp c "resources" in
  let* requests := getPropOpt resources "requests" in
  let* resources' := getProp c "resources" in
  let* limits := getPropOpt resources' "limits" in
  Ok (existsb (startsWith INTEL_GPU_RESOURCE_PREFIX)
        (map fst (map_to_list (spread2 (orElse requests (JObject ∅))
                                       (orElse limits (JObject ∅)))))).

Definition isGpuRequestingPod (pod : JSValue) : result bool :=
  if negb (truthy pod) || negb (typeofObject pod) then Ok false
  else
    let* spec := getProp pod "spec" in
    let* containers := getPropOpt spec "containers" in
    let* initContainers := getPropOpt spec "initContainers" in
    let* cs := spreadElements (orElse containers (JArray [])) in
    let* ics := spreadElements (orElse initContainers (JArray [])) in
    someR requestsGpu (cs ++ ics)%list.

Definition filterGpuRequestingPods (items : list JSValue)
  : result (list JSValue) :=
  filterR isGpuRequestingPod items.

Definition PLUGIN_NAME : string := "intel-gpu-plugin".

Definition isIntelGpuPluginPod (pod : JSValue) : result bool :=
  if negb (truthy pod) || negb (typeofObject pod) then Ok false
  else
    let* meta := getProp pod "metadata" in
    let* labels := getPropOpt meta "labels" in
    if negb (truthy labels) then Ok false
    else
      let* app := getProp labels "app" in
      if isString app PLUGIN_NAME then Ok true else
      let* appName := getProp labels "app.kubernetes.io/name" in
      if isString appName PLUGIN_NAME then Ok true else
      let* component := getProp labels "component" in
      Ok (isString component PLUGIN_NAME).

Definition filterIntelGpuPluginPods (items : list JSValue)
  : result (list JSValue) :=
  filterR isIntelGpuPluginPod items.

(** ** Node resources and GPU type *)

(** The body of the loop of [getGpuResources]. *)
Definition resourceStep (gpuResources : gmap string string)
    (entry : string * option string) : gmap string string :=
  let '(key, value) := entry in
  match value with
  | Some v =>
      if startsWith INTEL_GPU_RESOURCE_PREFIX key
      then <[key := v]> gpuResources
      else gpuResources
  | None => gpuResources
  end.

Definition getGpuResources (resources : option NodeResources)
  : gmap string string :=
  match resources with
  | None => ∅
  | Some r => fold_left resourceStep (objectEntries r) ∅
  end.

Inductive GpuType := discrete | integrated | unknown.

(** [labels[k] === 'true'] on typed labels. *)
Definition labelTrue (labels : gmap string string) (k : string) : bool :=
  match labels !! k with Some v => String.eqb v "true" | None => false end.

Definition getNodeGpuType (node : IntelGpuNode) : GpuType :=
  let labels := default ∅ (meta_labels (node_metadata node)) in
  if labelTrue labels INTEL_DISCRETE_GPU_NODE_ROLE then discrete
  else if labelTrue labels INTEL_INTEGRATED_GPU_NODE_ROLE then integrated
  else if labelTrue labels INTEL_GPU_NODE_LABEL then unknown
  else unknown.

Definition formatGpuType (type : GpuType) : string :=
  match type with
  | discrete => "Discrete"
  | integrated => "Integrated"
  | unknown => "Unknown"
  end.

(** ** Conditions *)

Record Condition := {
  cond_type : string;
  cond_status : string
}.

(** [c.type === 'Ready' && c.status === 'True'] *)
Definition isReadyCondition (c : Condition) : bool :=
  String.eqb (cond_type c) "Ready" && String.eqb (cond_status c) "True".

(** A node together with [status.conditions], which [IntelGpuNode] above
    leaves out; the field is read only when the node has a status. *)
Record GpuNode := {
  node_object : IntelGpuNode;
  node_conditions : option (list Condition)
}.

Definition isNodeReady (node : GpuNode) : bool :=
  match node_status (node_object node) with
  | Some _ =>
      match node_conditions node with
      | Some cs => existsb isReadyCondition cs
      | None => false
      end
  | None => false
  end.

(** ** Pods *)

Record ResourceRequirements := {
  requests : option (gmap string string);
  limits : option (gmap string string)
}.

Record ContainerSpec := {
  container_name : string;
  resources : option ResourceRequirements
}.

Record PodSpec := {
  spec_nodeName : option string;
  containers : option (list ContainerSpec);
  initContainers : option (list ContainerSpec)
}.

Record ContainerStatus := {
  cs_name : string;
  ready : bool;
  restartCount : Z
}.

Record PodStatus := {
  phase : option string;
  pod_conditions : option (list Condition);
  containerStatuses : option (list ContainerStatus)
}.

(** A pod together with [spec] and [status], which [IntelGpuPod] above
    leaves out. *)
Record GpuPod := {
  pod_object : IntelGpuPod;
  pod_spec : option PodSpec;
  pod_status : option PodStatus
}.

(** [Number.MAX_SAFE_INTEGER] *)
Definition MAX_SAFE_INTEGER : Z := 2 ^ 53 - 1.

(** [Number.isSafeInteger].  A double holds every integer of this range
    exactly, the sum of two of them is exact when it lies in the range
    again, and [String] writes them in plain decimal digits.  Within this
    range the integers of [JSInt] are the numbers the code computes with;
    outside it a double rounds, overflows to an infinity, and is written
    with an exponent.  The properties of the sums below therefore state the
    range as a hypothesis; for [parseInt], [||] and [+] the agreement with
    the doubles is proved in [Binary64Proofs], and the device sums of the
    pages are embedded over the doubles themselves. *)
Definition safeInteger (z : Z) : Prop := Z.abs z <= MAX_SAFE_INTEGER.

(** [String(v)] for a safe integer or [NaN]: the decimal digits, with a
    minus sign for a negative number. *)
Definition numberToString (v : JSInt) : string :=
  match v with
  | NaN => "NaN"
  | Int z => NilEmpty.string_of_int (Z.to_int z)
  end.

(** [c.resources?.requests ?? {}] *)
Definition requestsOf (c : ContainerSpec) : gmap string string :=
  match resources c with
  | Some r => default ∅ (requests r)
  | None => ∅
  end.

(** [[...(pod.spec?.containers ?? []), ...(pod.spec?.initContainers ?? [])]] *)
Definition allContainers (pod : GpuPod) : list ContainerSpec :=
  match pod_spec pod with
  | Some spec =>
      (default [] (containers spec) ++ default [] (initContainers spec))%list
  | None => []
  end.

(** The body of the inner loop of [getPodGpuRequests]. *)
Definition requestStep (totals : gmap string JSInt) (entry : string * string)
  : gmap string JSInt :=
  let '(key, value) := entry in
  if startsWith INTEL_GPU_RESOURCE_PREFIX key && negb (isEmpty value)
  then <[key := add (default (Int 0) (totals !! key))
                    (orZero (parseInt value))]> totals
  else totals.

(** The body of [for (const c of allContainers)]. *)
Definition containerStep (totals : gmap string JSInt) (c : ContainerSpec)
  : gmap string JSInt :=
  fold_left requestStep (objectEntries (requestsOf c)) totals.

Definition podTotals (pod : GpuPod) : gmap string JSInt :=
  fold_left containerStep (allContainers pod) ∅.

Definition getPodGpuRequests (pod : GpuPod) : gmap string string :=
  numberToString <$> podTotals pod.

Definition isPodReady (pod : GpuPod) : bool :=
  match pod_status pod with
  | Some st =>
      match pod_conditions st with
      | Some cs => existsb isReadyCondition cs
      | None => false
      end
  | None => false
  end.

Definition getPodRestarts (pod : GpuPod) : Z :=
  match pod_status pod with
  | Some st =>
      match containerStatuses st with
      | Some cs => fold_left (fun sum c => sum + restartCount c) cs 0
      | None => 0
      end
  | None => 0
  end.

(** ** Display names *)

(** [s.replace(pat, '')] for a string pattern: the first occurrence of
    [pat] is removed. *)
Fixpoint removeFirst (pat s : string) : string :=
  if startsWith pat s then sliceFrom (String.length pat) s
  else match s with
       | EmptyString => EmptyString
       | String c r => String c (removeFirst pat r)
       end.

(** The names every object literal inherits from [Object.prototype]. *)
Definition inheritedNames : list string :=
  ["constructor"; "hasOwnProperty"; "isPrototypeOf"; "propertyIsEnumerable";
   "toLocaleString"; "toString"; "valueOf"; "__proto__";
   "__defineGetter__"; "__defineSetter__"; "__lookupGetter__";
   "__lookupSetter__"].

Definition isInherited (name : string) : bool :=
  existsb (String.eqb name) inheritedNames.

(** What [formatGpuResourceName] returns: a string, or the inherited member
    of the table when the name is one of [inheritedNames]. *)
Inductive DisplayName :=
| Text (s : string)
| Inherited (member : string).

(** The object literal [map] of [formatGpuResourceName]. *)
Definition friendlyNames : gmap string string :=
  {[ "i915" := "GPU (i915)";
     "xe" := "GPU (Xe)";
     "millicores" := "GPU Millicores";
     "memory.max" := "GPU Memory (max)";
     "tiles" := "GPU Tiles" ]}.

Definition formatGpuResourceName (resourceKey : string) : DisplayName :=
  let name := removeFirst INTEL_GPU_RESOURCE_PREFIX resourceKey in
  match friendlyNames !! name with
  | Some friendly => Text friendly
  | None =>
      if isInherited name then Inherited name
      else Text name
  end.

(** ** Status text *)

Definition pluginStatusText (plugin : GpuDevicePlugin) : string :=
  let desired := statusField plugin desiredNumberScheduled in
  let ready := statusField plugin numberReady in
  if desired =? 0 then "No nodes scheduled"
  else numberToString (Int ready) ++ "/" ++ numberToString (Int desired)
       ++ " ready".

(** ** Reading pods declaratively *)

(** [v] is an object whose [kind] is the string [k]. *)
Definition hasKind (k : string) (v : JSValue) : bool :=
  match field v "kind" with Some x => isString x k | None => false end.

(** The elements of [v.items] when [v] is an object whose [items] is an
    array. *)
Definition listItems (v : JSValue) : option (list JSValue) :=
  match field v "items" with Some (JArray items) => Some items | _ => None end.

(** The items an array-valued (or missing) field contributes to a spread
    guarded by [?? []]; [None] when the spread raises. *)
Definition elementsOf (v : JSValue) : option (list JSValue) :=
  match v with
  | JUndefined | JNull => Some []
  | JArray items => Some items
  | JString s => Some (characters s)
  | _ => None
  end.

(** [v] is neither [null] nor [undefined]. *)
Definition notNullish (v : JSValue) : bool :=
  match v with JUndefined | JNull => false | _ => true end.

(** The object stored under [c.resources.<k>], when all are objects. *)
Definition resourceMap (c : JSValue) (k : string) : option (gmap string JSValue) :=
  match field c "resources" with
  | Some r => match field r k with Some (JObject m) => Some m | _ => None end
  | None => None
  end.

(** The container has a request or a limit whose key extends
    [gpu.intel.com/]. *)
Definition namesGpuResource (c : JSValue) : Prop :=
  exists k m rest, (k = "requests" \/ k = "limits") /\
    resourceMap c k = Some m /\
    is_Some (m !! (INTEL_GPU_RESOURCE_PREFIX ++ rest)).

(** One of the three plugin labels names the plugin. *)
Definition pluginLabels : list string :=
  ["app"; "app.kubernetes.io/name"; "component"].

Definition hasPluginLabel (x : JSValue) : Prop :=
  exists ls k, nodeLabels x = Some ls /\ In k pluginLabels /\
               ls !! k = Some (JString PLUGIN_NAME).

(** [labels && (labels[k1] === name || ...)] as a total function. *)
Definition pluginLabelCheck (labels : JSValue) : bool :=
  match labels with
  | JObject ls =>
      existsb (fun k => match ls !! k with
                        | Some v => isString v PLUGIN_NAME
                        | None => false
                        end) pluginLabels
  | _ => false
  end.

(** The scan of one container as a total function. *)
Definition containerCheck (c : JSValue) : bool :=
  capacityCheck (propOr (propOr c "resources") "requests")
  || capacityCheck (propOr (propOr c "resources") "limits").

(** [parseInt(v, 10) || 0] of the string stored under [key], and 0 for a
    missing key or an empty value. *)
Definition quantityOf (m : gmap string string) (key : string) : Z :=
  match m !! key with
  | Some v => match parseInt v with Int z => z | NaN => 0 end
  | None => 0
  end.

(** The string stored under [c.resources.requests[key]], when the container
    has resources, the resources have requests and the requests have the
    key. *)
Definition requested (c : ContainerSpec) (key : string) : option string :=
  match resources c with
  | Some r =>
      match requests r with
      | Some m => m !! key
      | None => None
      end
  | None => None
  end.

(** The devices a container requests under [key]: the integer its request
    starts with, and 0 without a request or a number. *)
Definition requestCount (c : ContainerSpec) (key : string) : Z :=
  match requested c key with
  | Some v => match parseInt v with Int z => z | NaN => 0 end
  | None => 0
  end.

(** The container has a non-empty request under [key]. *)
Definition requestsKey (key : string) (c : ContainerSpec) : bool :=
  match requested c key with
  | Some v => negb (isEmpty v)
  | None => false
  end.

(** The elements of [pod.spec.containers], none when the pod has no spec or
    the spec no such field. *)
Definition containersOf (pod : GpuPod) : list ContainerSpec :=
  match pod_spec pod with
  | Some spec => match containers spec with Some cs => cs | None => [] end
  | None => []
  end.

(** The elements of [pod.spec.initContainers]. *)
Definition initContainersOf (pod : GpuPod) : list ContainerSpec :=
  match pod_spec pod with
  | Some spec => match initContainers spec with Some cs => cs | None => [] end
  | None => []
  end.

(** The containers and the init containers of a pod. *)
Definition everyContainer (pod : GpuPod) : list ContainerSpec :=
  (containersOf pod ++ initContainersOf pod)%list.

(** The pod has a status whose phase is the string [Running]. *)
Definition runningPod (pod : GpuPod) : bool :=
  bool_decide (pod_status pod ≫= phase = Some "Running").


(** A container with requests and limits, and a pod made of containers
    and init containers. *)
Definition mkContainer (name : string) (reqs lims : option (gmap string string))
  : ContainerSpec :=
  {| container_name := name;
     resources := Some {| requests := reqs; limits := lims |} |}.

Definition mkGpuPod (name : string) (node phase : option string)
    (cs ics : option (list ContainerSpec)) : GpuPod :=
  {| pod_object :=
       {| pod_metadata :=
            {| meta_name := name; meta_labels := None; uid := None |} |};
     pod_spec := Some {| spec_nodeName := node; containers := cs;
                         initContainers := ics |};
     pod_status := Some {| phase := phase; pod_conditions := None;
                           containerStatuses := None |} |}.

(** A running pod whose container requests two devices, within limits of
    five, and whose init container requests one. *)
Definition examplePod : GpuPod :=
  mkGpuPod "workload" (Some "gpu-node-1") (Some "Running")
    (Some [mkContainer "main"
             (Some {[ INTEL_GPU_RESOURCE := "2";
                      INTEL_GPU_MILLICORES_RESOURCE := "500" ]})
             (Some {[ INTEL_GPU_RESOURCE := "5";
                      INTEL_GPU_XE_RESOURCE := "4" ]})])
    (Some [mkContainer "init" (Some {[ INTEL_GPU_RESOURCE := "1" ]}) None]).

End K8sHelpers.

(* ===================================================================== *)
(** * The counts of src/api/k8s.ts in double precision *)
(* ===================================================================== *)

(** The numbers of the code are doubles.  This module embeds [parseInt],
    [||] and the loop of [getNodeGpuCount] over primitive floats, to compare
    them with the integers of [JSInt]; the device sums of the pages further
    down are computed with them. *)
Module Binary64.
Import JS K8s.

(** The double nearest to an integer, ties to even, and an infinity beyond
    the largest double; [szero] is the sign of a zero. *)
Definition ofInteger (z : Z) (szero : bool) : float :=
  SF2Prim (binary_normalize prec emax z 0 szero).

(** [parseInt(s, 10)]: the double of the integer read, [-0] for a zero
    after a minus sign, [NaN] without a digit.  (For more than 20 digits
    the language lets an engine replace the later digits by 0 before it
    rounds.) *)
Definition parseInt (s : string) : float :=
  let '(neg, s1) := takeSign (trimStart s) in
  let '(ds, _) := span isDigit s1 in
  if isEmpty ds then nan
  else ofInteger (if neg then - digitsValue 0 ds else digitsValue 0 ds) neg.

(** [x || 0]: [NaN] and both zeros are falsy. *)
Definition orZero (x : float) : float :=
  if is_nan x || is_zero x then 0%float else x.

(** The body of the loop of [getNodeGpuCount]. *)
Definition countStep (count : float) (entry : string * option string) : float :=
  let '(key, value) := entry in
  match value with
  | Some v =>
      if isDeviceCountKey key && negb (isEmpty v)
      then (count + orZero (parseInt v))%float
      else count
  | None => count
  end.

Definition getNodeGpuCount (node : IntelGpuNode) : float :=
  fold_left countStep (objectEntries (capacityOf node)) 0%float.

(** The double an integer count stands for. *)
Definition toDouble (x : JSInt) : float :=
  match x with
  | NaN => nan
  | Int z => ofInteger z false
  end.

(** A string of [n] nines. *)
Definition nines (n : nat) : string := Nat.iter n (String "9"%char) "".

(** ** The totals of src/components/OverviewPage.tsx in double precision *)

Record Totals := {
  totalCapacityGpus : float;
  totalAllocatableGpus : float
}.

(** [parseInt(resources[key] ?? '0', 10)] *)
Definition quantity (resources : NodeResources) (key : string) : float :=
  parseInt (match resources !! key with
            | Some (Some v) => v
            | _ => "0"
            end).

(** The body of [for (const key of Object.keys(capacity))]. *)
Definition keyStep (capacity allocatable : NodeResources)
    (t : Totals) (key : string) : Totals :=
  if isDeviceCountKey key then
    {| totalCapacityGpus :=
         (totalCapacityGpus t + quantity capacity key)%float;
       totalAllocatableGpus :=
         (totalAllocatableGpus t + quantity allocatable key)%float |}
  else t.

(** The body of [for (const node of gpuNodes)]. *)
Definition nodeStep (t : Totals) (node : IntelGpuNode) : Totals :=
  let capacity := capacityOf node in
  let allocatable := allocatableOf node in
  fold_left (keyStep capacity allocatable)
    (map fst (objectEntries capacity)) t.

Definition allocationTotals (gpuNodes : list IntelGpuNode) : Totals :=
  fold_left nodeStep gpuNodes
    {| totalCapacityGpus := 0%float; totalAllocatableGpus := 0%float |}.

(** ** The totals of [getPodGpuRequests] in double precision *)

(** The body of the inner loop of [getPodGpuRequests]. *)
Definition requestStep (totals : gmap string float) (entry : string * string)
  : gmap string float :=
  let '(key, value) := entry in
  if startsWith INTEL_GPU_RESOURCE_PREFIX key && negb (isEmpty value)
  then <[key := (default 0%float (totals !! key)
                 + orZero (parseInt value))%float]> totals
  else totals.

(** The body of [for (const c of allContainers)]. *)
Definition containerStep (totals : gmap string float)
    (c : K8sHelpers.ContainerSpec)
  : gmap string float :=
  fold_left requestStep (objectEntries (K8sHelpers.requestsOf c)) totals.

(** The object [totals] after the loops. *)
Definition podTotals (pod : K8sHelpers.GpuPod) : gmap string float :=
  fold_left containerStep (K8sHelpers.allContainers pod) ∅.

(** The doubles that two integer totals stand for. *)
Definition toDoubles (t : OverviewPage.Totals) : Totals :=
  {| totalCapacityGpus := toDouble (OverviewPage.totalCapacityGpus t);
     totalAllocatableGpus := toDouble (OverviewPage.totalAllocatableGpus t) |}.

End Binary64.

(** What the statements about rounding use. *)
Module Rounding.

(** A mantissa followed by [n] zero bits. *)
Definition shiftn (p : positive) (n : nat) : positive := Nat.iter n xO p.

(** The double nearest to an integer, as the specification of the floats
    writes it. *)
Definition nearest (z : Z) : spec_float := binary_normalize prec emax z 0 false.

End Rounding.

(* ===================================================================== *)
(** * src/api/IntelGpuDataContext.tsx: what the provider derives *)
(* ===================================================================== *)

Module DataProvider.
Import JS K8s K8sHelpers.

(** The outcome of [await ApiProxy.request(url)]: a value, or a rejection
    that the surrounding [try] catches like any other exception. *)
Abbreviation Response := (result JSValue).

(** The state the first [try] block writes. *)
Record PluginState := {
  crdAvailable : bool;
  devicePlugins : list JSValue
}.

(** The first [try] block of [fetchAsync], for a request that is not
    cancelled: [prev] is the state before the fetch. *)
Definition fetchDevicePlugins (prev : PluginState) (response : Response)
  : PluginState :=
  match (let* pluginList := response in
         let* isList := isKubeList pluginList in
         if isList then
           let* items := getProp pluginList "items" in
           let* plugins := callFilter items isGpuDevicePlugin in
           Ok {| crdAvailable := true; devicePlugins := plugins |}
         else Ok prev) with
  | Ok st => st
  | TypeError => {| crdAvailable := false; devicePlugins := [] |}
  end.

(** The body of [for (const url of pluginPodSelectors)]: the [catch] keeps
    what was found so far. *)
Definition pluginPodsStep (found : list JSValue) (response : Response)
  : list JSValue :=
  match (let* list := response in
         let* isList := isKubeList list in
         if isList then
           let* items := getProp list "items" in
           let* pods := callFilter items isIntelGpuPluginPod in
           Ok (found ++ pods)%list
         else Ok found) with
  | Ok found' => found'
  | TypeError => found
  end.

Definition foundPluginPods (responses : list Response) : list JSValue :=
  fold_left pluginPodsStep responses [].

(** The callback of [extractJsonData]. *)
Definition jsonDataOf (item : JSValue) : JSValue :=
  if truthy item && typeofObject item then
    match item with
    | JObject fields =>
        match fields !! "jsonData" with Some d => d | None => item end
    | _ => item
    end
  else item.

Definition extractJsonData (items : list JSValue) : list JSValue :=
  map jsonDataOf items.

(** [gpuNodes]: [allNodes] is [null] until the list has arrived. *)
Definition gpuNodes (allNodes : option (list JSValue)) : result (list JSValue) :=
  match allNodes with
  | None => Ok []
  | Some items => filterIntelGpuNodes (extractJsonData items)
  end.

Definition gpuPods (allPods : option (list JSValue)) : result (list JSValue) :=
  match allPods with
  | None => Ok []
  | Some items => filterGpuRequestingPods (extractJsonData items)
  end.

(** ** The node list declaratively *)

(** What a list item stands for: the value of its field [jsonData] when the
    item is an object that has one, the item itself otherwise. *)
Definition payload (item : JSValue) : JSValue :=
  match field item "jsonData" with Some d => d | None => item end.

(** An object with one of the three GPU labels set to the string [true], or
    with a capacity key that extends [gpu.intel.com/]. *)
Definition gpuMarked (x : JSValue) : bool :=
  match x with
  | JObject _ =>
      labelCheck (propOr (propOr x "metadata") "labels")
      || capacityCheck (propOr (propOr x "status") "capacity")
  | _ => false
  end.

(** A list item as the resource hooks deliver it: an instance that keeps
    the JSON of the resource under [jsonData]. *)
Definition instanceOf (json : JSValue) : JSValue :=
  JObject {[ "cluster" := JString "main"; "jsonData" := json ]}.

Definition labelledNode : JSValue :=
  jsonNode {[ INTEL_GPU_NODE_LABEL := JString "true" ]} ∅.

Definition regularNode : JSValue :=
  jsonNode ∅ {[ "cpu" := JString "8" ]}.

End DataProvider.

(* ===================================================================== *)
(** * src/components/OverviewPage.tsx: node, pod and phase counters *)
(* ===================================================================== *)

Module OverviewCounters.
Import JS K8s K8sHelpers.

(** The five counters of the node loop.  Four of them count nodes; the
    fifth adds up parsed capacities and is kept in double precision. *)
Record NodeSummary := {
  discreteCount : Z;
  integratedCount : Z;
  unknownCount : Z;
  totalGpuCount : float;
  readyNodeCount : Z
}.

(** The body of the first [for (const node of gpuNodes)]. *)
Definition summaryStep (s : NodeSummary) (node : GpuNode) : NodeSummary :=
  let type := getNodeGpuType (node_object node) in
  {| discreteCount :=
       match type with discrete => discreteCount s + 1 | _ => discreteCount s end;
     integratedCount :=
       match type with
       | integrated => integratedCount s + 1
       | _ => integratedCount s
       end;
     unknownCount :=
       match type with unknown => unknownCount s + 1 | _ => unknownCount s end;
     totalGpuCount :=
       (totalGpuCount s + Binary64.getNodeGpuCount (node_object node))%float;
     readyNodeCount :=
       if isNodeReady node then readyNodeCount s + 1 else readyNodeCount s |}.

Definition nodeSummary (gpuNodes : list GpuNode) : NodeSummary :=
  fold_left summaryStep gpuNodes
    {| discreteCount := 0; integratedCount := 0; unknownCount := 0;
       totalGpuCount := 0%float; readyNodeCount := 0 |}.

Record ChartEntry := {
  chart_name : string;
  chart_value : Z;
  chart_fill : string
}.

Definition gpuTypeChartData (discreteCount integratedCount unknownCount : Z)
  : list ChartEntry :=
  ((if 0 <? discreteCount
    then [{| chart_name := "Discrete"; chart_value := discreteCount;
             chart_fill := "#0071c5" |}]
    else [])
   ++ (if 0 <? integratedCount
       then [{| chart_name := "Integrated"; chart_value := integratedCount;
                chart_fill := "#60a4dc" |}]
       else [])
   ++ (if 0 <? unknownCount
       then [{| chart_name := "Unknown"; chart_value := unknownCount;
                chart_fill := "#9e9e9e" |}]
       else []))%list.

(** [pod.status?.phase] *)
Definition phaseOf (pod : GpuPod) : option string :=
  match pod_status pod with Some st => phase st | None => None end.

(** [pod.status?.phase !== 'Running'] is false. *)
Definition isRunning (pod : GpuPod) : bool :=
  match phaseOf pod with Some p => String.eqb p "Running" | None => false end.

(** The body of the loop over [Object.entries(requests)]. *)
Definition allocatedStep (total : float) (entry : string * string) : float :=
  let '(key, value) := entry in
  if isDeviceCountKey key
  then (total + Binary64.orZero (Binary64.parseInt value))%float
  else total.

(** The body of the first [for (const pod of gpuPods)]. *)
Definition podStep (total : float) (pod : GpuPod) : float :=
  if negb (isRunning pod) then total
  else fold_left allocatedStep (objectEntries (getPodGpuRequests pod)) total.

Definition totalAllocatedGpus (gpuPods : list GpuPod) : float :=
  fold_left podStep gpuPods 0%float.

(** The object literal [podPhaseCounts]. *)
Definition initialPhaseCounts : gmap string JSInt :=
  {[ "Running" := Int 0; "Pending" := Int 0; "Succeeded" := Int 0;
     "Failed" := Int 0; "Other" := Int 0 ]}.

(** The body of the second [for (const pod of gpuPods)].  [phase in
    podPhaseCounts] also holds for the names the object inherits: the
    increment then stores [NaN] under that name, except for [__proto__],
    whose setter ignores a number. *)
Definition phaseStep (counts : gmap string JSInt) (pod : GpuPod)
  : gmap string JSInt :=
  let phase := default "Other" (phaseOf pod) in
  match counts !! phase with
  | Some n => <[phase := add n (Int 1)]> counts
  | None =>
      if isInherited phase then
        if String.eqb phase "__proto__" then counts
        else <[phase := NaN]> counts
      else
        match counts !! "Other" with
        | Some n => <["Other" := add n (Int 1)]> counts
        | None => <["Other" := NaN]> counts
        end
  end.

Definition podPhaseCounts (gpuPods : list GpuPod) : gmap string JSInt :=
  fold_left phaseStep gpuPods initialPhaseCounts.

(** ** Counting declaratively *)

Definition count {A : Type} (p : A -> bool) (l : list A) : Z :=
  Z.of_nat (List.length (List.filter p l)).





(** Three nodes: a discrete one that is ready, an integrated one that is
    not, and one that carries only the generic label, with a [Ready]
    condition but no capacity. *)
Definition mkGpuNode (name : string) (labels : gmap string string)
    (capacity : NodeResources) (conditions : list Condition) : GpuNode :=
  {| node_object :=
       {| node_metadata := {| meta_name := name; meta_labels := Some labels;
                              uid := None |};
          node_status := Some {| capacity := Some capacity;
                                 allocatable := None |} |};
     node_conditions := Some conditions |}.

Definition exampleNodes : list GpuNode :=
  [ mkGpuNode "gpu-node-1"
      {[ INTEL_DISCRETE_GPU_NODE_ROLE := "true";
         INTEL_INTEGRATED_GPU_NODE_ROLE := "true" ]}
      {[ INTEL_GPU_RESOURCE := Some "2"; INTEL_GPU_XE_RESOURCE := Some "1" ]}
      [{| cond_type := "MemoryPressure"; cond_status := "False" |};
       {| cond_type := "Ready"; cond_status := "True" |}];
    mkGpuNode "gpu-node-2"
      {[ INTEL_INTEGRATED_GPU_NODE_ROLE := "true" ]}
      {[ INTEL_GPU_RESOURCE := Some "1";
         INTEL_GPU_MILLICORES_RESOURCE := Some "1000" ]}
      [{| cond_type := "Ready"; cond_status := "False" |}];
    mkGpuNode "gpu-node-3"
      {[ INTEL_GPU_NODE_LABEL := "true" ]}
      ∅
      [{| cond_type := "Ready"; cond_status := "True" |}] ].


(** The devices the containers of a list request under the two keys. *)
Definition requestedDevices (cs : list ContainerSpec) : Z :=
  sumZ (map (fun c => requestCount c INTEL_GPU_RESOURCE
                      + requestCount c INTEL_GPU_XE_RESOURCE) cs).

(** The magnitudes of these requests. *)
Definition requestMagnitude (cs : list ContainerSpec) : Z :=
  sumZ (map (fun c => Z.abs (requestCount c INTEL_GPU_RESOURCE)
                      + Z.abs (requestCount c INTEL_GPU_XE_RESOURCE)) cs).

Definition hasPhase (p : string) (pod : GpuPod) : bool :=
  match phaseOf pod with Some q => String.eqb q p | None => false end.

Definition namedPhases : list string :=
  ["Running"; "Pending"; "Succeeded"; "Failed"; "Other"].

(** The pods the [else] branch counts, together with those whose phase is
    the string [Other]. *)
Definition isOtherPhase (pod : GpuPod) : bool :=
  match phaseOf pod with
  | None => true
  | Some p =>
      String.eqb p "Other"
      || negb (existsb (String.eqb p) namedPhases) && negb (isInherited p)
  end.

(** Whether a pod is counted under the displayed name [k]. *)
Definition countsAs (k : string) (pod : GpuPod) : bool :=
  if String.eqb k "Other" then isOtherPhase pod else hasPhase k pod.

(** What the loop keeps true of [podPhaseCounts]: the five displayed
    counters are integers, and any other own property has an inherited
    name. *)
Definition phaseInvariant (counts : gmap string JSInt) : Prop :=
  (forall k, In k namedPhases -> exists z, counts !! k = Some (Int z)) /\
  (forall k, is_Some (counts !! k) ->
     In k namedPhases \/ isInherited k = true).

End OverviewCounters.

(* ===================================================================== *)
(** * src/components/NodeDetailSection.tsx: GPUs of one node *)
(* ===================================================================== *)

Module NodeDetailSection.
Import JS K8s K8sHelpers OverviewCounters.

(** The body of the loop over [Object.entries(allocatable)]. *)
Definition allocatableStep (total : float) (entry : string * string) : float :=
  let '(key, val) := entry in
  if isDeviceCountKey key
  then (total + Binary64.orZero (Binary64.parseInt val))%float
  else total.

(** [gpuAllocatable] for [allocatable = getGpuResources(status?.allocatable)]. *)
Definition gpuAllocatable (resources : option NodeResources) : float :=
  fold_left allocatableStep (objectEntries (getGpuResources resources)) 0%float.

(** [p.spec?.nodeName === nodeName] *)
Definition onNode (nodeName : string) (p : GpuPod) : bool :=
  match pod_spec p with
  | Some spec =>
      match spec_nodeName spec with
      | Some n => String.eqb n nodeName
      | None => false
      end
  | None => false
  end.

(** The callback of [flatMap]. *)
Definition deviceRequests (c : ContainerSpec) : list (string * string) :=
  List.filter (fun entry => isDeviceCountKey (fst entry))
    (objectEntries (requestsOf c)).

(** [pod.spec?.containers?.flatMap(...) ?? []] *)
Definition reqsOf (pod : GpuPod) : list (string * string) :=
  match pod_spec pod with
  | Some spec =>
      match containers spec with
      | Some cs => concat (map deviceRequests cs)
      | None => []
      end
  | None => []
  end.

(** The body of the loop over the running pods of the node. *)
Definition inUseStep (total : float) (pod : GpuPod) : float :=
  fold_left
    (fun t entry => (t + Binary64.orZero (Binary64.parseInt (snd entry)))%float)
    (reqsOf pod) total.

Definition gpuInUse (loading : bool) (gpuPods : list GpuPod)
    (nodeName : string) : float :=
  let podsOnNode :=
    if loading then [] else List.filter (onNode nodeName) gpuPods in
  fold_left inUseStep (List.filter isRunning podsOnNode) 0%float.


End NodeDetailSection.

(* ===================================================================== *)
(** * src/components/AppBarGpuBadge.tsx: the health chip *)
(* ===================================================================== *)

Module AppBarGpuBadge.
Import JS K8s.

(** The callback of [devicePlugins.some]. *)
Definition isUnhealthy (p : GpuDevicePlugin) : bool :=
  let desired := statusField p desiredNumberScheduled in
  let ready := statusField p numberReady in
  let unavailable := statusField p numberUnavailable in
  (0 <? desired) && (ready <? desired) || (0 <? unavailable).

Definition hasUnhealthyPlugin (devicePlugins : list GpuDevicePlugin) : bool :=
  existsb isUnhealthy devicePlugins.

Definition badgeStatus (devicePlugins : list GpuDevicePlugin) : Status :=
  if hasUnhealthyPlugin devicePlugins then warning else success.

(** Counters a DaemonSet can report: nothing negative, and not more pods
    ready than scheduled. *)
Definition plausible (p : GpuDevicePlugin) : Prop :=
  0 <= statusField p desiredNumberScheduled /\
  0 <= statusField p numberReady <= statusField p desiredNumberScheduled.

End AppBarGpuBadge.

(* ===================================================================== *)
(** * The exposition format, as the plugin's metrics endpoint writes it *)
(* ===================================================================== *)

Module Exposition.
Import JS Metrics.

(** All characters of [s] satisfy [p]. *)
Fixpoint allChars (p : ascii -> bool) (s : string) : bool :=
  match s with
  | EmptyString => true
  | String c r => p c && allChars p r
  end.

(** [a] is another character than [c]. *)
Definition notChar (c : ascii) (a : ascii) : bool := negb (Ascii.eqb a c).

(** A label pair: the key, an equals sign, and the value between double
    quotes. *)
Definition renderPair (kv : string * string) : string :=
  fst kv ++ "=" ++ dq ++ snd kv ++ dq.

(** Label pairs separated by commas. *)
Fixpoint renderLabels (pairs : list (string * string)) : string :=
  match pairs with
  | [] => ""
  | kv :: rest =>
      renderPair kv ++
      match rest with
      | [] => ""
      | _ :: _ => "," ++ renderLabels rest
      end
  end.

(** A sample line: the metric name, the labels between braces, a space and
    the value token. *)
Definition renderSample (metricName : string) (pairs : list (string * string))
    (tok : string) : string :=
  metricName ++ "{" ++ renderLabels pairs ++ "} " ++ tok.

(** A label name: word characters, not empty, and not the one name an
    object literal treats specially. *)
Definition validKey (k : string) : bool :=
  negb (isEmpty k) && allChars isWord k && negb (String.eqb k "__proto__").

(** A label value: any characters but the double quote. *)
Definition validValue (v : string) : bool :=
  allChars (notChar "034"%char) v.

Definition validPair (kv : string * string) : bool :=
  validKey (fst kv) && validValue (snd kv).

(** A metric name: not empty, without white space or an opening brace, and
    not starting a comment. *)
Definition validName (n : string) : bool :=
  negb (isEmpty n) && negb (startsWith "#" n)
  && allChars (fun c => negb (isWhite c) && notChar "{"%char c) n.

(** A value token: not empty, without white space or a closing brace. *)
Definition validToken (tok : string) : bool :=
  negb (isEmpty tok)
  && allChars (fun c => negb (isWhite c) && notChar "}"%char c) tok.

(** The start of a line that is neither white space nor a comment, without
    an opening brace anywhere; spaces may occur inside. *)
Definition bracelessStart (n : string) : bool :=
  match n with
  | String c _ => negb (isWhite c) && notChar "#"%char c
  | EmptyString => false
  end
  && allChars (notChar "{"%char) n.

(** A token without white space or braces. *)
Definition plainToken (tok : string) : bool :=
  negb (isEmpty tok)
  && allChars (fun c => negb (isWhite c) && notChar "{"%char c
                        && notChar "}"%char c) tok.

(** Lines joined by a separator. *)
Fixpoint joinLines (sep : string) (lines : list string) : string :=
  match lines with
  | [] => ""
  | l :: rest =>
      l ++ match rest with
           | [] => ""
           | _ :: _ => sep ++ joinLines sep rest
           end
  end.

(** The lines of a text joined by [sep] followed by a line feed, as a scan
    for line feeds finds them: every line but the last keeps [sep]. *)
Fixpoint withEnding (sep : string) (lines : list string) : list string :=
  match lines with
  | [] => []
  | l :: rest =>
      match rest with
      | [] => [l]
      | _ :: _ => (l ++ sep) :: withEnding sep rest
      end
  end.

(** Carriage return and line feed, the line break of a text in DOS
    format. *)
Definition crlf : string := String "013"%char newline.

(** The object the pairs denote: a later pair replaces an earlier one with
    the same key. *)
Definition labelsOf (pairs : list (string * string)) : gmap string string :=
  fold_left (fun m kv => <[fst kv := snd kv]> m) pairs ∅.

(** A binary64 value that is a number: anything but NaN. *)
Definition SFnumber (x : spec_float) : Prop :=
  match x with S754_nan => False | _ => True end.

(** The first line of [exampleText]. *)
Definition exampleSampleLine : string :=
  renderSample ACTIVE_TICKS [("card", "card0"); ("engine", "render/0")] "50".

End Exposition.

(* ===================================================================== *)
(** * src/components/OverviewPage.tsx: what the totals add up *)
(* ===================================================================== *)

Module OverviewTotals.
Import JS K8s OverviewPage.

(** What the loop adds to [totalCapacityGpus] for one node and one device
    key: nothing when the capacity has no such key. *)
Definition capacityTerm (node : IntelGpuNode) (key : string) : JSInt :=
  match capacityOf node !! key with
  | Some _ => quantity (capacityOf node) key
  | None => Int 0
  end.

(** What the loop adds to [totalAllocatableGpus]: the allocatable value is
    read only under the keys of the capacity. *)
Definition allocatableTerm (node : IntelGpuNode) (key : string) : JSInt :=
  match capacityOf node !! key with
  | Some _ => quantity (allocatableOf node) key
  | None => Int 0
  end.

(** The allocatable devices of a node under the device keys that its
    capacity has. *)
Definition countedAllocatable (node : IntelGpuNode) : Z :=
  (if bool_decide (is_Some (capacityOf node !! INTEL_GPU_RESOURCE))
   then deviceCount (allocatableOf node) INTEL_GPU_RESOURCE else 0)
  + (if bool_decide (is_Some (capacityOf node !! INTEL_GPU_XE_RESOURCE))
     then deviceCount (allocatableOf node) INTEL_GPU_XE_RESOURCE else 0).

(** The capacity holds, under a device key, a string that [parseInt] does
    not read as a number. *)
Definition unreadableCapacity (node : IntelGpuNode) : Prop :=
  exists key v, isDeviceCountKey key = true /\
    capacityOf node !! key = Some (Some v) /\ parseInt v = NaN.

(** The devices of a node under the two capacity keys. *)
Definition capacityDevices (node : IntelGpuNode) : Z :=
  deviceCount (capacityOf node) INTEL_GPU_RESOURCE
  + deviceCount (capacityOf node) INTEL_GPU_XE_RESOURCE.

(** The magnitudes of the numbers the two loops add for a node. *)
Definition capacityMagnitude (node : IntelGpuNode) : Z :=
  Z.abs (deviceCount (capacityOf node) INTEL_GPU_RESOURCE)
  + Z.abs (deviceCount (capacityOf node) INTEL_GPU_XE_RESOURCE).

Definition allocatableMagnitude (node : IntelGpuNode) : Z :=
  Z.abs (deviceCount (allocatableOf node) INTEL_GPU_RESOURCE)
  + Z.abs (deviceCount (allocatableOf node) INTEL_GPU_XE_RESOURCE).

End OverviewTotals.

(* ===================================================================== *)
(** * src/components/MetricsPage.tsx: the cards of a node *)
(* ===================================================================== *)

Module MetricsPage.
Import JS Metrics.

(** The body of [for (const e of engineUtilization)]: the array stored in
    the map is extended in place. *)
Definition groupStep (byCard : gmap string (list UtilizationEntry))
    (e : UtilizationEntry) : gmap string (list UtilizationEntry) :=
  let byCard1 :=
    if bool_decide (is_Some (byCard !! card e)) then byCard
    else <[card e := []]> byCard in
  match byCard1 !! card e with
  | Some engines => <[card e := (engines ++ [e])%list]> byCard1
  | None => byCard1
  end.

Definition byCardOf (engineUtilization : list UtilizationEntry)
  : gmap string (list UtilizationEntry) :=
  fold_left groupStep engineUtilization ∅.

(** [new Map(values.map(f => [f.card, f.value]))] *)
Definition valueByCard (values : list CardValue) : gmap string float :=
  fold_left (fun m f => <[cv_card f := cv_value f]> m) values ∅.

(** The elements of a list without repetitions, each at its first
    position: the order in which a [Map] or a [Set] enumerates keys. *)
Fixpoint distinct (l : list string) : list string :=
  match l with
  | [] => []
  | x :: rest => x :: List.filter (fun y => negb (String.eqb y x)) (distinct rest)
  end.

(** [a] does not come after [b] in the order of [Array.prototype.sort]
    without a comparator: code unit by code unit. *)
Definition codeUnitLe (a b : string) : Prop := String.leb a b = true.

#[global] Instance codeUnitLe_dec (a b : string) : Decision (codeUnitLe a b) :=
  Bool.bool_dec (String.leb a b) true.

(** [Array.from(new Set([...byCard.keys(), ...freqByCard.keys(),
    ...memLocalByCard.keys()])).sort()] *)
Definition cardsOf (metrics : GpuNodeMetrics) : list string :=
  merge_sort codeUnitLe
    (distinct (distinct (map card (engineUtilization metrics))
               ++ distinct (map cv_card (boostFreqMhz metrics))
               ++ distinct (map cv_card (memoryLocalBytes metrics)))%list).

(** The entries of the card [c]. *)
Definition onCard (c : string) (e : UtilizationEntry) : bool :=
  String.eqb (card e) c.

Definition valuesOnCard (c : string) (values : list CardValue) : list float :=
  map cv_value (List.filter (fun f => String.eqb (cv_card f) c) values).

End MetricsPage.

(* ===================================================================== *)
(** * src/components/NodesPage.tsx: the pods of a node *)
(* ===================================================================== *)

Module NodesPage.
Import JS K8s K8sHelpers.

(** [pod.spec?.nodeName] *)
Definition nodeNameOf (pod : GpuPod) : option string :=
  match pod_spec pod with Some spec => spec_nodeName spec | None => None end.

(** The body of [for (const pod of gpuPods)]. *)
Definition podsByNodeStep (podsByNode : gmap string (list string))
    (pod : GpuPod) : gmap string (list string) :=
  match nodeNameOf pod with
  | Some n =>
      if isEmpty n then podsByNode
      else
        let existing := default [] (podsByNode !! n) in
        <[n := (existing ++ [meta_name (pod_metadata (pod_object pod))])%list]>
          podsByNode
  | None => podsByNode
  end.

Definition podsByNodeOf (gpuPods : list GpuPod) : gmap string (list string) :=
  fold_left podsByNodeStep gpuPods ∅.

(** [podsByNode.get(node.metadata.name) ?? []] *)
Definition podsOnNode (gpuPods : list GpuPod) (node : IntelGpuNode)
  : list string :=
  default [] (podsByNodeOf gpuPods !! meta_name (node_metadata node)).

(** [totalCapacity] and [totalAllocatable] of one row of [tableData]. *)
Record RowTotals := {
  totalCapacity : JSInt;
  totalAllocatable : JSInt
}.

(** The body of [for (const key of Object.keys(capacity))] in the callback
    of [gpuNodes.map]. *)
Definition rowKeyStep (capacity allocatable : NodeResources)
    (t : RowTotals) (key : string) : RowTotals :=
  if isDeviceCountKey key then
    {| totalCapacity :=
         add (totalCapacity t) (OverviewPage.quantity capacity key);
       totalAllocatable :=
         add (totalAllocatable t) (OverviewPage.quantity allocatable key) |}
  else t.

Definition rowTotals (node : IntelGpuNode) : RowTotals :=
  let capacity := capacityOf node in
  let allocatable := allocatableOf node in
  fold_left (rowKeyStep capacity allocatable)
    (map fst (objectEntries capacity))
    {| totalCapacity := Int 0; totalAllocatable := Int 0 |}.

End NodesPage.

(* ===================================================================== *)
(** * Facts about the string built-ins *)
(* ===================================================================== *)

Module StringFacts.
Import JS.

Lemma isEmpty_true (s : string) : isEmpty s = true <-> s = "".
Proof. destruct s; simpl; split; congruence. Qed.

Lemma isEmpty_false (s : string) : isEmpty s = false <-> s <> "".
Proof. destruct s; simpl; split; congruence. Qed.

Lemma startsWith_app (p s : string) :
  startsWith p s = true <-> exists rest, s = p ++ rest.
Proof.
  unfold startsWith. revert s.
  induction p as [| a p IH]; intros s; simpl.
  - split; [intros _; by exists s | by destruct s].
  - destruct s as [| b s]; simpl.
    + split; [done |]. intros [rest Hrest]. discriminate Hrest.
    + destruct (ascii_dec a b) as [-> | Hne].
      * rewrite IH. split; intros [rest Hrest]; exists rest.
        -- by rewrite Hrest.
        -- by injection Hrest.
      * split; [done |]. intros [rest Hrest]. injection Hrest as Hab _.
        by destruct Hne.
Qed.

Lemma startsWith_hash (p line : string) :
  startsWith (String "#"%char p) line = true ->
  startsWith "#" line = true /\ isEmpty line = false.
Proof.
  intros [rest ->]%startsWith_app. split; [| done].
  apply startsWith_app. by exists (p ++ rest).
Qed.

Lemma startsWith_HELP_TYPE (line : string) :
  startsWith "# HELP " line = true -> startsWith "# TYPE " line = false.
Proof.
  intros [rest ->]%startsWith_app.
  destruct (startsWith "# TYPE " ("# HELP " ++ rest)) eqn:E; [| done].
  apply startsWith_app in E as [rest' E]. cbv [String.append] in E.
  congruence.
Qed.

Lemma split_nonempty (c : ascii) (s : string) : split c s <> [].
Proof.
  destruct s as [| a r]; simpl; [done |].
  destruct (Ascii.eqb a c); [done |]. by destruct (split c r).
Qed.

Lemma split_app (c : ascii) (a b : string) :
  split c (a ++ String c b) = (split c a ++ split c b)%list.
Proof.
  induction a as [| x a IH].
  - change ("" +:+ String c b) with (String c b). cbn [split].
    by rewrite Ascii.eqb_refl.
  - change (String x a +:+ String c b) with (String x (a +:+ String c b)).
    cbn [split]. destruct (Ascii.eqb x c); [by rewrite IH |].
    rewrite IH. pose proof (split_nonempty c a) as Hne.
    by destruct (split c a).
Qed.

Lemma split_single (c : ascii) (s : string) :
  indexOf c s = None -> split c s = [s].
Proof.
  induction s as [| a r IH]; simpl; [done |].
  destruct (Ascii.eqb a c); [done |].
  destruct (indexOf c r); [done |]. intros _. by rewrite IH.
Qed.

End StringFacts.

(* ===================================================================== *)
(** * Properties of src/api/k8s.ts *)
(* ===================================================================== *)

Module K8sProofs.
Import JS K8s StringFacts.

(** ** getNodeGpuCount *)

Lemma countStep_contribution (a : Z) (entry : string * option string) :
  countStep (Int a) entry = Int (a + contribution entry).
Proof.
  destruct entry as [key [v |]]; simpl; [| f_equal; lia].
  destruct (isDeviceCountKey key); simpl; [| f_equal; lia].
  destruct v as [| c r]; simpl.
  - f_equal; lia.
  - destruct (parseInt (String c r)); simpl; f_equal; lia.
Qed.

Lemma fold_countStep (l : list (string * option string)) (a : Z) :
  fold_left countStep l (Int a) = Int (a + sumZ (map contribution l)).
Proof.
  revert a. induction l as [| e l IH]; intros a; simpl.
  - f_equal; lia.
  - rewrite countStep_contribution, IH. f_equal; lia.
Qed.

Lemma sumZ_Permutation (l1 l2 : list Z) : l1 ≡ₚ l2 -> sumZ l1 = sumZ l2.
Proof.
  induction 1 as [| x l1 l2 _ IH | x y l | l1 l2 l3 _ IH1 _ IH2]; simpl; lia.
Qed.

Lemma deviceCount_empty (key : string) : deviceCount ∅ key = 0.
Proof. unfold deviceCount. by rewrite lookup_empty. Qed.

Lemma deviceCount_insert (m : NodeResources) (i key : string) (x : option string) :
  m !! i = None ->
  deviceCount (<[i := x]> m) key =
    if String.eqb i key
    then match x with
         | Some v => match parseInt v with Int z => z | NaN => 0 end
         | None => 0
         end
    else deviceCount m key.
Proof.
  intros Hi. unfold deviceCount.
  destruct (String.eqb_spec i key) as [-> | Hne].
  - rewrite lookup_insert_eq. by destruct x.
  - by rewrite lookup_insert_ne.
Qed.

Lemma deviceCount_fresh (m : NodeResources) (i : string) :
  m !! i = None -> deviceCount m i = 0.
Proof. intros Hi. unfold deviceCount. by rewrite Hi. Qed.

(** The entries of a capacity map add up to the counts of the two device
    keys. *)
Lemma sum_contributions (m : NodeResources) :
  sumZ (map contribution (map_to_list m)) =
    deviceCount m INTEL_GPU_RESOURCE + deviceCount m INTEL_GPU_XE_RESOURCE.
Proof.
  induction m as [| i x m Hi _ IH] using map_first_key_ind.
  - rewrite map_to_list_empty, !deviceCount_empty. reflexivity.
  - rewrite (sumZ_Permutation _ _
               (Permutation_map contribution (map_to_list_insert m i x Hi))).
    simpl. rewrite IH, !deviceCount_insert by done.
    unfold isDeviceCountKey.
    destruct (String.eqb_spec i INTEL_GPU_RESOURCE) as [-> | H1].
    + rewrite (deviceCount_fresh m _ Hi). simpl. destruct x; lia.
    + destruct (String.eqb_spec i INTEL_GPU_XE_RESOURCE) as [-> | H2].
      * rewrite (deviceCount_fresh m _ Hi). simpl. destruct x; lia.
      * simpl. destruct x; lia.
Qed.

Lemma getNodeGpuCount_deviceCount (node : IntelGpuNode) :
  getNodeGpuCount node =
    Int (deviceCount (capacityOf node) INTEL_GPU_RESOURCE
         + deviceCount (capacityOf node) INTEL_GPU_XE_RESOURCE).
Proof.
  unfold getNodeGpuCount, objectEntries.
  rewrite fold_countStep, sum_contributions. f_equal.
Qed.


(** ** isIntelGpuNode *)

(** An array index never extends the resource prefix. *)
Lemma indexKeys_no_prefix (n : nat) :
  existsb (startsWith INTEL_GPU_RESOURCE_PREFIX) (indexKeys n) = false.
Proof.
  unfold indexKeys. generalize 0%nat.
  induction n as [| n IH]; intros start; simpl; [done |].
  rewrite IH, orb_false_r.
  destruct (Nat.to_uint start); reflexivity.
Qed.

Lemma getPropOpt_total (v : JSValue) (k : string) :
  getPropOpt v k = Ok (propOr v k).
Proof. by destruct v. Qed.

Lemma labelIsTrue_object (ls : gmap string JSValue) (k : string) :
  labelIsTrue (JObject ls) k =
    Ok (match ls !! k with Some v => isString v "true" | None => false end).
Proof. unfold labelIsTrue. simpl. by destruct (ls !! k). Qed.

Lemma label_branch (labels : JSValue) :
  (if truthy labels then
     let* b1 := labelIsTrue labels INTEL_GPU_NODE_LABEL in
     if b1 then Ok true else
     let* b2 := labelIsTrue labels INTEL_DISCRETE_GPU_NODE_ROLE in
     if b2 then Ok true else
     labelIsTrue labels INTEL_INTEGRATED_GPU_NODE_ROLE
   else Ok false) = Ok (labelCheck labels).
Proof.
  destruct labels as [| | b | x | s | items | ls]; simpl; try done.
  - by destruct b.
  - by destruct (negb _).
  - by destruct (negb _).
  - rewrite ?labelIsTrue_object. simpl. rewrite orb_false_r.
    destruct (ls !! INTEL_GPU_NODE_LABEL) as [v1 |];
      destruct (ls !! INTEL_DISCRETE_GPU_NODE_ROLE) as [v2 |];
      simpl; repeat (match goal with
                     | |- context [isString ?v "true"] =>
                         destruct (isString v "true"); simpl
                     end); done.
Qed.

Lemma capacity_branch (capacity : JSValue) :
  (if truthy capacity then
     let* keys := objectKeys capacity in
     Ok (existsb (startsWith INTEL_GPU_RESOURCE_PREFIX) keys)
   else Ok false) = Ok (capacityCheck capacity).
Proof.
  destruct capacity as [| | b | x | s | items | c]; simpl; try done.
  - by destruct b.
  - by destruct (negb _).
  - destruct (negb _); [| done]. by rewrite indexKeys_no_prefix.
  - by rewrite indexKeys_no_prefix.
Qed.

(** [isIntelGpuNode] never raises; its answer as a boolean expression. *)
Lemma isIntelGpuNode_total (x : JSValue) :
  isIntelGpuNode x =
    Ok (truthy x && typeofObject x &&
        (labelCheck (propOr (propOr x "metadata") "labels")
         || capacityCheck (propOr (propOr x "status") "capacity"))).
Proof.
  unfold isIntelGpuNode.
  destruct (truthy x) eqn:Ht; simpl; [| done].
  destruct (typeofObject x) eqn:Ho; simpl; [| done].
  assert (Hget : forall k, getProp x k = Ok (propOr x k))
    by (intros k; destruct x; try discriminate; done).
  rewrite !Hget. simpl. rewrite !getPropOpt_total. simpl.
  rewrite label_branch. simpl.
  destruct (labelCheck _); simpl; [done |].
  apply capacity_branch.
Qed.

Lemma labelCheck_object (ls : gmap string JSValue) :
  labelCheck (JObject ls) = true <->
  exists k, In k gpuNodeLabels /\ ls !! k = Some (JString "true").
Proof.
  unfold labelCheck. rewrite existsb_exists.
  split; intros (k & Hk & Hv); exists k; (split; [done |]).
  - destruct (ls !! k) as [[| | | | s | |] |]; try discriminate Hv.
    apply String.eqb_eq in Hv. by subst.
  - by rewrite Hv.
Qed.

Lemma capacityCheck_object (c : gmap string JSValue) :
  capacityCheck (JObject c) = true <->
  exists rest, is_Some (c !! (INTEL_GPU_RESOURCE_PREFIX ++ rest)).
Proof.
  unfold capacityCheck. rewrite existsb_exists. split.
  - intros (k & Hk & Hp). apply startsWith_app in Hp as [rest ->].
    exists rest.
    apply in_map_iff in Hk as ([k v] & Hkv & Hin). simpl in Hkv. subst k.
    apply list_elem_of_In, elem_of_map_to_list in Hin. by exists v.
  - intros (rest & [v Hv]).
    exists (INTEL_GPU_RESOURCE_PREFIX ++ rest). split.
    + apply in_map_iff. exists (INTEL_GPU_RESOURCE_PREFIX ++ rest, v).
      split; [done |]. by apply list_elem_of_In, elem_of_map_to_list.
    + apply startsWith_app. by exists rest.
Qed.

Lemma labelCheck_spec (x : JSValue) :
  labelCheck (propOr (propOr x "metadata") "labels") = true <-> hasGpuLabel x.
Proof.
  unfold hasGpuLabel, nodeLabels, propOr.
  destruct (field x "metadata") as [meta |]; cbv beta iota.
  2: { split; [discriminate | intros (ls & k & Hl & _); discriminate Hl]. }
  destruct (field meta "labels") as [v |]; cbv beta iota.
  2: { split; [discriminate | intros (ls & k & Hl & _); discriminate Hl]. }
  destruct v as [| | b | n | s | items | ls];
    try (split; [discriminate | intros (ls' & k & Hl & _); discriminate Hl]).
  rewrite labelCheck_object. split.
  - intros (k & Hk & Hv). by exists ls, k.
  - intros (ls' & k & Hl & Hk & Hv). injection Hl as <-. by exists k.
Qed.

Lemma capacityCheck_spec (x : JSValue) :
  capacityCheck (propOr (propOr x "status") "capacity") = true
  <-> hasGpuCapacityKey x.
Proof.
  unfold hasGpuCapacityKey, nodeCapacity, propOr.
  destruct (field x "status") as [status |]; cbv beta iota.
  2: { split; [discriminate | intros (c & r & Hc & _); discriminate Hc]. }
  destruct (field status "capacity") as [v |]; cbv beta iota.
  2: { split; [discriminate | intros (c & r & Hc & _); discriminate Hc]. }
  destruct v as [| | b | n | s | items | c];
    try (split; [discriminate | intros (c' & r & Hc & _); discriminate Hc]).
  rewrite capacityCheck_object. split.
  - intros (rest & Hv). by exists c, rest.
  - intros (c' & rest & Hc & Hv). injection Hc as <-. by exists rest.
Qed.

(** The cases of the unit tests, and inputs that are not objects. *)
Example isIntelGpuNode_discrete_label :
  isIntelGpuNode
    (jsonNode {[ INTEL_DISCRETE_GPU_NODE_ROLE := JString "true" ]} ∅) = Ok true.
Proof. vm_compute. reflexivity. Qed.

Example isIntelGpuNode_label_not_true :
  isIntelGpuNode
    (jsonNode {[ INTEL_GPU_NODE_LABEL := JString "false";
                 INTEL_INTEGRATED_GPU_NODE_ROLE := JBool true ]} ∅) = Ok false.
Proof. vm_compute. reflexivity. Qed.

Example isIntelGpuNode_capacity_key :
  isIntelGpuNode
    (jsonNode ∅ {[ "cpu" := JString "8";
                   INTEL_GPU_MILLICORES_RESOURCE := JString "1000" ]}) = Ok true.
Proof. vm_compute. reflexivity. Qed.

Example isIntelGpuNode_regular_node :
  isIntelGpuNode
    (jsonNode ∅ {[ "cpu" := JString "8"; "memory" := JString "16Gi" ]})
    = Ok false.
Proof. vm_compute. reflexivity. Qed.

Example isIntelGpuNode_not_an_object :
  map isIntelGpuNode
    [JNull; JUndefined; JBool true; JNumber 1; JString "node";
     JArray [JString "gpu.intel.com/i915"]]
  = [Ok false; Ok false; Ok false; Ok false; Ok false; Ok false].
Proof. vm_compute. reflexivity. Qed.

(** C5. For every input, [isIntelGpuNode] returns without raising; the
    answer is [true] exactly when the input is an object one of whose three
    GPU labels is the string [true] or whose [status.capacity] has a key
    that starts with [gpu.intel.com/]; it is [false] for [null],
    [undefined] and every input that is not an object. *)
Theorem isIntelGpuNode_iff (x : JSValue) :
  exists b,
    isIntelGpuNode x = Ok b /\
    (b = true <->
       (exists fields, x = JObject fields) /\
       (hasGpuLabel x \/ hasGpuCapacityKey x)) /\
    ((forall fields, x <> JObject fields) -> b = false).
Proof.
  eexists. split; [apply isIntelGpuNode_total |].
  split.
  - rewrite !andb_true_iff, orb_true_iff, labelCheck_spec, capacityCheck_spec.
    split.
    + intros [[_ Ho] Hs]. split; [| done].
      destruct x as [| | b | n | s | items | fs]; try discriminate Ho.
      * destruct Hs as [(ls & k & Hl & _) | (c & r & Hc & _)]; discriminate.
      * destruct Hs as [(ls & k & Hl & _) | (c & r & Hc & _)]; discriminate.
      * by exists fs.
    + intros [[fs ->] Hs]. done.
  - intros Hno.
    destruct x as [| | b | n | s | items | fs];
      try reflexivity; try (simpl; by rewrite andb_false_r).
    by destruct (Hno fs).
Qed.

(** ** pluginStatusToStatus *)

(** C7. With missing counters read as 0, [pluginStatusToStatus] answers
    [warning] when the desired count is 0; otherwise [warning] when some
    node is unavailable; otherwise [success] when ready equals desired;
    otherwise [error]; the four examples of the specification follow. *)
Theorem pluginStatusToStatus_order :
  (forall plugin,
     let desired := statusField plugin desiredNumberScheduled in
     let ready := statusField plugin numberReady in
     let unavailable := statusField plugin numberUnavailable in
     (desired = 0 -> pluginStatusToStatus plugin = warning) /\
     (desired <> 0 -> 0 < unavailable ->
        pluginStatusToStatus plugin = warning) /\
     (desired <> 0 -> unavailable <= 0 -> ready = desired ->
        pluginStatusToStatus plugin = success) /\
     (desired <> 0 -> unavailable <= 0 -> ready <> desired ->
        pluginStatusToStatus plugin = error)) /\
  pluginStatusToStatus (mkPlugin (Some 3) (Some 3) (Some 0)) = success /\
  pluginStatusToStatus (mkPlugin (Some 0) None None) = warning /\
  pluginStatusToStatus (mkPlugin (Some 3) (Some 2) (Some 1)) = warning /\
  pluginStatusToStatus (mkPlugin (Some 3) (Some 1) (Some 0)) = error.
Proof.
  split; [| repeat split; reflexivity].
  intros plugin desired ready unavailable.
  unfold pluginStatusToStatus.
  fold desired ready unavailable.
  destruct (Z.eqb_spec desired 0) as [Hd | Hd];
    destruct (Z.ltb_spec 0 unavailable) as [Hu | Hu];
    destruct (Z.eqb_spec ready desired) as [Hr | Hr];
    repeat split; intros; try reflexivity; try lia; congruence.
Qed.

End K8sProofs.

(* ===================================================================== *)
(** * Properties of the plugin-pod de-duplication *)
(* ===================================================================== *)

Module DedupProofs.
Import JS K8s IntelGpuDataContext StringFacts.
Local Open Scope list_scope.

(** The fold over the found pods appends exactly [keepFresh]. *)
Lemma fold_dedupStep (pods : list IntelGpuPod) (st : DedupState) :
  kept (fold_left dedupStep pods st) = kept st ++ keepFresh (seen st) pods.
Proof.
  revert st. induction pods as [| p rest IH]; intros st; simpl.
  - by rewrite app_nil_r.
  - rewrite IH. unfold dedupStep.
    destruct (uid (pod_metadata p)) as [u |]; [| done].
    destruct (isEmpty u || bool_decide (u ∈ seen st)); [done |].
    simpl. by rewrite <- app_assoc.
Qed.

Lemma uniquePluginPods_keepFresh (pods : list IntelGpuPod) :
  uniquePluginPods pods = keepFresh ∅ pods.
Proof. unfold uniquePluginPods. by rewrite fold_dedupStep. Qed.

(** Every kept pod has a non-empty UID that was not seen before. *)
Lemma keepFresh_uid (pods : list IntelGpuPod) (seen : gset string) (p : IntelGpuPod) :
  In p (keepFresh seen pods) ->
  exists u, uid (pod_metadata p) = Some u /\ u <> "" /\ u ∉ seen.
Proof.
  revert seen. induction pods as [| q rest IH]; intros seen; simpl; [done |].
  destruct (uid (pod_metadata q)) as [u |] eqn:Hu; [| by apply IH].
  destruct (isEmpty u) eqn:He; simpl; [by apply IH |].
  case_bool_decide as Hin; [by apply IH |].
  intros [-> | Hp].
  - exists u. by rewrite isEmpty_false in He.
  - destruct (IH _ Hp) as (v & Hv & Hne & Hnin).
    exists v. repeat split; try done. set_solver.
Qed.

(** The kept pods are a subsequence of the found pods. *)
Lemma keepFresh_sublist (pods : list IntelGpuPod) (seen : gset string) :
  sublist (keepFresh seen pods) pods.
Proof.
  revert seen. induction pods as [| q rest IH]; intros seen; simpl.
  - constructor.
  - destruct (uid (pod_metadata q)) as [u |]; [| by constructor].
    destruct (isEmpty u || bool_decide (u ∈ seen)); by constructor.
Qed.




(** C10. The de-duplication keeps only pods whose UID is defined and not
    the empty string: a pod without a UID never appears in the merged list,
    however often it was found. *)
Theorem uniquePluginPods_only_with_uid (foundPluginPods : list IntelGpuPod)
    (p : IntelGpuPod) :
  In p (uniquePluginPods foundPluginPods) ->
  exists u, uid (pod_metadata p) = Some u /\ u <> "".
Proof.
  rewrite uniquePluginPods_keepFresh. intros Hp.
  apply keepFresh_uid in Hp as (u & Hu & Hne & _). eauto.
Qed.

Lemma uniquePluginPods_only_with_uid_witness :
  In (mkPod "plugin-a" (Some "abc")) (uniquePluginPods (concat overlappingLists)) /\
  exists u, uid (pod_metadata (mkPod "plugin-a" (Some "abc"))) = Some u /\ u <> "".
Proof.
  assert (H : In (mkPod "plugin-a" (Some "abc"))
                (uniquePluginPods (concat overlappingLists)))
    by (vm_compute; left; reflexivity).
  split; [exact H |].
  exact (uniquePluginPods_only_with_uid (concat overlappingLists) _ H).
Defined.








End DedupProofs.

(* ===================================================================== *)
(** * Properties of the GPU allocation summary *)
(* ===================================================================== *)

Module OverviewProofs.
Import JS K8s OverviewPage.

(** C8 (the code departs from the claim). A capacity and an allocatable
    value that are not numbers make both cluster-wide totals [NaN], while
    [getNodeGpuCount], which guards [parseInt] with [|| 0], counts the same
    node as 0. *)
Theorem allocationTotals_not_a_number :
  totalCapacityGpus (allocationTotals [healthyNode; malformedNode]) = NaN /\
  totalAllocatableGpus (allocationTotals [healthyNode; malformedNode]) = NaN /\
  totalCapacityGpus (allocationTotals [healthyNode]) = Int 2 /\
  getNodeGpuCount malformedNode = Int 0.
Proof. repeat split; vm_compute; reflexivity. Qed.

End OverviewProofs.

(* ===================================================================== *)
(** * Properties of src/api/metrics.ts *)
(* ===================================================================== *)

Module FloatFacts.
Import JS.

Lemma signedBy_false_nonneg x : signedBy false x -> SFnonneg x.
Proof. destruct x as [s | s | | s m e]; simpl; intros H; subst; auto. Qed.

Lemma Prim2SF_zero : Prim2SF 0 = S754_zero false.
Proof. reflexivity. Qed.

Lemma leb_zero_nonneg (f : float) :
  (0 <=? f)%float = true <-> SFnonneg (Prim2SF f).
Proof.
  rewrite FloatAxioms.leb_spec, Prim2SF_zero. unfold SFleb, SFcompare.
  destruct (Prim2SF f) as [[|] | [|] | | [|] m e]; simpl; intuition congruence.
Qed.

Lemma ltb_zero_positive (f : float) :
  (0 <? f)%float = true <-> SFpositive (Prim2SF f).
Proof.
  rewrite FloatAxioms.ltb_spec, Prim2SF_zero. unfold SFltb, SFcompare.
  destruct (Prim2SF f) as [[|] | [|] | | [|] m e]; simpl; intuition congruence.
Qed.

Lemma shr_1_nonneg mrs : 0 <= shr_m mrs -> 0 <= shr_m (shr_1 mrs).
Proof.
  destruct mrs as [m r s]. simpl.
  destruct m as [| [p | p |] | [p | p |]]; simpl; lia.
Qed.

Lemma iter_pos_shr_1_nonneg (p : positive) (mrs : shr_record) :
  0 <= shr_m mrs -> 0 <= shr_m (SpecFloat.iter_pos shr_1 p mrs).
Proof.
  revert mrs. induction p as [p IH | p IH |]; intros mrs H; simpl.
  - apply IH, IH, shr_1_nonneg, H.
  - apply IH, IH, H.
  - apply shr_1_nonneg, H.
Qed.

Lemma shr_fexp_nonneg m e l :
  0 <= m -> 0 <= shr_m (fst (shr_fexp prec emax m e l)).
Proof.
  intros H. unfold shr_fexp, shr.
  assert (H0 : 0 <= shr_m (shr_record_of_loc m l))
    by (destruct l as [| []]; exact H).
  destruct (fexp prec emax (Zdigits2 m + e) - e); simpl; auto.
  apply iter_pos_shr_1_nonneg, H0.
Qed.

Lemma round_nearest_even_nonneg m l : 0 <= m -> 0 <= round_nearest_even m l.
Proof.
  intros H. unfold round_nearest_even.
  destruct l as [| []]; try lia. destruct (Z.even m); lia.
Qed.

Lemma binary_round_aux_signed s m e l :
  0 <= m -> signedBy s (binary_round_aux prec emax s m e l).
Proof.
  intros H. unfold binary_round_aux.
  pose proof (shr_fexp_nonneg m e l H) as H1.
  destruct (shr_fexp prec emax m e l) as [mrs' e']. simpl in H1.
  pose proof (shr_fexp_nonneg _ e' loc_Exact
                (round_nearest_even_nonneg _ (loc_of_shr_record mrs') H1)) as H2.
  destruct (shr_fexp prec emax _ e' loc_Exact) as [mrs'' e'']. simpl in H2.
  unfold signedBy.
  destruct (shr_m mrs'') as [| p | p]; try reflexivity; try lia.
  destruct (e'' <=? emax - prec); reflexivity.
Qed.

Lemma binary_normalize_nonneg m e :
  0 <= m -> SFnonneg (binary_normalize prec emax m e false).
Proof.
  intros H. unfold binary_normalize.
  destruct m as [| p | p]; simpl; auto; try lia.
  unfold binary_round. destruct (shl_align _ _ _) as [mz ez].
  apply signedBy_false_nonneg, binary_round_aux_signed. lia.
Qed.

Lemma is_finite_not_infinity (f : float) s :
  is_finite f = true -> Prim2SF f <> S754_infinity s.
Proof.
  unfold is_finite. rewrite negb_true_iff, orb_false_iff. intros [Hn Hi].
  unfold Prim2SF. rewrite Hn, Hi.
  destruct (is_zero f); [discriminate |].
  destruct (Z.frexp f) as [r ex].
  destruct (shr_fexp _ _ _ _) as [sh e'].
  destruct (shr_m sh); discriminate.
Qed.

Lemma SFnonneg_not_nan (f : float) : SFnonneg (Prim2SF f) -> is_nan f = false.
Proof.
  unfold Prim2SF. destruct (is_nan f); simpl; tauto.
Qed.

Lemma div_nonneg (a t : float) :
  is_finite a = true -> SFnonneg (Prim2SF a) -> SFpositive (Prim2SF t) ->
  SFnonneg (Prim2SF (a / t)).
Proof.
  intros Hf Ha Ht. rewrite FloatAxioms.div_spec. unfold SF64div, SFdiv.
  pose proof (is_finite_not_infinity a) as Hi.
  destruct (Prim2SF a) as [sa | [|] | | [|] ma ea]; simpl in Ha; try tauto;
    try (destruct (Hi false Hf eq_refl));
    destruct (Prim2SF t) as [st | [|] | | [|] mt et]; simpl in Ht; try tauto;
    simpl; auto.
  unfold SFdiv_core_binary.
  set (m' := match _ - _ - _ with Z0 => Z.pos ma | Zpos _ => Z.shiftl (Z.pos ma) _ | Zneg _ => 0 end).
  assert (Hm : 0 <= m').
  { subst m'. destruct (_ - _ - _); try lia. apply Z.shiftl_nonneg. lia. }
  pose proof (Z.div_pos m' (Z.pos mt) Hm ltac:(lia)) as Hq.
  unfold Z.div in Hq. destruct (Z.div_eucl m' (Z.pos mt)) as [q r].
  apply signedBy_false_nonneg, binary_round_aux_signed. exact Hq.
Qed.

Lemma Prim2SF_100 : Prim2SF 100 = S754_finite false 7036874417766400 (-46).
Proof. reflexivity. Qed.

Lemma mul_100_nonneg (x : float) :
  SFnonneg (Prim2SF x) -> SFnonneg (Prim2SF (x * 100)).
Proof.
  intros Hx. rewrite FloatAxioms.mul_spec, Prim2SF_100. unfold SF64mul, SFmul.
  destruct (Prim2SF x) as [sx | [|] | | [|] mx ex]; simpl in Hx; try tauto;
    simpl; auto.
  apply signedBy_false_nonneg, binary_round_aux_signed. lia.
Qed.

Lemma of_uint63_nonneg n : SFnonneg (Prim2SF (of_uint63 n)).
Proof.
  rewrite FloatAxioms.of_uint63_spec. apply binary_normalize_nonneg.
  apply Uint63.to_Z_bounded.
Qed.

Lemma Math_round_nonneg (y : float) :
  SFnonneg (Prim2SF y) -> SFnonneg (Prim2SF (Math_round y)).
Proof.
  intros Hy. unfold Math_round.
  destruct (Prim2SF y) as [sy | [|] | | [|] my ey] eqn:E; simpl in Hy;
    try tauto; try (rewrite E; exact Hy).
  destruct (0 <=? ey); [rewrite E; exact I |].
  apply of_uint63_nonneg.
Qed.

Lemma SFcompare_Gt_Lt x mz ez :
  SFcompare x (S754_finite false mz ez) = Some Gt ->
  SFcompare (S754_finite false mz ez) x = Some Lt.
Proof.
  destruct x as [[|] | [|] | | [|] m e]; simpl; try discriminate; auto.
  rewrite (Z.compare_antisym e ez).
  destruct (e ?= ez); simpl; try discriminate; auto.
  change (Pos.compare_cont Eq mz m) with (Pos.compare mz m).
  change (Pos.compare_cont Eq m mz) with (Pos.compare m mz).
  rewrite (Pos.compare_antisym m mz).
  destruct (Pos.compare m mz); simpl; try discriminate; auto.
Qed.

Lemma SFcompare_None x mz ez :
  SFcompare x (S754_finite false mz ez) = None -> x = S754_nan.
Proof.
  destruct x as [sx | sx | | sx m e]; unfold SFcompare;
    intros H; try discriminate H; reflexivity.
Qed.

Lemma Math_min_100_bounds (z : float) :
  SFnonneg (Prim2SF z) ->
  (0 <=? Math_min 100 z)%float = true /\ (Math_min 100 z <=? 100)%float = true.
Proof.
  intros Hz. unfold Math_min.
  rewrite (SFnonneg_not_nan z Hz).
  change (is_nan 100) with false. change (get_sign 100) with false. simpl.
  destruct (z <? 100)%float eqn:Hlt.
  - split; [by apply leb_zero_nonneg |].
    rewrite FloatAxioms.ltb_spec in Hlt. rewrite FloatAxioms.leb_spec.
    unfold SFltb in Hlt. unfold SFleb.
    destruct (SFcompare _ _) as [[| |] |]; congruence.
  - destruct (100 <? z)%float eqn:Hgt; [split; reflexivity |].
    split; [by apply leb_zero_nonneg |].
    rewrite FloatAxioms.ltb_spec in Hlt, Hgt. rewrite FloatAxioms.leb_spec.
    unfold SFltb in Hlt, Hgt. unfold SFleb. rewrite Prim2SF_100 in *.
    destruct (SFcompare (Prim2SF z) _) as [[| |] |] eqn:C; try congruence.
    + apply SFcompare_Gt_Lt in C. rewrite C in Hgt. discriminate.
    + apply SFcompare_None in C. rewrite C in Hz. destruct Hz.
Qed.

End FloatFacts.

Module MetricsProofs.
Import JS Metrics StringFacts FloatFacts.
Local Open Scope list_scope.

(** ** The built-ins and the line scanner on examples *)

Example parseFloat_examples :
  map parseFloat ["50"; "-1.5e3"; "+.5"; "1."; "12abc"; " 7"; "1e"; "0x10"]
  = [50; -1500; 0.5; 1; 12; 7; 1; 0]%float.
Proof. vm_compute. reflexivity. Qed.

Example parseFloat_not_finite :
  map (fun s => isFinite (parseFloat s))
      ["line"; ""; "."; "NaN"; "Infinity"; "-Infinity"; "1e400"; "abc1"]
  = [false; false; false; false; false; false; false; false].
Proof. vm_compute. reflexivity. Qed.

Example Math_round_examples :
  map Math_round [0.5; 1.5; 2.5; -0.5; -1.5; -2.5; 49.75; -50; 0.25]%float
  = [1; 2; 3; -0; -1; -2; 50; -50; 0]%float.
Proof. vm_compute. reflexivity. Qed.

Example Math_min_examples :
  (Math_min 100 150, Math_min 100 50, Math_min 100 (-50),
   Math_min 100 infinity, Math_min 0 (-0))
  = (100, 50, -50, 100, -0)%float.
Proof. vm_compute. reflexivity. Qed.

Example parseLabels_example :
  parseLabels ("card=" ++ dq ++ "card0" ++ dq ++ ", engine=" ++ dq
               ++ "render/0" ++ dq ++ ",empty=" ++ dq ++ dq
               ++ ",broken=" ++ dq ++ "x")%string
  = {[ "card" := "card0"; "engine" := "render/0"; "empty" := "" ]}.
Proof. vm_compute. reflexivity. Qed.

Example valueTokenOfLine_examples :
  map valueTokenOfLine
      ["not a valid line"; "  foo 12 1700000000 "; "foo{a=b} 7"; "foo";
       "# a comment"; ""]
  = [Some "line"; Some "1700000000"; Some "7"; None; None; None].
Proof. vm_compute. reflexivity. Qed.

(** ** parsePrometheusText, line by line *)

(** A line is a [# HELP] line, a [# TYPE] line, a data line that yields a
    sample, or a line without effect. *)
Lemma parseLine_cases (st : ParserState) (rawLine : string) :
  parseLine st rawLine =
    match helpOfLine rawLine, typeOfLine rawLine, sampleOfLine rawLine with
    | Some (n, h), _, _ =>
        {| families := families st; currentName := n; currentHelp := h;
           currentType := currentType st |}
    | None, Some (_, t), _ =>
        {| families := families st; currentName := currentName st;
           currentHelp := currentHelp st; currentType := t |}
    | None, None, Some (n, sample) => pushSample st n sample
    | None, None, None => st
    end.
Proof.
  unfold parseLine, helpOfLine, typeOfLine, sampleOfLine.
  destruct (isEmpty (trim rawLine)) eqn:He.
  { apply isEmpty_true in He. by rewrite He. }
  destruct (startsWith "# HELP " (trim rawLine)) eqn:Hh.
  { by destruct (indexOf " "%char (sliceFrom 7 (trim rawLine))). }
  destruct (startsWith "# TYPE " (trim rawLine)) eqn:Ht.
  { by destruct (indexOf " "%char (sliceFrom 7 (trim rawLine))). }
  simpl. destruct (startsWith "#" (trim rawLine)); [done |].
  destruct (splitDataLine (trim rawLine)) as [[[n l] vp] |]; [| done].
  by destruct (isFinite (parseFloat (valueToken vp))).
Qed.

Lemma helpOfLine_no_sample (rawLine : string) :
  is_Some (helpOfLine rawLine) -> sampleOfLine rawLine = None.
Proof.
  unfold helpOfLine, sampleOfLine.
  destruct (startsWith "# HELP " (trim rawLine)) eqn:Hh.
  - apply startsWith_hash in Hh as [-> ->]. done.
  - by intros [x Hx].
Qed.

Lemma typeOfLine_no_sample (rawLine : string) :
  is_Some (typeOfLine rawLine) -> sampleOfLine rawLine = None.
Proof.
  unfold typeOfLine, sampleOfLine.
  destruct (startsWith "# TYPE " (trim rawLine)) eqn:Hh.
  - apply startsWith_hash in Hh as [-> ->]. done.
  - by intros [x Hx].
Qed.

Lemma parseLines_snoc (lines : list string) (rawLine : string) :
  parseLines (lines ++ [rawLine]) = parseLine (parseLines lines) rawLine.
Proof. unfold parseLines. by rewrite fold_left_app. Qed.

Lemma last_omap_snoc {A B : Type} (f : A -> option B) (l : list A) (x : A) :
  last (omap f (l ++ [x])) =
    match f x with Some y => Some y | None => last (omap f l) end.
Proof.
  rewrite omap_app. simpl. destruct (f x) as [y |].
  - by rewrite last_snoc.
  - by rewrite app_nil_r.
Qed.

(** The loop variables hold the most recent metadata lines. *)
Lemma parseLines_metadata (lines : list string) :
  currentName (parseLines lines) = helpName lines /\
  currentHelp (parseLines lines) = helpText lines /\
  currentType (parseLines lines) = typeText lines.
Proof.
  induction lines as [| x lines (IHn & IHh & IHt)] using rev_ind; [done |].
  rewrite parseLines_snoc, parseLine_cases.
  unfold helpName, helpText, typeText, lastHelp, lastType.
  rewrite !last_omap_snoc.
  destruct (helpOfLine x) as [[n h] |] eqn:Hh.
  - simpl. split; [done |]. split; [done |].
    assert (Ht : typeOfLine x = None).
    { unfold helpOfLine, typeOfLine in *.
      destruct (startsWith "# HELP " (trim x)) eqn:E; [| done].
      by rewrite (startsWith_HELP_TYPE _ E). }
    by rewrite Ht.
  - destruct (typeOfLine x) as [[n t] |]; [done |].
    by destruct (sampleOfLine x) as [[n s] |].
Qed.

Lemma samplesOf_snoc (metricName : string) (lines : list string) (x : string) :
  samplesOf metricName (lines ++ [x]) =
    samplesOf metricName lines ++
      match sampleFor metricName x with Some s => [s] | None => [] end.
Proof.
  unfold samplesOf. rewrite omap_app. simpl.
  by destruct (sampleFor metricName x).
Qed.

Lemma createdAt_snoc lines metricName fam fam' x :
  help fam' = help fam -> type fam' = type fam ->
  createdAt lines metricName fam -> createdAt (lines ++ [x]) metricName fam'.
Proof.
  intros Hh Ht (pre & raw & post & -> & Hpre & Hraw & Hhelp & Htype).
  exists pre, raw, (post ++ [x]). rewrite Hh, Ht.
  by rewrite <- app_assoc.
Qed.

(** The families after a list of lines: a family exists exactly for the
    names that have samples, holds these samples in line order, and takes
    its metadata from the loop variables at its first sample. *)
Lemma parseLines_family (lines : list string) (metricName : string) :
  match families (parseLines lines) !! metricName with
  | None => samplesOf metricName lines = []
  | Some fam =>
      name fam = metricName /\
      samples fam = samplesOf metricName lines /\
      createdAt lines metricName fam
  end.
Proof.
  induction lines as [| x lines IH] using rev_ind.
  { unfold parseLines. simpl. by rewrite lookup_empty. }
  rewrite parseLines_snoc, parseLine_cases, samplesOf_snoc.
  unfold sampleFor.
  destruct (helpOfLine x) as [[n h] |] eqn:Hh.
  { rewrite (helpOfLine_no_sample x) by (by rewrite Hh). simpl.
    rewrite app_nil_r.
    destruct (families (parseLines lines) !! metricName) as [fam |]; [| done].
    destruct IH as (? & ? & ?). eauto using createdAt_snoc. }
  destruct (typeOfLine x) as [[n t] |] eqn:Ht.
  { rewrite (typeOfLine_no_sample x) by (by rewrite Ht). simpl.
    rewrite app_nil_r.
    destruct (families (parseLines lines) !! metricName) as [fam |]; [| done].
    destruct IH as (? & ? & ?). eauto using createdAt_snoc. }
  destruct (sampleOfLine x) as [[n sample] |] eqn:Hs.
  2: { rewrite app_nil_r.
       destruct (families (parseLines lines) !! metricName) as [fam |]; [| done].
       destruct IH as (? & ? & ?). eauto using createdAt_snoc. }
  unfold pushSample. simpl.
  destruct (String.eqb_spec n metricName) as [-> | Hne].
  - rewrite lookup_insert_eq. simpl.
    destruct (families (parseLines lines) !! metricName) as [fam |] eqn:Hf.
    + destruct IH as (Hn & Hsm & Hc). simpl.
      split; [done |]. split; [by rewrite Hsm |].
      by apply (createdAt_snoc lines metricName fam).
    + simpl. split; [done |]. split; [by rewrite IH |].
      exists lines, x, []. split; [done |]. split; [done |].
      split; [unfold sampleFor; rewrite Hs, String.eqb_refl; by eexists |].
      destruct (parseLines_metadata lines) as (-> & -> & ->). done.
  - rewrite lookup_insert_ne by done. rewrite app_nil_r.
    destruct (families (parseLines lines) !! metricName) as [fam |]; [| done].
    destruct IH as (? & ? & ?). eauto using createdAt_snoc.
Qed.

(** A data line whose value token is not a finite number changes
    nothing. *)
Lemma parseLine_not_finite (st : ParserState) (rawLine tok : string) :
  valueTokenOfLine rawLine = Some tok ->
  isFinite (parseFloat tok) = false ->
  parseLine st rawLine = st.
Proof.
  unfold valueTokenOfLine. intros Htok Hfin.
  rewrite parseLine_cases. unfold helpOfLine, typeOfLine, sampleOfLine.
  destruct (isEmpty (trim rawLine)) eqn:He; [done |].
  destruct (startsWith "#" (trim rawLine)) eqn:Hc; [done |]. simpl in *.
  destruct (startsWith "# HELP " (trim rawLine)) eqn:Hh.
  { apply startsWith_hash in Hh as [Hh _]. congruence. }
  destruct (startsWith "# TYPE " (trim rawLine)) eqn:Ht.
  { apply startsWith_hash in Ht as [Ht _]. congruence. }
  destruct (splitDataLine (trim rawLine)) as [[[n l] vp] |]; [| done].
  injection Htok as <-. by rewrite Hfin.
Qed.

Lemma parseLines_skip (pre post : list string) (rawLine : string) :
  (forall st, parseLine st rawLine = st) ->
  parseLines (pre ++ rawLine :: post) = parseLines (pre ++ post).
Proof.
  intros Hskip. unfold parseLines. rewrite !fold_left_app. simpl.
  by rewrite Hskip.
Qed.

(** Every recorded sample has a finite value. *)
Lemma samplesOf_finite (metricName : string) (lines : list string)
    (sample : MetricSample) :
  In sample (samplesOf metricName lines) -> isFinite (value sample) = true.
Proof.
  unfold samplesOf. intros Hin.
  apply list_elem_of_In, list_elem_of_omap in Hin as (raw & _ & Hs).
  unfold sampleFor, sampleOfLine in Hs.
  destruct (isEmpty (trim raw) || startsWith "#" (trim raw)); [done |].
  destruct (splitDataLine (trim raw)) as [[[n l] vp] |]; [| done].
  destruct (isFinite (parseFloat (valueToken vp))) eqn:Hfin; [| done].
  destruct (String.eqb n metricName); [| done].
  injection Hs as <-. exact Hfin.
Qed.

(** C4. [parsePrometheusText] is a total function of its input, built
    from string operations that cannot raise.  The empty text and the text
    [not a valid line] give the empty map; a line whose value token does
    not parse to a finite number leaves the parser state unchanged, so the
    text without that line parses to the same map; and every sample of
    the result has a finite value. *)
Theorem parsePrometheusText_skips_malformed :
  parsePrometheusText "" = ∅ /\
  parsePrometheusText "not a valid line" = ∅ /\
  (forall st rawLine tok,
     valueTokenOfLine rawLine = Some tok ->
     isFinite (parseFloat tok) = false ->
     parseLine st rawLine = st) /\
  (forall pre line post tok,
     indexOf "010"%char line = None ->
     valueTokenOfLine line = Some tok ->
     isFinite (parseFloat tok) = false ->
     parsePrometheusText
       (pre ++ newline ++ line ++ newline ++ post)%string =
     parsePrometheusText (pre ++ newline ++ post)%string) /\
  (forall text metricName fam sample,
     parsePrometheusText text !! metricName = Some fam ->
     In sample (samples fam) ->
     isFinite (value sample) = true).
Proof.
  split; [reflexivity |]. split; [vm_compute; reflexivity |].
  split; [exact parseLine_not_finite |]. split.
  - intros pre line post tok Hnl Htok Hfin. unfold parsePrometheusText.
    change (pre +:+ newline +:+ line +:+ newline +:+ post)
      with (pre +:+ String "010"%char (line +:+ String "010"%char post)).
    change (pre +:+ newline +:+ post)
      with (pre +:+ String "010"%char post).
    rewrite !split_app, (split_single _ _ Hnl). simpl.
    f_equal. apply parseLines_skip.
    intros st. by apply (parseLine_not_finite st line tok).
  - intros text metricName fam sample Hfam Hin.
    unfold parsePrometheusText in Hfam.
    pose proof (parseLines_family (split "010"%char text) metricName) as Hs.
    rewrite Hfam in Hs. destruct Hs as (_ & Hsm & _).
    rewrite Hsm in Hin. by apply samplesOf_finite in Hin.
Qed.

(** C3, as stated, fails for the type: the family [foo] carries the type
    of a [# TYPE] line that names [bar]. *)
Lemma type_from_line_naming_other_metric :
  split "010"%char mixedMetadataText = mixedMetadataLines ++ ["foo 1"] /\
  lastType mixedMetadataLines = Some ("bar", "counter") /\
  parsePrometheusText mixedMetadataText !! "foo" = Some fooFamily /\
  type fooFamily = "counter".
Proof. repeat split; vm_compute; reflexivity. Qed.

(** C3, amended. A family of the result was created at the first line
    that yields a sample for its name.  With [pre] the lines before that
    line: the help and the type are those of the loop variables when the
    family's name is the name of the most recent [# HELP] line of [pre]
    (the empty name when [pre] has none), and are empty otherwise.  So the
    help is non-empty only if the most recent [# HELP] line named the
    family; the type is non-empty only if the family's name is that of the
    most recent [# HELP] line and the most recent [# TYPE] line, whatever
    metric it names, carries this type. *)
Theorem family_metadata_origin (text metricName : string) (fam : MetricFamily) :
  parsePrometheusText text !! metricName = Some fam ->
  exists pre rawLine post,
    split "010"%char text = pre ++ rawLine :: post /\
    samplesOf metricName pre = [] /\
    is_Some (sampleFor metricName rawLine) /\
    help fam = (if String.eqb metricName (helpName pre)
                then helpText pre else "") /\
    type fam = (if String.eqb metricName (helpName pre)
                then typeText pre else "") /\
    (help fam <> "" -> exists h, lastHelp pre = Some (metricName, h)) /\
    (type fam <> "" ->
       metricName = helpName pre /\
       exists n, lastType pre = Some (n, type fam)) /\
    (metricName <> helpName pre -> help fam = "" /\ type fam = "").
Proof.
  intros Hfam. unfold parsePrometheusText in Hfam.
  pose proof (parseLines_family (split "010"%char text) metricName) as Hs.
  rewrite Hfam in Hs.
  destruct Hs as (_ & _ & pre & raw & post & Hsplit & Hpre & Hraw & Hh & Ht).
  exists pre, raw, post. rewrite Hh, Ht.
  repeat (split; [done |]).
  unfold helpName, helpText, typeText.
  destruct (String.eqb_spec metricName
              match lastHelp pre with Some (n, _) => n | None => "" end)
    as [Heq | Hne].
  - split; [| split].
    + destruct (lastHelp pre) as [[n h] |]; [| done].
      intros _. exists h. by rewrite Heq.
    + destruct (lastType pre) as [[n t] |]; [| done].
      intros _. split; [done |]. by exists n.
    + done.
  - split; [done |]. split; [done |]. done.
Qed.

Lemma family_metadata_origin_witness :
  parsePrometheusText mixedMetadataText !! "foo" = Some fooFamily /\
  exists pre rawLine post,
    split "010"%char mixedMetadataText = pre ++ rawLine :: post /\
    samplesOf "foo" pre = [] /\
    is_Some (sampleFor "foo" rawLine) /\
    help fooFamily = (if String.eqb "foo" (helpName pre)
                      then helpText pre else "") /\
    type fooFamily = (if String.eqb "foo" (helpName pre)
                      then typeText pre else "") /\
    (help fooFamily <> "" -> exists h, lastHelp pre = Some ("foo", h)) /\
    (type fooFamily <> "" ->
       "foo" = helpName pre /\
       exists n, lastType pre = Some (n, type fooFamily)) /\
    ("foo" <> helpName pre -> help fooFamily = "" /\ type fooFamily = "").
Proof.
  assert (H : parsePrometheusText mixedMetadataText !! "foo" = Some fooFamily)
    by (vm_compute; reflexivity).
  split; [exact H |].
  exact (family_metadata_origin mixedMetadataText "foo" fooFamily H).
Defined.

(** ** extractGpuNodeMetrics *)

(** The loop over the active samples is a map. *)
Lemma fold_pushUtilization (totalSamples activeSamples : list MetricSample)
    (acc : list UtilizationEntry) :
  fold_left (pushUtilization totalSamples) activeSamples acc =
    acc ++ map (utilizationEntry totalSamples) activeSamples.
Proof.
  revert acc. induction activeSamples as [| a l IH]; intros acc; simpl.
  - by rewrite app_nil_r.
  - rewrite IH. unfold pushUtilization, utilizationEntry.
    by rewrite <- app_assoc.
Qed.

Lemma engineUtilization_map (families : ParsedMetrics) (nodeName podName : string) :
  engineUtilization (extractGpuNodeMetrics families nodeName podName) =
    map (utilizationEntry (samplesFor families TOTAL_TICKS))
        (samplesFor families ACTIVE_TICKS).
Proof. unfold extractGpuNodeMetrics. simpl. apply fold_pushUtilization. Qed.

(** C2 (the code departs from the claim). A total sample without [card]
    and [gpu] labels matches no active sample.  An active sample without
    these labels resolves to card [gpu0]; a total sample without them and
    with the same [engine] label is not matched, because the search compares
    the unresolved card of the total sample with [gpu0]; the entry is 0%
    instead of 50%.  With explicit [card] labels the same values give
    50%. *)
Theorem total_without_card_not_matched :
  let active := {| labels := engineOnlyLabels; value := 50 |} in
  let total := {| labels := engineOnlyLabels; value := 100 |} in
  (forall card engine s,
     rawCard s = None -> matchesTotal card engine s = false) /\
  cardOf active = "gpu0" /\
  rawCard total = None /\
  labels total !! "engine" = Some (engineOf active) /\
  matchesTotal (cardOf active) (engineOf active) total = false /\
  engineUtilization (extractGpuNodeMetrics (ticks active total) "node" "pod")
    = [{| card := "gpu0"; engine := "render/0"; pct := 0 |}] /\
  engineUtilization
    (extractGpuNodeMetrics
       (ticks {| labels := card0Labels; value := 50 |}
              {| labels := card0Labels; value := 100 |}) "node" "pod")
    = [{| card := "card0"; engine := "render/0"; pct := 50 |}].
Proof.
  split.
  - intros card engine s Hs. unfold matchesTotal. by rewrite Hs.
  - repeat split; vm_compute; reflexivity.
Qed.

(** C1, as stated, fails.  A negative active value over a positive total
    gives a negative percentage, which is not clamped to 0; over a negative
    total the entry is 0, where the rounded ratio is 50; and for 29 active
    ticks out of 200 the quotient is multiplied by 100 after the division,
    which gives 14 in binary64 arithmetic, where [round(100 * 29 / 200)]
    is 15. *)
Lemma utilization_differs_from_stated_formula :
  engineUtilization
    (extractGpuNodeMetrics
       (ticks {| labels := card0Labels; value := -50 |}
              {| labels := card0Labels; value := 100 |}) "node" "pod")
    = [{| card := "card0"; engine := "render/0"; pct := -50 |}] /\
  specPct (-50) 100 = 0%float /\
  engineUtilization
    (extractGpuNodeMetrics
       (ticks {| labels := card0Labels; value := -50 |}
              {| labels := card0Labels; value := -100 |}) "node" "pod")
    = [{| card := "card0"; engine := "render/0"; pct := 0 |}] /\
  specPct (-50) (-100) = 50%float /\
  engineUtilization
    (extractGpuNodeMetrics
       (ticks {| labels := card0Labels; value := 29 |}
              {| labels := card0Labels; value := 200 |}) "node" "pod")
    = [{| card := "card0"; engine := "render/0"; pct := 14 |}] /\
  specPct 29 200 = 15%float.
Proof. repeat split; vm_compute; reflexivity. Qed.

Lemma utilizationEntry_entryFor (totalSamples : list MetricSample)
    (active : MetricSample) :
  entryFor totalSamples active (utilizationEntry totalSamples active).
Proof.
  unfold entryFor, utilizationEntry. simpl.
  split; [done |]. split; [done |].
  destruct (List.find _ totalSamples) as [t |]; [| reflexivity].
  unfold utilizationPct. split.
  - by intros ->.
  - intros Ht Hfin Hact. rewrite Ht. split; [done |].
    apply Math_min_100_bounds, Math_round_nonneg, mul_100_nonneg.
    apply div_nonneg; [done | by apply leb_zero_nonneg |].
    by apply ltb_zero_positive.
Qed.

(** C1, amended. [engineUtilization] has exactly one entry per active
    sample, in the order of the active samples, with the card and engine of
    that sample.  Its percentage is 0 when the join finds no total sample
    or finds one whose value is not above 0; when the total is above 0 and
    the active value is finite and not negative, it is
    [min(100, round((active / total) * 100))] in binary64 arithmetic, which
    lies in [0, 100].  The two lines of the specification's example give
    one entry of 50%. *)
Theorem engineUtilization_entries :
  (forall (families : ParsedMetrics) (nodeName podName : string),
     Forall2 (entryFor (samplesFor families TOTAL_TICKS))
       (samplesFor families ACTIVE_TICKS)
       (engineUtilization (extractGpuNodeMetrics families nodeName podName))) /\
  engineUtilization
    (extractGpuNodeMetrics (parsePrometheusText exampleText) "node" "pod")
    = [{| card := "card0"; engine := "render/0"; pct := 50 |}].
Proof.
  split; [| vm_compute; reflexivity].
  intros families nodeName podName. rewrite engineUtilization_map.
  induction (samplesFor families ACTIVE_TICKS) as [| a l IH]; simpl.
  - constructor.
  - constructor; [apply utilizationEntry_entryFor | exact IH].
Qed.

End MetricsProofs.

(* ===================================================================== *)
(** * Properties of the other guards of src/api/k8s.ts *)
(* ===================================================================== *)

Module GuardProofs.
Import JS K8s K8sHelpers DataProvider StringFacts K8sProofs.
Local Open Scope list_scope.

(** ** Callbacks that cannot raise *)

Lemma filterR_total (pred : JSValue -> result bool) (f : JSValue -> bool)
    (items : list JSValue) :
  (forall x, pred x = Ok (f x)) -> filterR pred items = Ok (List.filter f items).
Proof.
  intros Hp. induction items as [| x rest IH]; simpl; [done |].
  rewrite Hp, IH. simpl. by destruct (f x).
Qed.

Lemma filterR_raises (pred : JSValue -> result bool) (items : list JSValue)
    (x : JSValue) :
  In x items -> pred x = TypeError -> filterR pred items = TypeError.
Proof.
  intros Hin Hx. induction items as [| y rest IH]; simpl; [done |].
  destruct Hin as [-> | Hin].
  - by rewrite Hx.
  - rewrite (IH Hin). by destruct (pred y).
Qed.

Lemma isGpuDevicePlugin_total (x : JSValue) :
  isGpuDevicePlugin x = Ok (hasKind "GpuDevicePlugin" x).
Proof.
  unfold isGpuDevicePlugin, hasKind.
  destruct x as [| | b | n | s | items | fs]; simpl; try done.
  - by destruct b.
  - by destruct (negb (is_nan n || is_zero n)).
  - by destruct (negb (isEmpty s)).
  - by destruct (fs !! "kind").
Qed.

Lemma isKubeList_total (x : JSValue) :
  isKubeList x = Ok (bool_decide (is_Some (listItems x))).
Proof.
  unfold isKubeList, listItems.
  destruct x as [| | b | n | s | items | fs]; simpl; try done.
  - by destruct b.
  - by destruct (negb (is_nan n || is_zero n)).
  - by destruct (negb (isEmpty s)).
  - destruct (fs !! "items") as [[| | b | n | s | items | gs] |]; simpl; try done.
Qed.

Lemma listItems_getProp (x : JSValue) (items : list JSValue) :
  listItems x = Some items -> getProp x "items" = Ok (JArray items).
Proof.
  unfold listItems. destruct x as [| | b | n | s | its | fs]; simpl; try done.
  destruct (fs !! "items") as [[| | b | n | s | its | gs] |]; simpl; try done.
  by intros [= ->].
Qed.

(** ** The device plugins the provider keeps *)

(** X1. A response of the [gpudeviceplugins] request never reaches the
    [catch] branch, whatever JSON value it is: when it is an object whose
    [items] is an array, the CRD is reported available and the device
    plugins are exactly the items that are objects whose [kind] is the
    string [GpuDevicePlugin], in their order; every other response leaves
    the previous state as it was.  Only a rejected request resets the
    state. *)
Theorem fetchDevicePlugins_response (prev : PluginState) :
  (forall pluginList,
     fetchDevicePlugins prev (Ok pluginList) =
       match listItems pluginList with
       | Some items =>
           {| crdAvailable := true;
              devicePlugins := List.filter (hasKind "GpuDevicePlugin") items |}
       | None => prev
       end) /\
  (forall pluginList p,
     In p (devicePlugins (fetchDevicePlugins prev (Ok pluginList))) ->
     In p (devicePlugins prev) \/
     exists fields, p = JObject fields /\
                    fields !! "kind" = Some (JString "GpuDevicePlugin")) /\
  fetchDevicePlugins prev TypeError =
    {| crdAvailable := false; devicePlugins := [] |}.
Proof.
  assert (H1 : forall pluginList,
     fetchDevicePlugins prev (Ok pluginList) =
       match listItems pluginList with
       | Some items =>
           {| crdAvailable := true;
              devicePlugins := List.filter (hasKind "GpuDevicePlugin") items |}
       | None => prev
       end).
  { intros pluginList. unfold fetchDevicePlugins. simpl.
    rewrite isKubeList_total. simpl.
    destruct (listItems pluginList) as [items |] eqn:E.
    - rewrite bool_decide_eq_true_2 by eauto.
      rewrite (listItems_getProp _ _ E). simpl.
      by rewrite (filterR_total _ _ _ isGpuDevicePlugin_total).
    - rewrite bool_decide_eq_false_2; [done |]. by intros [x Hx]. }
  split; [exact H1 |]. split; [| reflexivity].
  intros pluginList p. rewrite H1.
  destruct (listItems pluginList) as [items |]; [| by left].
  simpl. intros [_ Hk]%filter_In. right. unfold hasKind in Hk.
  destruct p as [| | b | n | s | its | fs]; simpl in Hk; try discriminate Hk.
  exists fs. split; [done |].
  destruct (fs !! "kind") as [[| | | | s | |] |]; try discriminate Hk.
  simpl in Hk. apply String.eqb_eq in Hk. by subst.
Qed.

(** ** isIntelGpuPluginPod *)

Lemma pluginLabel_branch (labels : JSValue) :
  (if negb (truthy labels) then Ok false
   else
     let* app := getProp labels "app" in
     if isString app PLUGIN_NAME then Ok true else
     let* appName := getProp labels "app.kubernetes.io/name" in
     if isString appName PLUGIN_NAME then Ok true else
     let* component := getProp labels "component" in
     Ok (isString component PLUGIN_NAME)) = Ok (pluginLabelCheck labels).
Proof.
  destruct labels as [| | b | x | s | items | ls]; simpl; try done.
  - by destruct b.
  - by destruct (negb _).
  - by destruct (negb _).
  - rewrite orb_false_r.
    destruct (ls !! "app") as [v1 |];
      destruct (ls !! "app.kubernetes.io/name") as [v2 |];
      destruct (ls !! "component") as [v3 |];
      simpl; repeat (match goal with
                     | |- context [isString ?v PLUGIN_NAME] =>
                         destruct (isString v PLUGIN_NAME); simpl
                     end); done.
Qed.

Lemma getProp_object (x : JSValue) (k : string) :
  truthy x && typeofObject x = true -> getProp x k = Ok (propOr x k).
Proof. destruct x; simpl; try discriminate; done. Qed.

Lemma isIntelGpuPluginPod_total (x : JSValue) :
  isIntelGpuPluginPod x =
    Ok (truthy x && typeofObject x &&
        pluginLabelCheck (propOr (propOr x "metadata") "labels")).
Proof.
  unfold isIntelGpuPluginPod.
  destruct (truthy x && typeofObject x) eqn:Hg.
  - apply andb_prop in Hg as Hg'. destruct Hg' as [-> ->]. simpl.
    rewrite getProp_object by done. simpl. rewrite getPropOpt_total. simpl.
    apply pluginLabel_branch.
  - apply andb_false_iff in Hg as [-> | ->]; simpl; [done |].
    by rewrite orb_true_r.
Qed.

Lemma pluginLabelCheck_spec (x : JSValue) :
  pluginLabelCheck (propOr (propOr x "metadata") "labels") = true
  <-> hasPluginLabel x.
Proof.
  unfold hasPluginLabel, nodeLabels, propOr.
  destruct (field x "metadata") as [meta |]; cbv beta iota.
  2: { split; [discriminate | intros (ls & k & Hl & _); discriminate Hl]. }
  destruct (field meta "labels") as [v |]; cbv beta iota.
  2: { split; [discriminate | intros (ls & k & Hl & _); discriminate Hl]. }
  destruct v as [| | b | n | s | items | ls];
    try (split; [discriminate | intros (ls' & k & Hl & _); discriminate Hl]).
  unfold pluginLabelCheck. rewrite existsb_exists. split.
  - intros (k & Hk & Hv). exists ls, k. split; [done |]. split; [done |].
    destruct (ls !! k) as [[| | | | s | |] |]; try discriminate Hv.
    simpl in Hv. apply String.eqb_eq in Hv. by subst.
  - intros (ls' & k & [= <-] & Hk & Hv). exists k. split; [done |].
    by rewrite Hv.
Qed.

(** X2. [isIntelGpuPluginPod] never raises, and it accepts exactly the
    objects whose [metadata.labels] is an object in which [app],
    [app.kubernetes.io/name] or [component] is the string
    [intel-gpu-plugin]; an accepted pod therefore has an object under
    [metadata], from which the de-duplication can read [uid]. *)
Theorem isIntelGpuPluginPod_iff (x : JSValue) :
  exists b,
    isIntelGpuPluginPod x = Ok b /\
    (b = true <-> (exists fields, x = JObject fields) /\ hasPluginLabel x) /\
    (b = true -> exists meta, getProp x "metadata" = Ok (JObject meta)).
Proof.
  eexists. split; [apply isIntelGpuPluginPod_total |].
  assert (Hiff : truthy x && typeofObject x &&
                 pluginLabelCheck (propOr (propOr x "metadata") "labels") = true
                 <-> (exists fields, x = JObject fields) /\ hasPluginLabel x).
  { rewrite andb_true_iff, pluginLabelCheck_spec. split.
    - intros [Hg Hl]. split; [| done].
      destruct Hl as (ls & k & Hl & _). unfold nodeLabels in Hl.
      destruct x; try discriminate Hl. eauto.
    - intros [[fields ->] Hl]. by split. }
  split; [exact Hiff |].
  intros [[fields ->] (ls & k & Hl & _)]%Hiff.
  unfold nodeLabels in Hl. simpl in *.
  destruct (fields !! "metadata") as [[| | | | | | meta] |];
    try discriminate Hl.
  by exists meta.
Qed.

(** ** The plugin pods found by the selector queries *)

Lemma pluginPodsStep_response (found : list JSValue) (response : Response) :
  pluginPodsStep found response =
    match response with
    | Ok list =>
        match listItems list with
        | Some items =>
            found ++ List.filter
                       (fun p => truthy p && typeofObject p &&
                          pluginLabelCheck (propOr (propOr p "metadata") "labels"))
                       items
        | None => found
        end
    | TypeError => found
    end.
Proof.
  unfold pluginPodsStep. destruct response as [list |]; simpl; [| done].
  rewrite isKubeList_total. simpl.
  destruct (listItems list) as [items |] eqn:E.
  - rewrite bool_decide_eq_true_2 by eauto.
    rewrite (listItems_getProp _ _ E). simpl.
    by rewrite (filterR_total _ _ _ isIntelGpuPluginPod_total).
  - rewrite bool_decide_eq_false_2; [done |]. by intros [x Hx].
Qed.

(** X3. Whatever the three selector queries answer, every pod pushed to
    [foundPluginPods] is an item of a response that is a list, is an
    object, and carries one of the plugin labels; a rejected request and a
    response that is not a list add nothing and lose nothing. *)
Theorem foundPluginPods_origin (responses : list Response) (p : JSValue) :
  In p (foundPluginPods responses) ->
  (exists list items, In (Ok list) responses /\ listItems list = Some items /\
                      In p items) /\
  (exists fields, p = JObject fields) /\
  hasPluginLabel p.
Proof.
  unfold foundPluginPods.
  assert (H : forall found,
    In p (fold_left pluginPodsStep responses found) ->
    In p found \/
    ((exists list items, In (Ok list) responses /\
        listItems list = Some items /\ In p items) /\
     (exists fields, p = JObject fields) /\ hasPluginLabel p)).
  { induction responses as [| r rest IH]; intros found; simpl; [by left |].
    intros [Hin | (Hsrc & Hrest)]%IH.
    - rewrite pluginPodsStep_response in Hin.
      destruct r as [list |]; [| by left].
      destruct (listItems list) as [items |] eqn:E; [| by left].
      apply in_app_or in Hin as [Hin | Hin]; [by left |].
      apply filter_In in Hin as [Hin Hp]. right.
      split; [exists list, items; auto |].
      apply andb_true_iff in Hp as [Hg Hl].
      apply pluginLabelCheck_spec in Hl. split; [| done].
      destruct Hl as (ls & k & Hl & _). unfold nodeLabels in Hl.
      destruct p; try discriminate Hl. eauto.
    - right. split; [| done].
      destruct Hsrc as (list & items & Hin & Hl & Hp).
      exists list, items. auto. }
  intros [[] | Hp]%H. exact Hp.
Qed.

Lemma foundPluginPods_origin_witness :
  In (JObject {[ "metadata" :=
        JObject {[ "labels" := JObject {[ "app" := JString PLUGIN_NAME ]} ]} ]})
     (foundPluginPods
        [TypeError;
         Ok (JObject {[ "items" := JArray
           [JObject {[ "metadata" :=
              JObject {[ "labels" :=
                JObject {[ "app" := JString PLUGIN_NAME ]} ]} ]}] ]})]) /\
  hasPluginLabel
    (JObject {[ "metadata" :=
        JObject {[ "labels" := JObject {[ "app" := JString PLUGIN_NAME ]} ]} ]}).
Proof.
  assert (Hin : In (JObject {[ "metadata" :=
        JObject {[ "labels" := JObject {[ "app" := JString PLUGIN_NAME ]} ]} ]})
     (foundPluginPods
        [TypeError;
         Ok (JObject {[ "items" := JArray
           [JObject {[ "metadata" :=
              JObject {[ "labels" :=
                JObject {[ "app" := JString PLUGIN_NAME ]} ]} ]}] ]})])).
  { vm_compute. left. reflexivity. }
  split; [exact Hin |].
  exact (proj2 (proj2 (foundPluginPods_origin _ _ Hin))).
Defined.

(** ** isGpuRequestingPod *)

Lemma keys_In {V : Type} (m : gmap string V) (k : string) :
  In k (map fst (map_to_list m)) <-> is_Some (m !! k).
Proof.
  rewrite in_map_iff. split.
  - intros ([k' v] & Hk & Hin). simpl in Hk. subst k'.
    apply list_elem_of_In, elem_of_map_to_list in Hin. by exists v.
  - intros [v Hv]. exists (k, v). split; [done |].
    by apply list_elem_of_In, elem_of_map_to_list.
Qed.

Lemma existsb_keys_union {V : Type} (P : string -> bool) (m1 m2 : gmap string V) :
  existsb P (map fst (map_to_list (m1 ∪ m2))) =
    existsb P (map fst (map_to_list m1)) || existsb P (map fst (map_to_list m2)).
Proof.
  apply eq_true_iff_eq.
  rewrite orb_true_iff, !existsb_exists. split.
  - intros (k & Hk & HP). apply keys_In, lookup_union_is_Some in Hk.
    destruct Hk as [Hk | Hk]; [left | right]; exists k;
      by rewrite keys_In.
  - intros [(k & Hk & HP) | (k & Hk & HP)]; exists k; (split; [| done]);
      apply keys_In, lookup_union_is_Some; rewrite <- !keys_In; auto.
Qed.

Lemma existsb_false_In {A : Type} (P : A -> bool) (l : list A) (x : A) :
  existsb P l = false -> In x l -> P x = false.
Proof.
  intros He Hin. destruct (P x) eqn:HP; [| done].
  assert (existsb P l = true) by (apply existsb_exists; eauto). congruence.
Qed.

(** The index keys of a spread array or string never extend the prefix. *)
Lemma indexed_no_prefix (n : nat) (items : list JSValue) :
  existsb (startsWith INTEL_GPU_RESOURCE_PREFIX)
    (map fst (map_to_list
       (list_to_map (zip (indexKeys n) items) : gmap string JSValue))) = false.
Proof.
  destruct (existsb _ _) eqn:E; [| done].
  apply existsb_exists in E as (k & Hk & HP).
  apply keys_In in Hk as [v Hv].
  apply elem_of_list_to_map_2 in Hv.
  apply elem_of_zip_l in Hv. apply list_elem_of_In in Hv.
  by rewrite (existsb_false_In _ _ _ (indexKeys_no_prefix n) Hv) in HP.
Qed.

Lemma spread_check (v : JSValue) :
  existsb (startsWith INTEL_GPU_RESOURCE_PREFIX)
    (map fst (map_to_list (spreadFields (orElse v (JObject ∅)))))
  = capacityCheck v.
Proof.
  destruct v as [| | b | n | s | items | fs]; simpl;
    rewrite ?map_to_list_empty; try done; apply indexed_no_prefix.
Qed.

Lemma requestsGpu_total (c : JSValue) :
  notNullish c = true -> requestsGpu c = Ok (containerCheck c).
Proof.
  intros Hc. unfold requestsGpu, containerCheck.
  assert (Hget : forall k, getProp c k = Ok (propOr c k))
    by (intros k; destruct c; try discriminate; done).
  rewrite !Hget. simpl. rewrite !getPropOpt_total. simpl.
  unfold spread2. by rewrite existsb_keys_union, !spread_check, orb_comm.
Qed.

Lemma requestsGpu_nullish (c : JSValue) :
  notNullish c = false -> requestsGpu c = TypeError.
Proof. by destruct c. Qed.

Lemma someR_total (l : list JSValue) :
  forallb notNullish l = true ->
  someR requestsGpu l = Ok (existsb containerCheck l).
Proof.
  induction l as [| c l IH]; simpl; [done |].
  intros [Hc Hl]%andb_prop. rewrite requestsGpu_total by done. simpl.
  destruct (containerCheck c); [done |]. by apply IH.
Qed.

(** The scan raises exactly when it reaches [null] or [undefined] before
    a container that names a GPU resource. *)
Lemma someR_raises (l : list JSValue) :
  someR requestsGpu l = TypeError <->
  exists pre c post, l = pre ++ c :: post /\ notNullish c = false /\
    forallb notNullish pre = true /\ existsb containerCheck pre = false.
Proof.
  induction l as [| x l IH]; simpl.
  - split; [done |]. intros (pre & c & post & H & _). by destruct pre.
  - destruct (notNullish x) eqn:Hx.
    + rewrite requestsGpu_total by done. simpl.
      destruct (containerCheck x) eqn:Hc.
      * split; [done |]. intros (pre & c & post & H & Hn & Hf & He).
        destruct pre as [| y pre]; simpl in *; injection H as -> ->.
        -- congruence.
        -- by rewrite Hc in He.
      * rewrite IH. split.
        -- intros (pre & c & post & -> & Hn & Hf & He).
           exists (x :: pre), c, post. simpl. by rewrite Hx, Hc.
        -- intros (pre & c & post & H & Hn & Hf & He).
           destruct pre as [| y pre]; simpl in *; injection H as -> ->.
           ++ congruence.
           ++ apply andb_prop in Hf as [_ Hf].
              apply orb_false_elim in He as [_ He]. eauto 10.
    + rewrite requestsGpu_nullish by done. simpl. split; [| done].
      intros _. by exists [], x, l.
Qed.

Lemma spreadElements_elementsOf (v : JSValue) :
  spreadElements (orElse v (JArray [])) =
    match elementsOf v with Some l => Ok l | None => TypeError end.
Proof. by destruct v. Qed.

(** The containers value and the init containers value of a pod. *)
Lemma isGpuRequestingPod_object (pod : JSValue) :
  truthy pod && typeofObject pod = true ->
  isGpuRequestingPod pod =
    match elementsOf (propOr (propOr pod "spec") "containers"),
          elementsOf (propOr (propOr pod "spec") "initContainers") with
    | Some cs, Some ics => someR requestsGpu (cs ++ ics)
    | _, _ => TypeError
    end.
Proof.
  intros Hg. unfold isGpuRequestingPod.
  apply andb_prop in Hg as Hg'. destruct Hg' as [-> ->]. simpl.
  rewrite getProp_object by done. simpl. rewrite !getPropOpt_total. simpl.
  rewrite !spreadElements_elementsOf.
  destruct (elementsOf (propOr (propOr pod "spec") "containers")); simpl;
    [| done].
  by destruct (elementsOf (propOr (propOr pod "spec") "initContainers")).
Qed.

Lemma isGpuRequestingPod_not_object (pod : JSValue) :
  truthy pod && typeofObject pod = false -> isGpuRequestingPod pod = Ok false.
Proof.
  unfold isGpuRequestingPod.
  intros [-> | ->]%andb_false_iff; simpl; [done |]. by rewrite orb_true_r.
Qed.

Lemma containerCheck_spec (c : JSValue) :
  containerCheck c = true <-> namesGpuResource c.
Proof.
  unfold containerCheck, namesGpuResource. rewrite orb_true_iff.
  assert (H : forall k,
    capacityCheck (propOr (propOr c "resources") k) = true <->
    exists m rest, resourceMap c k = Some m /\
                   is_Some (m !! (INTEL_GPU_RESOURCE_PREFIX ++ rest)%string)).
  { intros k. unfold resourceMap, propOr.
    destruct (field c "resources") as [r |]; cbv beta iota.
    2: { split; [discriminate | intros (m & rest & Hm & _); discriminate Hm]. }
    destruct (field r k) as [v |]; cbv beta iota.
    2: { split; [discriminate | intros (m & rest & Hm & _); discriminate Hm]. }
    destruct v as [| | b | n | s | items | m];
      try (split; [discriminate | intros (m' & rest & Hm & _); discriminate Hm]).
    rewrite capacityCheck_object. split.
    - intros [rest Hr]. by exists m, rest.
    - intros (m' & rest & [= <-] & Hr). by exists rest. }
  rewrite !H. split.
  - intros [(m & rest & Hm & Hr) | (m & rest & Hm & Hr)].
    + exists "requests", m, rest. auto.
    + exists "limits", m, rest. auto.
  - intros (k & m & rest & [-> | ->] & Hm & Hr); [left | right]; eauto.
Qed.

(** X4. For a pod object whose [spec.containers] and [spec.initContainers]
    are arrays (or missing) without [null] entries, [isGpuRequestingPod]
    returns normally, and it answers true exactly when some container or
    init container has, in its requests or in its limits, a key that
    extends [gpu.intel.com/]. *)
Theorem isGpuRequestingPod_containers (pod : JSValue) (cs ics : list JSValue) :
  truthy pod && typeofObject pod = true ->
  elementsOf (propOr (propOr pod "spec") "containers") = Some cs ->
  elementsOf (propOr (propOr pod "spec") "initContainers") = Some ics ->
  forallb notNullish (cs ++ ics) = true ->
  exists b,
    isGpuRequestingPod pod = Ok b /\
    (b = true <-> exists c, In c (cs ++ ics) /\ namesGpuResource c).
Proof.
  intros Hg Hc Hi Hn. exists (existsb containerCheck (cs ++ ics)). split.
  - rewrite isGpuRequestingPod_object, Hc, Hi by done. by apply someR_total.
  - rewrite existsb_exists. by setoid_rewrite containerCheck_spec.
Qed.

Lemma isGpuRequestingPod_containers_witness :
  exists b,
    isGpuRequestingPod
      (JObject {[ "spec" := JObject {[ "containers" := JArray
         [JObject {[ "resources" := JObject {[ "limits" :=
            JObject {[ INTEL_GPU_RESOURCE := JString "1" ]} ]} ]}] ]} ]})
    = Ok b /\
    (b = true <->
     exists c,
       In c ([JObject {[ "resources" := JObject {[ "limits" :=
                JObject {[ INTEL_GPU_RESOURCE := JString "1" ]} ]} ]}] ++ []) /\
       namesGpuResource c).
Proof.
  apply (isGpuRequestingPod_containers
    (JObject {[ "spec" := JObject {[ "containers" := JArray
       [JObject {[ "resources" := JObject {[ "limits" :=
          JObject {[ INTEL_GPU_RESOURCE := JString "1" ]} ]} ]}] ]} ]})
    [JObject {[ "resources" := JObject {[ "limits" :=
          JObject {[ INTEL_GPU_RESOURCE := JString "1" ]} ]} ]}] []);
    reflexivity.
Defined.

(** X5. Unlike [isIntelGpuNode], the guard [isGpuRequestingPod] can raise.
    It raises exactly for an object whose [spec.containers] or
    [spec.initContainers] is a value that cannot be spread (a number, a
    boolean or a plain object), or whose containers hold [null] before the
    first container that names a GPU resource; [filterGpuRequestingPods]
    raises as soon as its input holds one such pod. *)
Theorem isGpuRequestingPod_raises_iff (pod : JSValue) :
  (isGpuRequestingPod pod = TypeError <->
   truthy pod && typeofObject pod = true /\
   match elementsOf (propOr (propOr pod "spec") "containers"),
         elementsOf (propOr (propOr pod "spec") "initContainers") with
   | Some cs, Some ics =>
       exists pre c post,
         cs ++ ics = pre ++ c :: post /\ notNullish c = false /\
         forallb notNullish pre = true /\ existsb containerCheck pre = false
   | _, _ => True
   end) /\
  (forall items,
     In pod items -> isGpuRequestingPod pod = TypeError ->
     filterGpuRequestingPods items = TypeError) /\
  isGpuRequestingPod
    (JObject {[ "spec" := JObject {[ "containers" := JObject ∅ ]} ]})
    = TypeError /\
  isGpuRequestingPod
    (JObject {[ "spec" := JObject {[ "containers" := JArray [JNull] ]} ]})
    = TypeError.
Proof.
  split; [| split; [| split; reflexivity]].
  - destruct (truthy pod && typeofObject pod) eqn:Hg.
    + rewrite isGpuRequestingPod_object by done.
      destruct (elementsOf (propOr (propOr pod "spec") "containers"))
        as [cs |]; [| by split].
      destruct (elementsOf (propOr (propOr pod "spec") "initContainers"))
        as [ics |]; [| by split].
      rewrite someR_raises. split; [by split | by intros [_ H]].
    + rewrite isGpuRequestingPod_not_object by done.
      split; [done | by intros [? _]].
  - intros items Hin Hr. by apply (filterR_raises _ _ pod).
Qed.

(** ** The nodes the provider keeps *)

Lemma filter_sublist {A : Type} (f : A -> bool) (l : list A) :
  sublist (List.filter f l) l.
Proof.
  induction l as [| x l IH]; simpl; [done |].
  destruct (f x); [by apply sublist_skip | by apply sublist_cons].
Qed.

(** [isIntelGpuNode] as a total function. *)
Lemma gpuNodes_filter (items : list JSValue) :
  gpuNodes (Some items) =
    Ok (List.filter
          (fun x => truthy x && typeofObject x &&
             (labelCheck (propOr (propOr x "metadata") "labels")
              || capacityCheck (propOr (propOr x "status") "capacity")))
          (extractJsonData items)).
Proof.
  unfold gpuNodes, filterIntelGpuNodes.
  by rewrite (filterR_total _ _ _ isIntelGpuNode_total).
Qed.

Lemma jsonDataOf_payload (item : JSValue) : jsonDataOf item = payload item.
Proof.
  unfold jsonDataOf, payload, field.
  destruct item as [| | b | x | s | items | fields]; simpl; try done.
  - by destruct b.
  - by destruct (negb _).
  - by destruct (negb _).
Qed.

Lemma gpuMarked_total (x : JSValue) :
  gpuMarked x =
    truthy x && typeofObject x &&
    (labelCheck (propOr (propOr x "metadata") "labels")
     || capacityCheck (propOr (propOr x "status") "capacity")).
Proof.
  destruct x as [| | b | n | s | items | fields]; simpl; try done.
  - by rewrite andb_false_r.
  - by rewrite andb_false_r.
  - by rewrite andb_false_r.
Qed.

Lemma gpuMarked_spec (x : JSValue) :
  gpuMarked x = true <->
  (exists fields, x = JObject fields) /\
  (hasGpuLabel x \/ hasGpuCapacityKey x).
Proof.
  split.
  - intros H. assert (Ho : exists fields, x = JObject fields)
      by (destruct x; try discriminate H; eauto).
    split; [done |]. destruct Ho as [fields ->]. unfold gpuMarked in H.
    by rewrite orb_true_iff, labelCheck_spec, capacityCheck_spec in H.
  - intros [[fields ->] H]. unfold gpuMarked.
    by rewrite orb_true_iff, labelCheck_spec, capacityCheck_spec.
Qed.

(** X6. The list of GPU nodes is computed without raising, whatever the
    node list holds, and is empty until the list has arrived.  Every item
    stands for the value under its [jsonData] field when it is an object
    that has one, and for itself otherwise; the result is the list of
    these values with those removed that are not an object carrying a GPU
    label or a GPU capacity key: order and repetitions are kept.  Instances
    that wrap a labelled node are kept as the node they wrap. *)
Theorem gpuNodes_total (allNodes : option (list JSValue)) :
  gpuNodes allNodes
    = Ok (List.filter gpuMarked (map payload (default [] allNodes))) /\
  (forall x, gpuMarked x = true <->
     (exists fields, x = JObject fields) /\
     (hasGpuLabel x \/ hasGpuCapacityKey x)) /\
  gpuNodes (Some [instanceOf labelledNode; instanceOf regularNode;
                  labelledNode; JNull; instanceOf labelledNode;
                  JString "node"])
    = Ok [labelledNode; labelledNode; labelledNode].
Proof.
  split; [| split; [exact gpuMarked_spec | vm_compute; reflexivity]].
  destruct allNodes as [items |]; [| done].
  rewrite gpuNodes_filter. unfold extractJsonData. cbn [default from_option id].
  rewrite (map_ext _ _ jsonDataOf_payload). f_equal.
  apply filter_ext. intros x. by rewrite gpuMarked_total.
Qed.

End GuardProofs.

(* ===================================================================== *)
(** * Properties of the resource helpers of src/api/k8s.ts *)
(* ===================================================================== *)

Module ResourceProofs.
Import JS K8s K8sHelpers StringFacts K8sProofs.
Local Open Scope list_scope.

(** ** Loops over the entries of an object *)

(** A loop over entries with distinct keys whose body only touches the
    property named by the entry's key. *)
Lemma keyed_fold {V A : Type}
    (step : gmap string A -> string * V -> gmap string A)
    (upd : string -> V -> option A -> option A)
    (l : list (string * V)) (acc : gmap string A) (k : string) :
  (forall acc k0 v k', step acc (k0, v) !! k' =
     if String.eqb k0 k' then upd k0 v (acc !! k0) else acc !! k') ->
  NoDup (map fst l) ->
  fold_left step l acc !! k =
    match (list_to_map l : gmap string V) !! k with
    | Some v => upd k v (acc !! k)
    | None => acc !! k
    end.
Proof.
  intros Hstep. revert acc.
  induction l as [| [k0 v0] l IH]; intros acc Hnd; simpl; [done |].
  apply NoDup_cons in Hnd as [Hk0 Hnd].
  rewrite IH by done. rewrite Hstep.
  destruct (String.eqb_spec k0 k) as [-> | Hne].
  - rewrite lookup_insert_eq.
    rewrite (not_elem_of_list_to_map_1 (M := gmap string)); [done |].
    intros Hin. exact (Hk0 Hin).
  - by rewrite lookup_insert_ne.
Qed.

Lemma keyed_fold_map {V A : Type}
    (step : gmap string A -> string * V -> gmap string A)
    (upd : string -> V -> option A -> option A)
    (m : gmap string V) (acc : gmap string A) (k : string) :
  (forall acc k0 v k', step acc (k0, v) !! k' =
     if String.eqb k0 k' then upd k0 v (acc !! k0) else acc !! k') ->
  fold_left step (map_to_list m) acc !! k =
    match m !! k with
    | Some v => upd k v (acc !! k)
    | None => acc !! k
    end.
Proof.
  intros Hstep. rewrite (keyed_fold step upd _ _ _ Hstep).
  - by rewrite list_to_map_to_list.
  - apply (NoDup_fst_map_to_list m).
Qed.

(** ** getGpuResources *)

Lemma resourceStep_lookup acc k0 (v : option string) k' :
  resourceStep acc (k0, v) !! k' =
    if String.eqb k0 k'
    then (fun k v o => match v with
                       | Some x => if startsWith INTEL_GPU_RESOURCE_PREFIX k
                                   then Some x else o
                       | None => o
                       end) k0 v (acc !! k0)
    else acc !! k'.
Proof.
  unfold resourceStep.
  destruct (String.eqb_spec k0 k') as [<- | Hne].
  - destruct v as [x |]; [| done].
    destruct (startsWith _ k0); [by rewrite lookup_insert_eq | done].
  - destruct v as [x |]; [| done].
    destruct (startsWith _ k0); [by rewrite lookup_insert_ne | done].
Qed.

Lemma getGpuResources_lookup (resources : option NodeResources) (key : string) :
  getGpuResources resources !! key =
    match default ∅ resources !! key with
    | Some (Some v) =>
        if startsWith INTEL_GPU_RESOURCE_PREFIX key then Some v else None
    | _ => None
    end.
Proof.
  destruct resources as [r |]; simpl; [| by rewrite !lookup_empty].
  unfold objectEntries.
  rewrite (keyed_fold_map resourceStep _ r ∅ key resourceStep_lookup).
  rewrite lookup_empty. by destruct (r !! key) as [[v |] |].
Qed.

(** X7. [getGpuResources] keeps exactly the entries whose key extends
    [gpu.intel.com/] and whose value is defined, with their values; for
    missing resources it returns the empty object. *)
Theorem getGpuResources_entries (resources : option NodeResources)
    (key value : string) :
  (getGpuResources resources !! key = Some value <->
   exists r rest, resources = Some r /\
     key = (INTEL_GPU_RESOURCE_PREFIX ++ rest)%string /\
     r !! key = Some (Some value)) /\
  getGpuResources None = ∅.
Proof.
  split; [| done]. rewrite getGpuResources_lookup. split.
  - destruct resources as [r |]; simpl; [| by rewrite lookup_empty].
    destruct (r !! key) as [[v |] |] eqn:E; try done.
    destruct (startsWith _ key) eqn:Hp; [| done].
    intros [= ->]. apply startsWith_app in Hp as [rest ->]. by exists r, rest.
  - intros (r & rest & -> & -> & Hv). simpl. rewrite Hv.
    replace (startsWith _ _) with true; [done |].
    symmetry. apply startsWith_app. by exists rest.
Qed.

(** ** Numbers written as strings and read back *)

Lemma digitsValue_acc (d : Decimal.uint) (acc : positive) :
  digitsValue (Zpos acc) (NilEmpty.string_of_uint d)
  = Zpos (Pos.of_uint_acc d acc).
Proof.
  revert acc. induction d as [| d IH | d IH | d IH | d IH | d IH | d IH
                              | d IH | d IH | d IH | d IH]; intros acc;
    cbn [NilEmpty.string_of_uint digitsValue Pos.of_uint_acc]; [done | ..];
    rewrite <- IH; f_equal;
    match goal with
    | |- context [Z.of_nat (nat_of_ascii ?c)] =>
        let v := eval vm_compute in (Z.of_nat (nat_of_ascii c)) in
        change (Z.of_nat (nat_of_ascii c)) with v
    end; lia.
Qed.

Lemma digitsValue_of_uint (d : Decimal.uint) :
  digitsValue 0 (NilEmpty.string_of_uint d) = Z.of_N (Pos.of_uint d).
Proof.
  induction d as [| d IH | d IH | d IH | d IH | d IH | d IH
                  | d IH | d IH | d IH | d IH];
    cbn [NilEmpty.string_of_uint digitsValue Pos.of_uint]; [done | exact IH | ..];
    cbn [Z.of_N]; rewrite <- digitsValue_acc; f_equal.
Qed.

Lemma span_digits (d : Decimal.uint) :
  span isDigit (NilEmpty.string_of_uint d) = (NilEmpty.string_of_uint d, "").
Proof.
  induction d as [| d IH | d IH | d IH | d IH | d IH | d IH
                  | d IH | d IH | d IH | d IH];
    cbn [NilEmpty.string_of_uint span]; [done | ..];
    change (isDigit _) with true; cbv iota; by rewrite IH.
Qed.

(** The digits of a positive number: not empty, and led by a digit. *)
Lemma to_uint_head (p : positive) :
  exists c r, NilEmpty.string_of_uint (Pos.to_uint p) = String c r /\
              isDigit c = true.
Proof.
  pose proof (DecimalPos.Unsigned.to_uint_nonnil p) as Hn.
  destruct (Pos.to_uint p); [done | ..]; cbn [NilEmpty.string_of_uint];
    eexists _, _; (split; [reflexivity | reflexivity]).
Qed.

Lemma isDigit_plain (c : ascii) :
  isDigit c = true ->
  isWhite c = false /\ c <> "-"%char /\ c <> "+"%char.
Proof.
  destruct c as [[] [] [] [] [] [] [] []]; cbv; intros H;
    try discriminate H; repeat split; discriminate.
Qed.

(** [parseInt(String(n), 10)] is [n]. *)
Lemma parseInt_numberToString (z : Z) :
  parseInt (numberToString (Int z)) = Int z.
Proof.
  destruct z as [| p | p]; [reflexivity | |].
  - cbn [numberToString Z.to_int NilEmpty.string_of_int].
    pose proof (digitsValue_of_uint (Pos.to_uint p)) as Hv.
    pose proof (span_digits (Pos.to_uint p)) as Hs.
    rewrite DecimalPos.Unsigned.of_to in Hv. cbn [Z.of_N] in Hv.
    destruct (to_uint_head p) as (c & r & E & Hc). rewrite E in *.
    destruct (isDigit_plain c Hc) as (Hw & Hm & Hp).
    unfold parseInt. cbn [trimStart]. rewrite Hw.
    assert (Ht : takeSign (String c r) = (false, String c r)).
    { unfold takeSign.
      destruct c as [[] [] [] [] [] [] [] []]; try reflexivity; congruence. }
    rewrite Ht, Hs. cbn [isEmpty]. by rewrite Hv.
  - cbn [numberToString Z.to_int NilEmpty.string_of_int].
    pose proof (digitsValue_of_uint (Pos.to_uint p)) as Hv.
    pose proof (span_digits (Pos.to_uint p)) as Hs.
    rewrite DecimalPos.Unsigned.of_to in Hv. cbn [Z.of_N] in Hv.
    destruct (to_uint_head p) as (c & r & E & Hc). rewrite E in *.
    unfold parseInt. cbn [trimStart]. change (isWhite "-") with false.
    cbv iota. cbn [takeSign]. rewrite Hs. cbn [isEmpty]. by rewrite Hv.
Qed.

(** The first character of a number written as a string. *)
Lemma numberToString_head (z : Z) :
  exists c r, numberToString (Int z) = String c r /\
              (isDigit c = true \/ c = "-"%char).
Proof.
  destruct z as [| p | p].
  - exists "0"%char, "". by split; [| left].
  - destruct (to_uint_head p) as (c & r & E & Hc). exists c, r.
    by split; [| left].
  - eexists _, _. split; [reflexivity | by right].
Qed.

(** ** Sums over string-valued entries *)

Lemma quantityOf_empty (key : string) : quantityOf ∅ key = 0.
Proof. unfold quantityOf. by rewrite lookup_empty. Qed.

Lemma quantityOf_insert (m : gmap string string) (i key v : string) :
  quantityOf (<[i := v]> m) key =
    if String.eqb i key
    then match parseInt v with Int z => z | NaN => 0 end
    else quantityOf m key.
Proof.
  unfold quantityOf. destruct (String.eqb_spec i key) as [-> | Hne].
  - by rewrite lookup_insert_eq.
  - by rewrite lookup_insert_ne.
Qed.

(** What an entry with a string value adds to a device count. *)
Lemma sum_string_contributions (m : gmap string string) :
  sumZ (map (fun e => contribution (e.1, Some e.2)) (map_to_list m)) =
    quantityOf m INTEL_GPU_RESOURCE + quantityOf m INTEL_GPU_XE_RESOURCE.
Proof.
  induction m as [| i x m Hi _ IH] using map_first_key_ind.
  - rewrite map_to_list_empty, !quantityOf_empty. reflexivity.
  - rewrite (sumZ_Permutation _ _
               (Permutation_map _ (map_to_list_insert m i x Hi))).
    simpl in IH |- *. rewrite IH, !quantityOf_insert.
    unfold isDeviceCountKey.
    assert (Hq : quantityOf m i = 0) by (unfold quantityOf; by rewrite Hi).
    destruct (String.eqb_spec i INTEL_GPU_RESOURCE) as [-> | H1].
    + rewrite Hq. simpl. lia.
    + destruct (String.eqb_spec i INTEL_GPU_XE_RESOURCE) as [-> | H2].
      * rewrite Hq. simpl. lia.
      * simpl. lia.
Qed.

(** ** getPodGpuRequests *)

Lemma requestStep_lookup totals k0 (v : string) k' :
  requestStep totals (k0, v) !! k' =
    if String.eqb k0 k'
    then (fun k v o =>
            if startsWith INTEL_GPU_RESOURCE_PREFIX k && negb (isEmpty v)
            then Some (add (default (Int 0) o) (orZero (parseInt v)))
            else o) k0 v (totals !! k0)
    else totals !! k'.
Proof.
  unfold requestStep.
  destruct (String.eqb_spec k0 k') as [<- | Hne];
    destruct (startsWith _ k0 && negb (isEmpty v)); try done.
  - by rewrite lookup_insert_eq.
  - by rewrite lookup_insert_ne.
Qed.

Lemma requestsOf_lookup (c : ContainerSpec) (key : string) :
  requestsOf c !! key = requested c key.
Proof.
  unfold requestsOf, requested.
  destruct (resources c) as [r |]; [| apply lookup_empty].
  destruct (requests r) as [m |]; [done | apply lookup_empty].
Qed.


Lemma allContainers_every (pod : GpuPod) :
  allContainers pod = everyContainer pod.
Proof.
  unfold allContainers, everyContainer, containersOf, initContainersOf.
  destruct (pod_spec pod) as [spec |]; [| done].
  by destruct (containers spec), (initContainers spec).
Qed.

Lemma requestsKey_false (key : string) (c : ContainerSpec) :
  requestsKey key c = false -> requestCount c key = 0.
Proof.
  unfold requestsKey, requestCount.
  destruct (requested c key) as [v |]; [| done].
  by destruct v.
Qed.

Lemma containerStep_lookup (totals : gmap string JSInt) (c : ContainerSpec)
    (key : string) (o : option Z) :
  totals !! key = Int <$> o ->
  containerStep totals c !! key =
    Int <$> (if startsWith INTEL_GPU_RESOURCE_PREFIX key && requestsKey key c
             then Some (default 0 o + requestCount c key)
             else o).
Proof.
  intros Ht. unfold containerStep, objectEntries.
  rewrite (keyed_fold_map requestStep _ _ totals key requestStep_lookup).
  rewrite requestsOf_lookup. unfold requestsKey, requestCount.
  destruct (requested c key) as [v |]; [| by rewrite andb_false_r].
  destruct (startsWith _ key && negb (isEmpty v)); [| done].
  rewrite Ht. destruct o as [z |]; simpl; by destruct (parseInt v).
Qed.

Lemma sum_requestCount_none (key : string) (cs : list ContainerSpec) :
  existsb (requestsKey key) cs = false ->
  sumZ (map (fun c => requestCount c key) cs) = 0.
Proof.
  induction cs as [| c cs IH]; simpl; [done |].
  intros [Hc Hcs]%orb_false_elim. rewrite (requestsKey_false _ _ Hc), IH by done.
  reflexivity.
Qed.

Lemma containers_fold (cs : list ContainerSpec) (totals : gmap string JSInt)
    (key : string) (o : option Z) :
  totals !! key = Int <$> o ->
  fold_left containerStep cs totals !! key =
    Int <$> (if startsWith INTEL_GPU_RESOURCE_PREFIX key
                && existsb (requestsKey key) cs
             then Some (default 0 o + sumZ (map (fun c => requestCount c key) cs))
             else o).
Proof.
  revert totals o. induction cs as [| c cs IH]; intros totals o Ht; simpl.
  - by rewrite andb_false_r.
  - rewrite (IH _ _ (containerStep_lookup _ c _ _ Ht)).
    destruct (startsWith _ key); simpl; [| done].
    destruct (requestsKey key c) eqn:Hc; simpl.
    + destruct (existsb (requestsKey key) cs) eqn:He.
      * by rewrite <- Z.add_assoc.
      * rewrite (sum_requestCount_none _ _ He). by rewrite Z.add_0_r.
    + rewrite (requestsKey_false _ _ Hc).
      by destruct (existsb (requestsKey key) cs).
Qed.

Lemma getPodGpuRequests_key (pod : GpuPod) (key : string) :
  getPodGpuRequests pod !! key =
    if startsWith INTEL_GPU_RESOURCE_PREFIX key
       && existsb (requestsKey key) (everyContainer pod)
    then Some (numberToString
                 (Int (sumZ (map (fun c => requestCount c key)
                               (everyContainer pod)))))
    else None.
Proof.
  unfold getPodGpuRequests, podTotals. rewrite allContainers_every, lookup_fmap.
  rewrite (containers_fold _ ∅ key None) by apply lookup_empty.
  by destruct (_ && _).
Qed.


(** ** Safe integers *)

Lemma sumZ_abs {A : Type} (f : A -> Z) (l : list A) :
  Z.abs (sumZ (map f l)) <= sumZ (map (fun x => Z.abs (f x)) l).
Proof. induction l as [| x l IH]; simpl; lia. Qed.

Lemma sumZ_nonneg {A : Type} (f : A -> Z) (l : list A) :
  (forall x, 0 <= f x) -> 0 <= sumZ (map f l).
Proof. intros H. induction l as [| x l IH]; simpl; [done |]. specialize (H x). lia. Qed.

Lemma sumZ_le {A : Type} (f g : A -> Z) (l : list A) :
  (forall x, f x <= g x) -> sumZ (map f l) <= sumZ (map g l).
Proof. intros H. induction l as [| x l IH]; simpl; [done |]. specialize (H x). lia. Qed.

Lemma safeInteger_bound (a b : Z) :
  Z.abs a <= b -> safeInteger b -> safeInteger a.
Proof. unfold safeInteger. lia. Qed.

End ResourceProofs.

(* ===================================================================== *)
(** * The integer counts and the doubles of the code *)
(* ===================================================================== *)

Module Binary64Proofs.
Import JS K8s K8sHelpers Rounding K8sProofs ResourceProofs.

(** ** Rounding an integer that fits the mantissa *)

Lemma iter_swap {A} (f : A -> A) n x : Nat.iter n f (f x) = f (Nat.iter n f x).
Proof. induction n; simpl; congruence. Qed.

Lemma iter_add {A} (f : A -> A) n m x : Nat.iter (n + m) f x = Nat.iter n f (Nat.iter m f x).
Proof. induction n; simpl; congruence. Qed.

Lemma iter_pos_nat {A} (f : A -> A) p x :
  SpecFloat.iter_pos f p x = Nat.iter (Pos.to_nat p) f x.
Proof.
  revert x. induction p as [p IH | p IH |]; intros x; cbn [SpecFloat.iter_pos].
  - rewrite !IH, Pos2Nat.inj_xI.
    replace (S (2 * Pos.to_nat p)) with (Pos.to_nat p + S (Pos.to_nat p))%nat by lia.
    rewrite iter_add, Nat.iter_succ, (iter_swap f (Pos.to_nat p) x). reflexivity.
  - rewrite !IH, Pos2Nat.inj_xO.
    replace (2 * Pos.to_nat p)%nat with (Pos.to_nat p + Pos.to_nat p)%nat by lia.
    rewrite iter_add. reflexivity.
  - reflexivity.
Qed.

Lemma Pos_iter_nat {A} (f : A -> A) p x :
  Pos.iter f x p = Nat.iter (Pos.to_nat p) f x.
Proof. apply Pos2Nat.inj_iter. Qed.

Lemma digits_shiftn p n :
  Zpos (digits2_pos (shiftn p n)) = Zpos (digits2_pos p) + Z.of_nat n.
Proof.
  induction n as [| n IH]; [simpl; lia |].
  change (shiftn p (S n)) with (xO (shiftn p n)).
  cbn [digits2_pos]. rewrite Pos2Z.inj_succ, IH. lia.
Qed.

Lemma shiftn_Z p n : Zpos (shiftn p n) = Zpos p * 2 ^ Z.of_nat n.
Proof.
  induction n as [| n IH]; [simpl; lia |].
  change (shiftn p (S n)) with (xO (shiftn p n)).
  rewrite Pos2Z.inj_xO, IH, Nat2Z.inj_succ, Z.pow_succ_r by lia. lia.
Qed.

Lemma shr_shiftn q n :
  Nat.iter n shr_1 {| shr_m := Zpos (shiftn q n); shr_r := false; shr_s := false |}
  = {| shr_m := Zpos q; shr_r := false; shr_s := false |}.
Proof.
  revert q. induction n as [| n IH]; intros q; [reflexivity |].
  rewrite Nat.iter_succ.
  replace (shiftn q (S n)) with (shiftn (xO q) n)
    by (unfold shiftn; rewrite iter_swap; reflexivity).
  rewrite IH. reflexivity.
Qed.

Lemma fexp_53 d : -1021 <= d -> fexp prec emax d = d - 53.
Proof. intros H. unfold fexp, emin, prec, emax. lia. Qed.

Lemma shr_nat q n e :
  shr {| shr_m := Zpos (shiftn q n); shr_r := false; shr_s := false |} e (Z.of_nat n)
  = ({| shr_m := Zpos q; shr_r := false; shr_s := false |}, e + Z.of_nat n).
Proof.
  destruct n as [| n].
  - change (Z.of_nat 0) with 0. rewrite Z.add_0_r. reflexivity.
  - change (Z.of_nat (S n)) with (Zpos (Pos.of_succ_nat n)). cbn [shr].
    rewrite iter_pos_nat, SuccNat2Pos.id_succ, shr_shiftn. reflexivity.
Qed.

Lemma aux_exact s q n ez :
  Zpos (digits2_pos q) = 53 -> -1074 <= ez + Z.of_nat n <= 971 ->
  binary_round_aux prec emax s (Zpos (shiftn q n)) ez loc_Exact
  = S754_finite s q (ez + Z.of_nat n).
Proof.
  intros Hd He. unfold binary_round_aux, shr_fexp.
  cbn [Zdigits2 shr_record_of_loc]. rewrite digits_shiftn, Hd.
  rewrite fexp_53 by lia.
  replace (53 + Z.of_nat n + ez - 53 - ez) with (Z.of_nat n) by lia.
  rewrite shr_nat.
  cbn [shr_m loc_of_shr_record round_nearest_even Zdigits2 shr_record_of_loc].
  rewrite Hd, fexp_53 by lia.
  replace (53 + (ez + Z.of_nat n) - 53 - (ez + Z.of_nat n)) with (Z.of_nat 0) by lia.
  change q with (shiftn q 0) at 1. rewrite shr_nat. cbn [shr_m].
  change (Z.of_nat 0) with 0. rewrite Z.add_0_r.
  destruct (Z.leb_spec (ez + Z.of_nat n) (emax - prec)); [reflexivity |].
  unfold emax, prec in *. lia.
Qed.

Lemma shiftn_shiftn p a b : shiftn (shiftn p a) b = shiftn p (b + a).
Proof. unfold shiftn. symmetry. apply iter_add. Qed.

Lemma round_exact s p k :
  Zpos (digits2_pos p) <= 53 -> (k <= 64)%nat ->
  binary_round prec emax s (shiftn p k) (- Z.of_nat k)
  = S754_finite s (shiftn p (Z.to_nat (53 - Zpos (digits2_pos p))))
      (Zpos (digits2_pos p) - 53).
Proof.
  intros Hd Hk. unfold binary_round. rewrite digits_shiftn.
  set (d := Zpos (digits2_pos p)) in *.
  assert (Hd1 : 1 <= d) by (unfold d; lia).
  replace (d + Z.of_nat k + - Z.of_nat k) with d by lia.
  rewrite fexp_53 by lia. unfold shl_align.
  destruct (d - 53 - - Z.of_nat k) as [| j | j] eqn:E.
  - pose proof (aux_exact s (shiftn p k) 0 (- Z.of_nat k)) as H.
    rewrite digits_shiftn in H. fold d in H.
    change (Z.of_nat 0) with 0 in H. rewrite !Z.add_0_r in H.
    change (shiftn ?x 0) with x in H.
    fold (shiftn p k) in H. rewrite H by lia.
    f_equal; [f_equal |]; lia.
  - pose proof (aux_exact s (shiftn p (k - Pos.to_nat j)) (Pos.to_nat j)
                  (- Z.of_nat k)) as H.
    rewrite digits_shiftn, shiftn_shiftn in H. fold d in H.
    replace (Pos.to_nat j + (k - Pos.to_nat j))%nat with k in H by lia.
    rewrite H by lia. f_equal; [f_equal |]; lia.
  - rewrite Pos_iter_nat.
    change (Nat.iter (Pos.to_nat j) xO (shiftn p k))
      with (shiftn (shiftn p k) (Pos.to_nat j)).
    rewrite shiftn_shiftn.
    pose proof (aux_exact s (shiftn p (Pos.to_nat j + k)) 0 (d - 53)) as H.
    rewrite digits_shiftn in H. fold d in H.
    change (Z.of_nat 0) with 0 in H. rewrite !Z.add_0_r in H.
    change (shiftn ?x 0) with x in H.
    fold (shiftn p (Pos.to_nat j + k)) in H. rewrite H by lia.
    f_equal. f_equal. lia.
Qed.

Lemma digits_size p : digits2_pos p = Pos.size p.
Proof. induction p; simpl; congruence. Qed.

Lemma digits_bound p : Zpos p < 2 ^ 53 -> Zpos (digits2_pos p) <= 53.
Proof.
  intros H. rewrite digits_size.
  pose proof (Pos.size_le p) as Hs.
  destruct (Z.le_gt_cases (Zpos (Pos.size p)) 53) as [Hle | Hgt]; [done |].
  exfalso.
  assert (H2 : 2 ^ 54 <= 2 ^ Zpos (Pos.size p))
    by (apply Z.pow_le_mono_r; lia).
  assert (H3 : 2 ^ Zpos (Pos.size p) <= Zpos p~0).
  { rewrite <- Pos2Z.inj_pow. apply Pos2Z.pos_le_pos. exact Hs. }
  rewrite Pos2Z.inj_xO in H3. lia.
Qed.

Lemma binary_round_safe s p :
  Zpos p < 2 ^ 53 ->
  binary_round prec emax s p 0
  = S754_finite s (shiftn p (Z.to_nat (53 - Zpos (digits2_pos p))))
      (Zpos (digits2_pos p) - 53).
Proof.
  intros H. apply digits_bound in H.
  exact (round_exact s p 0 H (Nat.le_0_l _)).
Qed.

Lemma align m ea ez :
  ez <= ea ->
  fst (shl_align m ea ez) = shiftn m (Z.to_nat (ea - ez)).
Proof.
  intros H. unfold shl_align.
  destruct (ez - ea) as [| j | j] eqn:E.
  - replace (ea - ez) with 0 by lia. reflexivity.
  - lia.
  - cbn [fst]. rewrite Pos_iter_nat. unfold shiftn. f_equal. lia.
Qed.

Lemma normalize_shift z K :
  Z.abs z < 2 ^ 53 -> (K <= 64)%nat ->
  binary_normalize prec emax (z * 2 ^ Z.of_nat K) (- Z.of_nat K) false = nearest z.
Proof.
  intros Hz HK. unfold nearest. destruct z as [| p | p].
  - reflexivity.
  - rewrite <- shiftn_Z. cbn [binary_normalize].
    rewrite round_exact; [| apply digits_bound; lia | lia].
    symmetry. apply binary_round_safe. lia.
  - change (Z.neg p) with (- Z.pos p).
    rewrite Z.mul_opp_l, <- shiftn_Z.
    change (- Z.pos (shiftn p K)) with (Z.neg (shiftn p K)).
    change (- Z.pos p) with (Z.neg p). cbn [binary_normalize].
    rewrite round_exact; [| apply digits_bound; lia | lia].
    symmetry. apply binary_round_safe. lia.
Qed.

Lemma nearest_finite z :
  z <> 0 -> Z.abs z < 2 ^ 53 ->
  nearest z = S754_finite (z <? 0) (shiftn (Z.to_pos (Z.abs z))
                                (Z.to_nat (53 - Zpos (digits2_pos (Z.to_pos (Z.abs z))))))
          (Zpos (digits2_pos (Z.to_pos (Z.abs z))) - 53).
Proof.
  intros Hz Hs. destruct z as [| p | p]; [done | |]; unfold nearest;
    cbn [binary_normalize Z.abs Z.to_pos Z.ltb Z.compare]; apply binary_round_safe; lia.
Qed.

Lemma cond_Zopp_shift z K :
  z <> 0 ->
  cond_Zopp (z <? 0) (Zpos (shiftn (Z.to_pos (Z.abs z)) K)) = z * 2 ^ Z.of_nat K.
Proof.
  intros Hz. rewrite shiftn_Z.
  destruct z as [| p | p]; [done | |]; cbn [Z.abs Z.to_pos Z.ltb Z.compare cond_Zopp].
  - reflexivity.
  - change (Z.neg p) with (- Z.pos p). by rewrite Z.mul_opp_l.
Qed.

Lemma SFadd_exact a b :
  Z.abs a < 2 ^ 53 -> Z.abs b < 2 ^ 53 -> Z.abs (a + b) < 2 ^ 53 ->
  SFadd prec emax (nearest a) (nearest b) = nearest (a + b).
Proof.
  intros Ha Hb Hab.
  destruct (Z.eq_dec a 0) as [-> | Hna].
  { destruct (Z.eq_dec b 0) as [-> | Hnb]; [reflexivity |].
    rewrite Z.add_0_l, (nearest_finite b) by done. reflexivity. }
  destruct (Z.eq_dec b 0) as [-> | Hnb].
  { rewrite Z.add_0_r, (nearest_finite a) by done. reflexivity. }
  rewrite (nearest_finite a), (nearest_finite b) by done.
  set (pa := Z.to_pos (Z.abs a)). set (pb := Z.to_pos (Z.abs b)).
  set (da := Zpos (digits2_pos pa)). set (db := Zpos (digits2_pos pb)).
  assert (Hda : 1 <= da <= 53).
  { unfold da. split; [lia |]. apply digits_bound. unfold pa. lia. }
  assert (Hdb : 1 <= db <= 53).
  { unfold db. split; [lia |]. apply digits_bound. unfold pb. lia. }
  cbn [SFadd]. cbv zeta.
  set (ez := Z.min (da - 53) (db - 53)).
  rewrite !align by (unfold ez; lia). rewrite !shiftn_shiftn.
  set (K := Z.to_nat (- ez)).
  replace (Z.to_nat (da - 53 - ez) + Z.to_nat (53 - da))%nat with K
    by (unfold K, ez; lia).
  replace (Z.to_nat (db - 53 - ez) + Z.to_nat (53 - db))%nat with K
    by (unfold K, ez; lia).
  unfold pa, pb. rewrite !cond_Zopp_shift by done.
  rewrite <- Z.mul_add_distr_r.
  replace ez with (- Z.of_nat K) by (unfold K, ez; lia).
  apply normalize_shift; [done | unfold K, ez; lia].
Qed.

Lemma nearest_valid z : Z.abs z < 2 ^ 53 -> valid_binary (nearest z) = true.
Proof.
  intros Hz. destruct (Z.eq_dec z 0) as [-> | Hne]; [reflexivity |].
  rewrite nearest_finite by done. cbn [valid_binary SpecFloat.valid_binary].
  unfold bounded, canonical_mantissa. rewrite digits_shiftn.
  set (d := Z.pos (digits2_pos (Z.to_pos (Z.abs z)))).
  assert (Hd : 1 <= d <= 53).
  { unfold d. split; [lia |]. apply digits_bound. lia. }
  replace (d + Z.of_nat (Z.to_nat (53 - d)) + (d - 53)) with d by lia.
  rewrite fexp_53 by lia. rewrite Z.eqb_refl. simpl.
  apply Z.leb_le. unfold emax, prec. lia.
Qed.

Lemma Prim2SF_ofInteger z :
  Z.abs z < 2 ^ 53 -> Prim2SF (Binary64.ofInteger z false) = nearest z.
Proof. intros Hz. apply Prim2SF_SF2Prim. by apply nearest_valid. Qed.

Lemma ofInteger_add a b :
  Z.abs a < 2 ^ 53 -> Z.abs b < 2 ^ 53 -> Z.abs (a + b) < 2 ^ 53 ->
  (Binary64.ofInteger a false + Binary64.ofInteger b false)%float
  = Binary64.ofInteger (a + b) false.
Proof.
  intros Ha Hb Hab. apply Prim2SF_inj.
  rewrite add_spec, !Prim2SF_ofInteger by done.
  by apply SFadd_exact.
Qed.

Lemma SFeqb_finite s m e : SFeqb (S754_finite s m e) (S754_finite s m e) = true.
Proof.
  unfold SFeqb, SFcompare. rewrite Z.compare_refl, Pos.compare_cont_refl.
  by destruct s.
Qed.

Lemma ofInteger_sign z s :
  z <> 0 -> Binary64.ofInteger z s = Binary64.ofInteger z false.
Proof. by destruct z. Qed.

Lemma orZero_ofInteger z s :
  Z.abs z < 2 ^ 53 ->
  Binary64.orZero (Binary64.ofInteger z s) = Binary64.ofInteger z false.
Proof.
  intros Hz. destruct (Z.eq_dec z 0) as [-> | Hne].
  - by destruct s.
  - rewrite (ofInteger_sign z s Hne). unfold Binary64.orZero, is_nan, is_zero.
    rewrite !FloatAxioms.eqb_spec, Prim2SF_ofInteger, nearest_finite by done.
    rewrite SFeqb_finite. cbn [negb orb].
    change (Prim2SF 0) with (S754_zero false).
    unfold SFeqb, SFcompare. by destruct (z <? 0).
Qed.

Lemma orZero_parseInt v :
  Z.abs (match K8s.parseInt v with Int z => z | NaN => 0 end) < 2 ^ 53 ->
  Binary64.orZero (Binary64.parseInt v)
  = Binary64.ofInteger (match K8s.parseInt v with Int z => z | NaN => 0 end) false.
Proof.
  unfold K8s.parseInt, Binary64.parseInt.
  destruct (takeSign (trimStart v)) as [neg s1].
  destruct (span isDigit s1) as [ds rest].
  destruct (isEmpty ds); [reflexivity |].
  apply orZero_ofInteger.
Qed.

Lemma countStep_exact (c : Z) (entry : string * option string) :
  Z.abs c + Z.abs (contribution entry) < 2 ^ 53 ->
  Binary64.countStep (Binary64.ofInteger c false) entry
  = Binary64.ofInteger (c + contribution entry) false.
Proof.
  intros Hs. destruct entry as [key [v |]]; cbn [Binary64.countStep contribution] in *.
  2: { by rewrite Z.add_0_r. }
  destruct (isDeviceCountKey key); cbn [andb].
  2: { by rewrite Z.add_0_r. }
  destruct v as [| ch r].
  { cbn [isEmpty negb]. change (K8s.parseInt "") with NaN. by rewrite Z.add_0_r. }
  cbn [isEmpty negb].
  rewrite orZero_parseInt by lia. apply ofInteger_add; lia.
Qed.

Lemma fold_countStep_exact (l : list (string * option string)) (c : Z) :
  Z.abs c + sumZ (map (fun e => Z.abs (contribution e)) l) < 2 ^ 53 ->
  fold_left Binary64.countStep l (Binary64.ofInteger c false)
  = Binary64.ofInteger (c + sumZ (map contribution l)) false.
Proof.
  revert c. induction l as [| e l IH]; intros c Hs; simpl in *.
  - by rewrite Z.add_0_r.
  - assert (H0 : 0 <= sumZ (map (fun e => Z.abs (contribution e)) l)).
    { clear. induction l as [| x l IH]; simpl; lia. }
    rewrite countStep_exact by lia. rewrite IH by lia. f_equal. lia.
Qed.

Lemma sum_abs_contributions (m : NodeResources) :
  sumZ (map (fun e => Z.abs (contribution e)) (map_to_list m)) =
    Z.abs (deviceCount m INTEL_GPU_RESOURCE)
    + Z.abs (deviceCount m INTEL_GPU_XE_RESOURCE).
Proof.
  induction m as [| i x m Hi _ IH] using map_first_key_ind.
  - rewrite map_to_list_empty, !deviceCount_empty. reflexivity.
  - rewrite (sumZ_Permutation _ _
               (Permutation_map _ (map_to_list_insert m i x Hi))).
    simpl. rewrite IH, !deviceCount_insert by done.
    unfold isDeviceCountKey.
    destruct (String.eqb_spec i INTEL_GPU_RESOURCE) as [-> | H1].
    + rewrite (deviceCount_fresh m _ Hi). simpl. destruct x; lia.
    + destruct (String.eqb_spec i INTEL_GPU_XE_RESOURCE) as [-> | H2].
      * rewrite (deviceCount_fresh m _ Hi). simpl. destruct x; lia.
      * simpl. destruct x; lia.
Qed.


(** ** Sums of integer counts *)

Lemma add_nan_l (x : float) : (nan + x)%float = nan.
Proof. apply Prim2SF_inj. by rewrite add_spec. Qed.

Lemma add_nan_r (x : float) : (x + nan)%float = nan.
Proof.
  apply Prim2SF_inj. rewrite add_spec.
  change (Prim2SF nan) with S754_nan. by destruct (Prim2SF x).
Qed.

(** Adding two counts: [NaN] propagates, and the sum of two safe integers
    that is safe again is the sum of their doubles. *)
Lemma add_binary64 (a b : JSInt) :
  (forall x y, a = Int x -> b = Int y ->
     safeInteger x /\ safeInteger y /\ safeInteger (x + y)) ->
  Binary64.toDouble (add a b)
  = (Binary64.toDouble a + Binary64.toDouble b)%float.
Proof.
  intros H. destruct a as [| x], b as [| y]; cbn [add Binary64.toDouble].
  - by rewrite add_nan_l.
  - by rewrite add_nan_l.
  - by rewrite add_nan_r.
  - destruct (H x y eq_refl eq_refl) as (Hx & Hy & Hxy).
    unfold safeInteger, MAX_SAFE_INTEGER in *.
    symmetry. apply ofInteger_add; lia.
Qed.

(** Adding a zero of either sign to a safe integer. *)
Lemma ofInteger_add_zero (a : Z) (s : bool) :
  Z.abs a < 2 ^ 53 ->
  (Binary64.ofInteger a false + Binary64.ofInteger 0 s)%float
  = Binary64.ofInteger a false.
Proof.
  intros Ha. apply Prim2SF_inj. rewrite add_spec, Prim2SF_ofInteger by done.
  assert (Hz : Prim2SF (Binary64.ofInteger 0 s) = S754_zero s)
    by (by destruct s).
  rewrite Hz. destruct (Z.eq_dec a 0) as [-> | Hne].
  - by destruct s.
  - by rewrite nearest_finite by done.
Qed.

(** [total += parseInt(v, 10)] in double precision and on the integers:
    [NaN] propagates, and a zero after a minus sign adds nothing. *)
Lemma plus_parseInt (c : JSInt) (v : string) :
  (forall a, c = Int a ->
     Z.abs a + Z.abs (match K8s.parseInt v with Int z => z | NaN => 0 end)
       < 2 ^ 53) ->
  (Binary64.toDouble c + Binary64.parseInt v)%float
  = Binary64.toDouble (add c (K8s.parseInt v)).
Proof.
  unfold K8s.parseInt, Binary64.parseInt.
  destruct (takeSign (trimStart v)) as [neg s1].
  destruct (span isDigit s1) as [ds rest].
  destruct (isEmpty ds).
  { intros _. destruct c; cbn [add Binary64.toDouble];
      [apply add_nan_l | apply add_nan_r]. }
  set (z := if neg then - digitsValue 0 ds else digitsValue 0 ds).
  intros H. destruct c as [| a]; cbn [add Binary64.toDouble].
  { apply add_nan_l. }
  specialize (H a eq_refl). destruct (Z.eq_dec z 0) as [Hz | Hz].
  - rewrite Hz, Z.add_0_r. apply ofInteger_add_zero. lia.
  - rewrite (ofInteger_sign z neg Hz). apply ofInteger_add; lia.
Qed.

(** [parseInt(v, 10) || 0] in double precision and on the integers. *)
Lemma orZero_binary64 (v : string) :
  safeInteger (match K8s.parseInt v with Int z => z | NaN => 0 end) ->
  Binary64.orZero (Binary64.parseInt v)
  = Binary64.toDouble (K8s.orZero (K8s.parseInt v)).
Proof.
  intros Hs. unfold safeInteger, MAX_SAFE_INTEGER in Hs.
  rewrite orZero_parseInt by lia. by destruct (K8s.parseInt v).
Qed.

(** ** Loops that add [parseInt(value, 10) || 0] in double precision *)

Lemma sumZ_map_cons {A : Type} (f : A -> Z) (x : A) (l : list A) :
  sumZ (map f (x :: l)) = f x + sumZ (map f l).
Proof. reflexivity. Qed.

Lemma plus_parsed (c : Z) (v : string) :
  Z.abs c + Z.abs (match K8s.parseInt v with Int z => z | NaN => 0 end)
    < 2 ^ 53 ->
  (Binary64.ofInteger c false + Binary64.orZero (Binary64.parseInt v))%float
  = Binary64.ofInteger
      (c + match K8s.parseInt v with Int z => z | NaN => 0 end) false.
Proof. intros H. rewrite orZero_parseInt by lia. apply ofInteger_add; lia. Qed.



Lemma sum_string_magnitudes (m : gmap string string) :
  sumZ (map (fun e => Z.abs (contribution (e.1, Some e.2))) (map_to_list m)) =
    Z.abs (quantityOf m INTEL_GPU_RESOURCE)
    + Z.abs (quantityOf m INTEL_GPU_XE_RESOURCE).
Proof.
  induction m as [| i x m Hi _ IH] using map_first_key_ind.
  - rewrite map_to_list_empty, !quantityOf_empty. reflexivity.
  - rewrite (sumZ_Permutation _ _
               (Permutation_map _ (map_to_list_insert m i x Hi))).
    simpl in IH |- *. rewrite IH, !quantityOf_insert.
    unfold isDeviceCountKey.
    assert (Hq : quantityOf m i = 0) by (unfold quantityOf; by rewrite Hi).
    destruct (String.eqb_spec i INTEL_GPU_RESOURCE) as [-> | H1].
    + rewrite Hq. simpl. lia.
    + destruct (String.eqb_spec i INTEL_GPU_XE_RESOURCE) as [-> | H2].
      * rewrite Hq. simpl. lia.
      * simpl. lia.
Qed.

(** A loop over the entries of an object that adds
    [parseInt(value, 10) || 0] for the two device keys. *)
Lemma fold_device_doubles (step : float -> string * string -> float)
    (m : gmap string string) (a : Z) :
  (forall t key value, step t (key, value) =
     if isDeviceCountKey key
     then (t + Binary64.orZero (Binary64.parseInt value))%float
     else t) ->
  Z.abs a + Z.abs (quantityOf m INTEL_GPU_RESOURCE)
  + Z.abs (quantityOf m INTEL_GPU_XE_RESOURCE) < 2 ^ 53 ->
  fold_left step (map_to_list m) (Binary64.ofInteger a false) =
    Binary64.ofInteger (a + quantityOf m INTEL_GPU_RESOURCE
                          + quantityOf m INTEL_GPU_XE_RESOURCE) false.
Proof.
  intros Hstep.
  rewrite <- !Z.add_assoc, <- sum_string_contributions,
    <- sum_string_magnitudes.
  generalize (map_to_list m). intros l. revert a.
  induction l as [| [k v] l IH]; intros a Hs.
  - simpl. by rewrite Z.add_0_r.
  - assert (H0 : 0 <= sumZ (map (fun e => Z.abs (contribution (e.1, Some e.2)))
                              l)).
    { apply sumZ_nonneg. intros e. lia. }
    rewrite !sumZ_map_cons in *. cbn [fold_left fst snd contribution] in *.
    rewrite Hstep. destruct (isDeviceCountKey k).
    + rewrite plus_parsed by lia. rewrite IH by lia. f_equal. lia.
    + rewrite IH by lia. f_equal.
Qed.

(** The loop of [getNodeGpuCount] on capacities within the safe integers. *)
Lemma getNodeGpuCount_exact (node : IntelGpuNode) :
  Z.abs (deviceCount (capacityOf node) INTEL_GPU_RESOURCE)
  + Z.abs (deviceCount (capacityOf node) INTEL_GPU_XE_RESOURCE) < 2 ^ 53 ->
  Binary64.getNodeGpuCount node
  = Binary64.ofInteger (deviceCount (capacityOf node) INTEL_GPU_RESOURCE
                        + deviceCount (capacityOf node) INTEL_GPU_XE_RESOURCE)
      false.
Proof.
  intros Hs. unfold Binary64.getNodeGpuCount, objectEntries.
  change 0%float with (Binary64.ofInteger 0 false).
  rewrite fold_countStep_exact, ?sum_contributions; [reflexivity |].
  rewrite sum_abs_contributions. lia.
Qed.

(** Capacities of 400 nines and of minus 400 nines are outside the safe
    integers: the doubles are the two infinities and their sum is [NaN],
    where the integers add up to 0. *)
Example getNodeGpuCount_overflow :
  is_nan (Binary64.getNodeGpuCount
            (nodeWithCapacity
               {[ INTEL_GPU_RESOURCE := Some (Binary64.nines 400);
                  INTEL_GPU_XE_RESOURCE := Some ("-" ++ Binary64.nines 400) ]}))
    = true /\
  K8s.getNodeGpuCount
    (nodeWithCapacity
       {[ INTEL_GPU_RESOURCE := Some (Binary64.nines 400);
          INTEL_GPU_XE_RESOURCE := Some ("-" ++ Binary64.nines 400) ]}) = Int 0.
Proof. split; vm_compute; reflexivity. Qed.

(** X30. Computed in double precision, as the engine does, the loop of
    [getNodeGpuCount] returns the double of the integer that the integer
    model of the count gives, the sum of the [i915] and [xe] capacities,
    whenever these two capacities stay within the safe integers in total:
    [parseInt] and the additions are then exact. *)
Theorem getNodeGpuCount_binary64 (node : IntelGpuNode) :
  safeInteger (Z.abs (deviceCount (capacityOf node) INTEL_GPU_RESOURCE)
               + Z.abs (deviceCount (capacityOf node) INTEL_GPU_XE_RESOURCE)) ->
  Binary64.getNodeGpuCount node = Binary64.toDouble (K8s.getNodeGpuCount node) /\
  Binary64.getNodeGpuCount node
  = Binary64.ofInteger (deviceCount (capacityOf node) INTEL_GPU_RESOURCE
                        + deviceCount (capacityOf node) INTEL_GPU_XE_RESOURCE)
      false.
Proof.
  intros Hs. unfold safeInteger, MAX_SAFE_INTEGER in Hs.
  rewrite getNodeGpuCount_deviceCount. cbn [Binary64.toDouble].
  rewrite getNodeGpuCount_exact by (rewrite Z.abs_eq in Hs; lia). by split.
Qed.

Lemma getNodeGpuCount_binary64_witness :
  Binary64.getNodeGpuCount
    (nodeWithCapacity {[ INTEL_GPU_RESOURCE := Some "3";
                         INTEL_GPU_XE_RESOURCE := Some "2";
                         INTEL_GPU_MILLICORES_RESOURCE := Some "1000" ]})
  = Binary64.toDouble (Int 5).
Proof.
  refine (eq_trans (proj1 (getNodeGpuCount_binary64
    (nodeWithCapacity {[ INTEL_GPU_RESOURCE := Some "3";
                         INTEL_GPU_XE_RESOURCE := Some "2";
                         INTEL_GPU_MILLICORES_RESOURCE := Some "1000" ]}) _)) _).
  - vm_compute. discriminate.
  - reflexivity.
Defined.

End Binary64Proofs.

(* ===================================================================== *)
(** * The requests of a pod *)
(* ===================================================================== *)

Module RequestProofs.
Import JS K8s K8sHelpers StringFacts K8sProofs ResourceProofs Binary64Proofs.
Local Open Scope list_scope.

(** ** The totals of [getPodGpuRequests] in double precision *)












(** ** getPodGpuRequests *)

(** The pod of the examples: the limits and the request of another
    resource kind leave the device request alone. *)
Example getPodGpuRequests_examplePod :
  getPodGpuRequests examplePod
  = {[ INTEL_GPU_RESOURCE := "3"; INTEL_GPU_MILLICORES_RESOURCE := "500" ]}.
Proof. vm_compute. reflexivity. Qed.



End RequestProofs.

(* ===================================================================== *)
(** * Properties of the counters of the pages *)
(* ===================================================================== *)

Module CounterProofs.
Import JS K8s K8sHelpers OverviewCounters NodeDetailSection AppBarGpuBadge.
Import StringFacts K8sProofs ResourceProofs Binary64Proofs RequestProofs.
Local Open Scope list_scope.

(** ** The allocatable devices of the node detail section *)

Lemma quantityOf_getGpuResources (resources : option NodeResources)
    (rest : string) :
  quantityOf (getGpuResources resources) (INTEL_GPU_RESOURCE_PREFIX ++ rest)%string
  = deviceCount (default ∅ resources) (INTEL_GPU_RESOURCE_PREFIX ++ rest)%string.
Proof.
  unfold quantityOf, deviceCount. rewrite getGpuResources_lookup.
  replace (startsWith _ _) with true
    by (symmetry; apply startsWith_app; by exists rest).
  by destruct (default ∅ resources !! _) as [[v |] |].
Qed.

(** X8. The allocatable device count of the node detail section is
    computed from [getGpuResources(status.allocatable)], in double
    precision.  When the [i915] and [xe] values of [status.allocatable],
    each parsed as an integer and counted as 0 when missing, undefined or
    not a number, stay within the safe integers, the count is the double
    of their sum, a safe integer again: the same function of the
    allocatable map as [getNodeGpuCount] is of the capacity map. *)
Theorem gpuAllocatable_device_keys (resources : option NodeResources) :
  safeInteger
    (Z.abs (deviceCount (default ∅ resources) INTEL_GPU_RESOURCE)
     + Z.abs (deviceCount (default ∅ resources) INTEL_GPU_XE_RESOURCE)) ->
  gpuAllocatable resources =
    Binary64.ofInteger
      (deviceCount (default ∅ resources) INTEL_GPU_RESOURCE
       + deviceCount (default ∅ resources) INTEL_GPU_XE_RESOURCE) false /\
  gpuAllocatable resources =
    Binary64.getNodeGpuCount (nodeWithCapacity (default ∅ resources)) /\
  safeInteger
    (deviceCount (default ∅ resources) INTEL_GPU_RESOURCE
     + deviceCount (default ∅ resources) INTEL_GPU_XE_RESOURCE).
Proof.
  intros Hsafe.
  assert (H : gpuAllocatable resources =
    Binary64.ofInteger
      (deviceCount (default ∅ resources) INTEL_GPU_RESOURCE
       + deviceCount (default ∅ resources) INTEL_GPU_XE_RESOURCE) false).
  { unfold safeInteger, MAX_SAFE_INTEGER in Hsafe.
    unfold gpuAllocatable, objectEntries.
    change 0%float with (Binary64.ofInteger 0 false).
    pose proof (quantityOf_getGpuResources resources "i915") as Hi.
    pose proof (quantityOf_getGpuResources resources "xe") as Hx.
    change (INTEL_GPU_RESOURCE_PREFIX ++ "i915")%string
      with INTEL_GPU_RESOURCE in Hi.
    change (INTEL_GPU_RESOURCE_PREFIX ++ "xe")%string
      with INTEL_GPU_XE_RESOURCE in Hx.
    rewrite (fold_device_doubles allocatableStep);
      rewrite ?Hi, ?Hx; [by rewrite Z.add_0_l | done | lia]. }
  split; [exact H |]. split.
  - rewrite H. symmetry. apply getNodeGpuCount_exact.
    unfold safeInteger, MAX_SAFE_INTEGER in Hsafe.
    change (capacityOf (nodeWithCapacity (default ∅ resources)))
      with (default ∅ resources). lia.
  - apply (safeInteger_bound _ _ (Z.abs_triangle _ _) Hsafe).
Qed.

Lemma gpuAllocatable_device_keys_witness :
  gpuAllocatable
    (Some {[ INTEL_GPU_RESOURCE := Some "2"; INTEL_GPU_XE_RESOURCE := Some "1";
             INTEL_GPU_MILLICORES_RESOURCE := Some "1000";
             "cpu" := Some "8" ]}) = 3%float.
Proof.
  refine (proj1 (gpuAllocatable_device_keys
    (Some {[ INTEL_GPU_RESOURCE := Some "2"; INTEL_GPU_XE_RESOURCE := Some "1";
             INTEL_GPU_MILLICORES_RESOURCE := Some "1000";
             "cpu" := Some "8" ]}) _)).
  vm_compute. discriminate.
Defined.

(** ** GPUs in use *)


Lemma sumZ_add {A : Type} (f g : A -> Z) (l : list A) :
  sumZ (map (fun x => f x + g x) l) = sumZ (map f l) + sumZ (map g l).
Proof. induction l as [| x l IH]; simpl; [done |]. rewrite IH. lia. Qed.

Lemma isRunning_runningPod (pod : GpuPod) : isRunning pod = runningPod pod.
Proof.
  unfold isRunning, phaseOf, runningPod.
  destruct (pod_status pod) as [st |]; [| done]. cbn [mbind option_bind].
  destruct (phase st) as [p |]; [| done].
  destruct (String.eqb_spec p "Running") as [-> | Hne];
    case_bool_decide; congruence.
Qed.


Lemma quantityOf_getPodGpuRequests (pod : GpuPod) (rest : string) :
  quantityOf (getPodGpuRequests pod) (INTEL_GPU_RESOURCE_PREFIX ++ rest)%string
  = sumZ (map (fun c => requestCount c (INTEL_GPU_RESOURCE_PREFIX ++ rest)%string)
            (everyContainer pod)).
Proof.
  unfold quantityOf. rewrite getPodGpuRequests_key.
  replace (startsWith _ _) with true
    by (symmetry; apply startsWith_app; by exists rest).
  rewrite andb_true_l. destruct (existsb _ _) eqn:He.
  - by rewrite parseInt_numberToString.
  - by rewrite sum_requestCount_none.
Qed.

Lemma requestedDevices_magnitude (cs : list ContainerSpec) :
  Z.abs (requestedDevices cs) <= requestMagnitude cs.
Proof.
  unfold requestedDevices, requestMagnitude.
  etransitivity; [apply sumZ_abs |]. apply sumZ_le. intros c. lia.
Qed.

Lemma requestMagnitude_nonneg (cs : list ContainerSpec) :
  0 <= requestMagnitude cs.
Proof. apply sumZ_nonneg. intros c. lia. Qed.



Lemma requestCount_magnitude (cs : list ContainerSpec) :
  Z.abs (sumZ (map (fun c => requestCount c INTEL_GPU_RESOURCE) cs))
  + Z.abs (sumZ (map (fun c => requestCount c INTEL_GPU_XE_RESOURCE) cs))
  <= requestMagnitude cs.
Proof.
  unfold requestMagnitude. rewrite sumZ_add.
  pose proof (sumZ_abs (fun c => requestCount c INTEL_GPU_RESOURCE) cs).
  pose proof (sumZ_abs (fun c => requestCount c INTEL_GPU_XE_RESOURCE) cs).
  cbn beta in *. lia.
Qed.

Lemma podStep_sum (a : Z) (pod : GpuPod) :
  Z.abs a + (if runningPod pod then requestMagnitude (everyContainer pod) else 0)
    < 2 ^ 53 ->
  podStep (Binary64.ofInteger a false) pod =
    Binary64.ofInteger
      (a + if runningPod pod then requestedDevices (everyContainer pod) else 0)
      false.
Proof.
  unfold podStep. rewrite isRunning_runningPod.
  destruct (runningPod pod); simpl; intros Hs; [| by rewrite Z.add_0_r].
  pose proof (requestCount_magnitude (everyContainer pod)) as Hm.
  pose proof (quantityOf_getPodGpuRequests pod "i915") as Hi.
  pose proof (quantityOf_getPodGpuRequests pod "xe") as Hx.
  change (INTEL_GPU_RESOURCE_PREFIX ++ "i915")%string
    with INTEL_GPU_RESOURCE in Hi.
  change (INTEL_GPU_RESOURCE_PREFIX ++ "xe")%string
    with INTEL_GPU_XE_RESOURCE in Hx.
  unfold objectEntries.
  rewrite (fold_device_doubles allocatedStep);
    rewrite ?Hi, ?Hx; [| done | lia].
  unfold requestedDevices. rewrite sumZ_add. f_equal.
  exact (eq_sym (Z.add_assoc _ _ _)).
Qed.

Lemma podStep_fold (gpuPods : list GpuPod) (a : Z) :
  Z.abs a + sumZ (map (fun pod => requestMagnitude (everyContainer pod))
                    (List.filter runningPod gpuPods)) < 2 ^ 53 ->
  fold_left podStep gpuPods (Binary64.ofInteger a false) =
    Binary64.ofInteger
      (a + sumZ (map (fun pod => requestedDevices (everyContainer pod))
                   (List.filter runningPod gpuPods))) false.
Proof.
  revert a. induction gpuPods as [| pod pods IH]; intros a Hs; simpl in *.
  - by rewrite Z.add_0_r.
  - assert (H0 : 0 <= sumZ (map (fun pod => requestMagnitude (everyContainer pod))
                              (List.filter runningPod pods))).
    { apply sumZ_nonneg. intros p. apply requestMagnitude_nonneg. }
    pose proof (requestedDevices_magnitude (everyContainer pod)) as Hm.
    destruct (runningPod pod) eqn:Hr; simpl in *.
    + rewrite podStep_sum by (rewrite Hr; lia). rewrite Hr.
      rewrite IH by lia. f_equal. lia.
    + rewrite podStep_sum by (rewrite Hr; lia). rewrite Hr, Z.add_0_r.
      by rewrite IH by lia.
Qed.

(** Two pods: one running with the requests of [examplePod], one pending
    that requests four devices. *)
Example totalAllocatedGpus_example :
  totalAllocatedGpus
    [examplePod;
     mkGpuPod "queued" (Some "gpu-node-1") (Some "Pending")
       (Some [mkContainer "main" (Some {[ INTEL_GPU_RESOURCE := "4" ]}) None])
       None] = 3%float.
Proof. vm_compute. reflexivity. Qed.

(** X10. The number of GPUs in use on the overview page counts only the
    pods whose phase is [Running].  When their [i915] and [xe] requests,
    each parsed as an integer and counted as 0 when it is not a number,
    stay within the safe integers in total, the number is the double of
    the sum of these requests over all containers and init containers of
    the running pods, a safe integer again. *)
Theorem totalAllocatedGpus_running (gpuPods : list GpuPod) :
  safeInteger
    (sumZ (map (fun pod => requestMagnitude (everyContainer pod))
             (List.filter runningPod gpuPods))) ->
  totalAllocatedGpus gpuPods =
    Binary64.ofInteger
      (sumZ (map (fun pod => requestedDevices (everyContainer pod))
               (List.filter runningPod gpuPods))) false /\
  safeInteger
    (sumZ (map (fun pod => requestedDevices (everyContainer pod))
             (List.filter runningPod gpuPods))).
Proof.
  intros Hsafe. split.
  - unfold totalAllocatedGpus.
    change 0%float with (Binary64.ofInteger 0 false).
    unfold safeInteger, MAX_SAFE_INTEGER in Hsafe.
    assert (H0 : 0 <= sumZ (map (fun pod => requestMagnitude (everyContainer pod))
                              (List.filter runningPod gpuPods))).
    { apply sumZ_nonneg. intros p. apply requestMagnitude_nonneg. }
    rewrite podStep_fold by (rewrite Z.abs_eq in Hsafe; lia).
    by rewrite Z.add_0_l.
  - refine (safeInteger_bound _ _ _ Hsafe).
    etransitivity; [apply sumZ_abs |]. apply sumZ_le.
    intros pod. apply requestedDevices_magnitude.
Qed.

Lemma totalAllocatedGpus_running_witness :
  totalAllocatedGpus
    [examplePod;
     mkGpuPod "queued" (Some "gpu-node-1") (Some "Pending")
       (Some [mkContainer "main" (Some {[ INTEL_GPU_RESOURCE := "4" ]}) None])
       None] = 3%float.
Proof.
  refine (proj1 (totalAllocatedGpus_running
    [examplePod;
     mkGpuPod "queued" (Some "gpu-node-1") (Some "Pending")
       (Some [mkContainer "main" (Some {[ INTEL_GPU_RESOURCE := "4" ]}) None])
       None] _)).
  vm_compute. discriminate.
Defined.












Lemma filter_filter_same {A : Type} (f : A -> bool) (l : list A) :
  List.filter f (List.filter f l) = List.filter f l.
Proof.
  induction l as [| x l IH]; simpl; [done |].
  destruct (f x) eqn:E; simpl; [by rewrite E, IH | done].
Qed.

(** The pods of [gpu-node-1]: [examplePod], and a running pod whose only
    request comes from an init container. *)
Example gpuInUse_example :
  gpuInUse false
    [examplePod;
     mkGpuPod "elsewhere" (Some "gpu-node-2") (Some "Running")
       (Some [mkContainer "main" (Some {[ INTEL_GPU_RESOURCE := "4" ]}) None])
       None;
     mkGpuPod "init-only" (Some "gpu-node-1") (Some "Running") None
       (Some [mkContainer "init" (Some {[ INTEL_GPU_XE_RESOURCE := "1" ]}) None])]
    "gpu-node-1" = 2%float.
Proof. vm_compute. reflexivity. Qed.



(** ** The node summary *)

Lemma count_cons {A : Type} (p : A -> bool) (x : A) (l : list A) :
  count p (x :: l) = (if p x then 1 else 0) + count p l.
Proof. unfold count. simpl. destruct (p x); simpl; lia. Qed.








(** The summary of the three example nodes: one node of each type, three
    devices on the first node and one on the second, two nodes ready. *)
Example nodeSummary_exampleNodes :
  nodeSummary exampleNodes =
    {| discreteCount := 1; integratedCount := 1; unknownCount := 1;
       totalGpuCount := 4%float; readyNodeCount := 2 |}.
Proof. vm_compute. reflexivity. Qed.

Example gpuTypeChartData_example :
  gpuTypeChartData 2 0 1 =
    [{| chart_name := "Discrete"; chart_value := 2; chart_fill := "#0071c5" |};
     {| chart_name := "Unknown"; chart_value := 1; chart_fill := "#9e9e9e" |}].
Proof. reflexivity. Qed.



(** ** The pod phase breakdown *)

Lemma named_In (p : string) :
  existsb (String.eqb p) namedPhases = true <-> In p namedPhases.
Proof.
  rewrite existsb_exists. split.
  - by intros (q & Hq & ->%String.eqb_eq).
  - intros Hp. exists p. split; [done | apply String.eqb_refl].
Qed.

Lemma Other_named : In "Other" namedPhases.
Proof. simpl. auto 10. Qed.

Lemma phaseStep_named (counts : gmap string JSInt) (pod : GpuPod)
    (k : string) (z : Z) :
  phaseInvariant counts -> In k namedPhases -> counts !! k = Some (Int z) ->
  phaseStep counts pod !! k
  = Some (Int (z + if countsAs k pod then 1 else 0)).
Proof.
  intros [Hnamed Hdom] Hk Hz.
  destruct (Hnamed "Other" Other_named) as [zo Ho].
  unfold phaseStep, countsAs, isOtherPhase, hasPhase.
  destruct (phaseOf pod) as [p |]; cbn [default from_option id].
  - destruct (existsb (String.eqb p) namedPhases) eqn:Hp.
    + apply named_In in Hp. destruct (Hnamed p Hp) as [zp Hzp].
      rewrite Hzp. cbn [add negb andb]. rewrite orb_false_r.
      destruct (String.eqb_spec p k) as [-> | Hne].
      * rewrite lookup_insert_eq. rewrite Hzp in Hz. injection Hz as ->.
        by destruct (String.eqb k "Other").
      * rewrite lookup_insert_ne, Hz by done.
        destruct (String.eqb_spec k "Other") as [-> | Hko].
        -- destruct (String.eqb_spec p "Other"); [done |].
           do 2 f_equal; simpl; lia.
        -- do 2 f_equal; simpl; lia.
    + assert (Hpk : p <> k).
      { intros ->. apply named_In in Hk. congruence. }
      assert (Hpo : p <> "Other").
      { intros ->. discriminate Hp. }
      assert (Hnot : String.eqb p k = false) by by apply String.eqb_neq.
      assert (Hnoto : String.eqb p "Other" = false) by by apply String.eqb_neq.
      rewrite Hnot, Hnoto. cbn [negb andb orb].
      destruct (counts !! p) as [n |] eqn:Hcp.
      * rewrite lookup_insert_ne, Hz by done.
        destruct (Hdom p) as [Hin | Hinh]; [by eexists | |].
        -- apply named_In in Hin. congruence.
        -- rewrite Hinh. destruct (String.eqb k "Other"); do 2 f_equal; simpl; lia.
      * destruct (isInherited p) eqn:Hinh.
        -- assert (Hsame : (if String.eqb p "__proto__" then counts
                            else <[p := NaN]> counts) !! k = Some (Int z)).
           { destruct (String.eqb p "__proto__"); [done |].
             by rewrite lookup_insert_ne. }
           rewrite Hsame.
           destruct (String.eqb k "Other"); do 2 f_equal; simpl; lia.
        -- rewrite Ho. cbn [add negb].
           destruct (String.eqb_spec k "Other") as [-> | Hko].
           ++ rewrite lookup_insert_eq. rewrite Ho in Hz. by injection Hz as ->.
           ++ rewrite lookup_insert_ne, Hz by done. do 2 f_equal; simpl; lia.
  - rewrite Ho. cbn [add].
    destruct (String.eqb_spec k "Other") as [-> | Hko].
    + rewrite lookup_insert_eq. rewrite Ho in Hz. by injection Hz as ->.
    + rewrite lookup_insert_ne, Hz by done. do 2 f_equal; simpl; lia.
Qed.

Lemma named_not_inherited (k : string) :
  In k namedPhases -> isInherited k = false.
Proof.
  simpl. intros [<- | [<- | [<- | [<- | [<- | []]]]]]; reflexivity.
Qed.

Lemma phaseStep_invariant (counts : gmap string JSInt) (pod : GpuPod) :
  phaseInvariant counts -> phaseInvariant (phaseStep counts pod).
Proof.
  intros Hinv. split.
  - intros k Hk. destruct (proj1 Hinv k Hk) as [z Hz].
    rewrite (phaseStep_named _ _ _ _ Hinv Hk Hz). by eexists.
  - intros k. destruct Hinv as [Hnamed Hdom].
    destruct (Hnamed "Other" Other_named) as [zo Ho].
    unfold phaseStep. set (p := default "Other" (phaseOf pod)).
    assert (Hins : forall v, is_Some (counts !! p) \/ isInherited p = true ->
               is_Some (<[p := v]> counts !! k) ->
               In k namedPhases \/ isInherited k = true).
    { intros v Hp. destruct (String.eqb_spec p k) as [<- | Hne].
      - intros _. destruct Hp as [Hp | Hp]; [by apply Hdom | by right].
      - rewrite lookup_insert_ne by done. apply Hdom. }
    destruct (counts !! p) as [n |] eqn:Hcp.
    + apply Hins. left. by eexists.
    + destruct (isInherited p) eqn:Hinh.
      * destruct (String.eqb p "__proto__"); [apply Hdom |].
        apply Hins. by right.
      * rewrite Ho. destruct (String.eqb_spec "Other" k) as [<- | Hne].
        -- intros _. left. apply Other_named.
        -- rewrite lookup_insert_ne by done. apply Hdom.
Qed.

Lemma initialPhaseCounts_invariant : phaseInvariant initialPhaseCounts.
Proof.
  split.
  - simpl. intros k [<- | [<- | [<- | [<- | [<- | []]]]]];
      exists 0; reflexivity.
  - intros k [v Hv]. left. unfold initialPhaseCounts in Hv.
    repeat (apply lookup_insert_Some in Hv as [[<- _] | [_ Hv]];
            [simpl; auto 10 |]).
    apply lookup_singleton_Some in Hv as [<- _]. apply Other_named.
Qed.

Lemma phase_fold (pods : list GpuPod) (counts : gmap string JSInt)
    (k : string) (z : Z) :
  phaseInvariant counts -> In k namedPhases -> counts !! k = Some (Int z) ->
  fold_left phaseStep pods counts !! k = Some (Int (z + count (countsAs k) pods)).
Proof.
  revert counts z. induction pods as [| pod pods IH]; intros counts z Hinv Hk Hz.
  - simpl. rewrite Hz. unfold count. simpl. do 2 f_equal. lia.
  - simpl fold_left.
    rewrite (IH _ _ (phaseStep_invariant _ pod Hinv) Hk
               (phaseStep_named _ pod _ _ Hinv Hk Hz)).
    rewrite count_cons. do 2 f_equal. lia.
Qed.

Lemma phase_fold_invariant (pods : list GpuPod) (counts : gmap string JSInt) :
  phaseInvariant counts -> phaseInvariant (fold_left phaseStep pods counts).
Proof.
  revert counts. induction pods as [| pod pods IH]; intros counts Hc; [done |].
  simpl. apply IH. by apply phaseStep_invariant.
Qed.

Lemma phase_partition (pods : list GpuPod) :
  Forall (fun pod => isInherited (default "Other" (phaseOf pod)) = false) pods ->
  count (hasPhase "Running") pods + count (hasPhase "Pending") pods
  + count (hasPhase "Succeeded") pods + count (hasPhase "Failed") pods
  + count isOtherPhase pods = Z.of_nat (List.length pods).
Proof.
  induction 1 as [| pod pods Hpod _ IH]; [done |].
  rewrite !count_cons. simpl List.length.
  assert (Hone : (if hasPhase "Running" pod then 1 else 0)
                 + (if hasPhase "Pending" pod then 1 else 0)
                 + (if hasPhase "Succeeded" pod then 1 else 0)
                 + (if hasPhase "Failed" pod then 1 else 0)
                 + (if isOtherPhase pod then 1 else 0) = 1).
  { unfold hasPhase, isOtherPhase. destruct (phaseOf pod) as [p |]; [| done].
    simpl in Hpod. rewrite Hpod. cbn [negb andb existsb namedPhases].
    destruct (String.eqb_spec p "Running") as [-> | ?]; [done |].
    destruct (String.eqb_spec p "Pending") as [-> | ?]; [done |].
    destruct (String.eqb_spec p "Succeeded") as [-> | ?]; [done |].
    destruct (String.eqb_spec p "Failed") as [-> | ?]; [done |].
    by destruct (String.eqb_spec p "Other") as [-> | ?]. }
  lia.
Qed.

(** X13. In the pod phase breakdown of the overview page each of the
    counters [Running], [Pending], [Succeeded] and [Failed] ends as the
    number of pods with that phase, and [Other] as the number of pods
    without a phase, with the phase [Other], or with a phase that is
    neither a displayed name nor a name every object inherits (such as
    [Unknown]).  A pod whose phase is an inherited name ([constructor],
    [toString], ...) passes the [in] test and is counted nowhere; when no
    pod has such a phase the five counters add up to the number of pods. *)
Theorem podPhaseCounts_named (gpuPods : list GpuPod) :
  let counts := podPhaseCounts gpuPods in
  counts !! "Running" = Some (Int (count (hasPhase "Running") gpuPods)) /\
  counts !! "Pending" = Some (Int (count (hasPhase "Pending") gpuPods)) /\
  counts !! "Succeeded" = Some (Int (count (hasPhase "Succeeded") gpuPods)) /\
  counts !! "Failed" = Some (Int (count (hasPhase "Failed") gpuPods)) /\
  counts !! "Other" = Some (Int (count isOtherPhase gpuPods)) /\
  (forall pod k,
     isInherited (default "Other" (phaseOf pod)) = true ->
     In k namedPhases ->
     phaseStep counts pod !! k = counts !! k) /\
  (Forall (fun pod => isInherited (default "Other" (phaseOf pod)) = false)
     gpuPods ->
   count (hasPhase "Running") gpuPods + count (hasPhase "Pending") gpuPods
   + count (hasPhase "Succeeded") gpuPods + count (hasPhase "Failed") gpuPods
   + count isOtherPhase gpuPods = Z.of_nat (List.length gpuPods)).
Proof.
  intros counts. subst counts. unfold podPhaseCounts.
  assert (H : forall k, In k namedPhases ->
    fold_left phaseStep gpuPods initialPhaseCounts !! k
    = Some (Int (count (countsAs k) gpuPods))).
  { intros k Hk.
    rewrite (phase_fold _ _ k 0 initialPhaseCounts_invariant Hk); [done |].
    simpl in Hk. by destruct Hk as [<- | [<- | [<- | [<- | [<- | []]]]]]. }
  repeat (split; [apply H; simpl; auto 10 |]).
  split; [| apply phase_partition].
  intros pod k Hinh Hk.
  pose proof (phase_fold_invariant gpuPods _ initialPhaseCounts_invariant)
    as Hinv.
  destruct (proj1 Hinv k Hk) as [z Hz].
  rewrite (phaseStep_named _ pod _ _ Hinv Hk Hz), Hz.
  replace (countsAs k pod) with false; [do 2 f_equal; lia |].
  unfold countsAs, isOtherPhase, hasPhase.
  destruct (phaseOf pod) as [p |]; [| discriminate Hinh].
  simpl in Hinh. rewrite Hinh, andb_false_r, orb_false_r.
  assert (Hpk : String.eqb p k = false).
  { apply String.eqb_neq. intros ->.
    by rewrite (named_not_inherited _ Hk) in Hinh. }
  destruct (String.eqb_spec k "Other") as [-> | _]; by rewrite Hpk.
Qed.

End CounterProofs.

(* ===================================================================== *)
(** * Facts about strings built by concatenation *)
(* ===================================================================== *)

Module ConcatFacts.
Import JS.

Lemma app_cons (c : ascii) (a b : string) :
  (String c a ++ b)%string = String c (a ++ b).
Proof. reflexivity. Qed.

Lemma app_empty (b : string) : ("" ++ b)%string = b.
Proof. reflexivity. Qed.

Lemma app_empty_r (a : string) : (a ++ "")%string = a.
Proof. induction a as [| x a IH]; [done |]. by rewrite app_cons, IH. Qed.

Lemma app_assoc_string (a b c : string) :
  ((a ++ b) ++ c)%string = (a ++ (b ++ c))%string.
Proof.
  induction a as [| x a IH]; [done |]. by rewrite !app_cons, IH.
Qed.

Lemma length_app (a b : string) :
  String.length (a ++ b) = (String.length a + String.length b)%nat.
Proof. induction a as [| x a IH]; [done |]. rewrite app_cons. simpl. lia. Qed.

Lemma sliceFrom_app (p rest : string) :
  sliceFrom (String.length p) (p ++ rest) = rest.
Proof.
  induction p as [| c p IH]; [by destruct rest |].
  rewrite app_cons. by simpl.
Qed.

Lemma sliceTo_app (p rest : string) :
  sliceTo (String.length p) (p ++ rest) = p.
Proof.
  induction p as [| c p IH]; [by destruct rest |].
  rewrite app_cons. simpl. by rewrite IH.
Qed.

End ConcatFacts.

(* ===================================================================== *)
(** * Properties of the status and display helpers *)
(* ===================================================================== *)

Module StatusProofs.
Import JS K8s K8sHelpers AppBarGpuBadge StringFacts ResourceProofs.
Import ConcatFacts.

(** ** pluginStatusText *)

Lemma ready_text_differs (ready desired : Z) :
  (numberToString (Int ready) ++ "/" ++ numberToString (Int desired)
   ++ " ready")%string <> "No nodes scheduled".
Proof.
  destruct (numberToString_head ready) as (c & r & -> & Hc).
  change (String c r +:+ ?x) with (String c (r +:+ x)).
  intros [= -> _]. by destruct Hc.
Qed.

(** X14. [pluginStatusText] answers [No nodes scheduled] exactly when no
    node is scheduled, which [pluginStatusToStatus] reports as a warning;
    otherwise the text is the ready count, a slash, the desired count and
    the word [ready], and for a plugin whose status is [success] the two
    counts in the text are the same number. *)
Theorem pluginStatusText_status (plugin : GpuDevicePlugin) :
  let desired := statusField plugin desiredNumberScheduled in
  let ready := statusField plugin numberReady in
  (pluginStatusText plugin = "No nodes scheduled" <-> desired = 0) /\
  (pluginStatusText plugin = "No nodes scheduled" ->
   pluginStatusToStatus plugin = warning) /\
  (desired <> 0 ->
   pluginStatusText plugin =
     (numberToString (Int ready) ++ "/" ++ numberToString (Int desired)
      ++ " ready")%string) /\
  (pluginStatusToStatus plugin = success ->
   pluginStatusText plugin =
     (numberToString (Int desired) ++ "/" ++ numberToString (Int desired)
      ++ " ready")%string).
Proof.
  intros desired ready.
  assert (Hiff : pluginStatusText plugin = "No nodes scheduled" <-> desired = 0).
  { unfold pluginStatusText. fold desired ready.
    destruct (Z.eqb_spec desired 0) as [-> | Hne]; [done |].
    split; [| done]. intros H. by apply ready_text_differs in H. }
  split; [exact Hiff |]. split; [| split].
  - intros Hd%Hiff. unfold pluginStatusToStatus. fold desired. by rewrite Hd.
  - intros Hne. unfold pluginStatusText. fold desired ready.
    by destruct (Z.eqb_spec desired 0).
  - unfold pluginStatusToStatus, pluginStatusText. fold desired ready.
    destruct (Z.eqb_spec desired 0); [done |].
    destruct (0 <? statusField plugin numberUnavailable); [done |].
    destruct (Z.eqb_spec ready desired) as [-> | ?]; done.
Qed.

(** ** The health chip of the app bar *)

Lemma isUnhealthy_status (p : GpuDevicePlugin) :
  plausible p ->
  (isUnhealthy p = false <->
   pluginStatusToStatus p = success \/
   (statusField p desiredNumberScheduled = 0 /\
    statusField p numberUnavailable <= 0)).
Proof.
  unfold plausible, isUnhealthy, pluginStatusToStatus.
  set (desired := statusField p desiredNumberScheduled).
  set (ready := statusField p numberReady).
  set (unavailable := statusField p numberUnavailable).
  intros [Hd Hr].
  destruct (Z.eqb_spec desired 0); destruct (Z.ltb_spec 0 desired);
    destruct (Z.ltb_spec ready desired); destruct (Z.ltb_spec 0 unavailable);
    destruct (Z.eqb_spec ready desired); simpl;
    try lia; split; try done; try (intros [? | [? ?]]; done || lia);
    try (intros _; (by left) || (right; lia)).
Qed.

(** X15. For device plugins whose counters are plausible (nothing
    negative, not more pods ready than scheduled) the chip of the app bar
    shows [success] exactly when every plugin either has the status
    [success] or has no node scheduled and no pod unavailable.  A plugin
    with no node scheduled, which [pluginStatusToStatus] reports as a
    warning, therefore does not turn the chip to [warning]. *)
Theorem badgeStatus_success (devicePlugins : list GpuDevicePlugin) :
  Forall plausible devicePlugins ->
  (badgeStatus devicePlugins = success <->
   Forall (fun p => pluginStatusToStatus p = success \/
                    (statusField p desiredNumberScheduled = 0 /\
                     statusField p numberUnavailable <= 0)) devicePlugins).
Proof.
  unfold badgeStatus, hasUnhealthyPlugin.
  induction 1 as [| p ps Hp _ IH]; simpl.
  - split; [constructor | done].
  - destruct (isUnhealthy p) eqn:Hu; simpl.
    + split; [done |]. intros Hall. apply Forall_cons in Hall as [H1 _].
      apply (isUnhealthy_status p Hp) in H1. congruence.
    + rewrite IH. split.
      * intros Hall. constructor; [| done]. by apply (isUnhealthy_status p Hp).
      * intros Hall. by apply Forall_cons in Hall as [_ H2].
Qed.

Lemma badgeStatus_success_witness :
  Forall plausible [mkPlugin (Some 0) None None; mkPlugin (Some 3) (Some 3) None] /\
  badgeStatus [mkPlugin (Some 0) None None; mkPlugin (Some 3) (Some 3) None]
    = success /\
  pluginStatusToStatus (mkPlugin (Some 0) None None) = warning.
Proof.
  assert (H : Forall plausible
    [mkPlugin (Some 0) None None; mkPlugin (Some 3) (Some 3) None]).
  { repeat constructor; vm_compute; congruence. }
  split; [exact H |]. split; [| reflexivity].
  apply (proj2 (badgeStatus_success _ H)).
  constructor; [| constructor; [| constructor]].
  - right. split; vm_compute; congruence.
  - left. reflexivity.
Defined.

(** ** formatGpuResourceName *)

Lemma removeFirst_prefix (p rest : string) :
  removeFirst p (p ++ rest) = rest.
Proof.
  assert (Hs : startsWith p (p ++ rest) = true)
    by (apply startsWith_app; by exists rest).
  remember (p ++ rest)%string as s eqn:E.
  destruct s as [| c r]; cbn [removeFirst]; rewrite Hs, E;
    apply sliceFrom_app.
Qed.

(** X16. For a resource key that extends [gpu.intel.com/], as every key of
    [getGpuResources] does, [formatGpuResourceName] looks up the rest of
    the key: the five known names give their display text, any other name
    is returned unchanged, except that a name every object inherits
    ([constructor], [toString], ...) yields the inherited member of the
    table, which is not a string. *)
Theorem formatGpuResourceName_prefixed (rest : string) :
  formatGpuResourceName (INTEL_GPU_RESOURCE_PREFIX ++ rest) =
    (match friendlyNames !! rest with
     | Some friendly => Text friendly
     | None => if isInherited rest then Inherited rest else Text rest
     end) /\
  (forall resources key value,
     getGpuResources resources !! key = Some value ->
     exists rest', key = (INTEL_GPU_RESOURCE_PREFIX ++ rest')%string /\
       formatGpuResourceName key =
         match friendlyNames !! rest' with
         | Some friendly => Text friendly
         | None => if isInherited rest' then Inherited rest' else Text rest'
         end) /\
  map formatGpuResourceName
    [INTEL_GPU_RESOURCE; INTEL_GPU_XE_RESOURCE; INTEL_GPU_MILLICORES_RESOURCE;
     INTEL_GPU_MEMORY_RESOURCE; "gpu.intel.com/tiles"; "gpu.intel.com/vf";
     "cpu"; "gpu.intel.com/constructor"]
  = [Text "GPU (i915)"; Text "GPU (Xe)"; Text "GPU Millicores";
     Text "GPU Memory (max)"; Text "GPU Tiles"; Text "vf"; Text "cpu";
     Inherited "constructor"].
Proof.
  assert (H : forall rest,
    formatGpuResourceName (INTEL_GPU_RESOURCE_PREFIX ++ rest) =
      match friendlyNames !! rest with
      | Some friendly => Text friendly
      | None => if isInherited rest then Inherited rest else Text rest
      end).
  { intros r. unfold formatGpuResourceName. by rewrite removeFirst_prefix. }
  split; [apply H |]. split; [| vm_compute; reflexivity].
  intros resources key value Hv.
  rewrite getGpuResources_lookup in Hv.
  destruct (default ∅ resources !! key) as [[v |] |]; try discriminate Hv.
  destruct (startsWith _ key) eqn:Hp; [| discriminate Hv].
  apply startsWith_app in Hp as [rest' ->]. exists rest'. split; [done |].
  apply H.
Qed.

End StatusProofs.

(* ===================================================================== *)
(** * Further properties of the plugin-pod de-duplication *)
(* ===================================================================== *)

Module DedupInvariants.
Import JS K8s IntelGpuDataContext StringFacts DedupProofs.
Local Open Scope list_scope.

Lemma keepFresh_idempotent (pods : list IntelGpuPod) (seen : gset string) :
  keepFresh seen (keepFresh seen pods) = keepFresh seen pods.
Proof.
  revert seen. induction pods as [| p pods IH]; intros seen; simpl; [done |].
  destruct (uid (pod_metadata p)) as [u |] eqn:Hu; [| apply IH].
  destruct (isEmpty u || bool_decide (u ∈ seen)) eqn:Hs; [apply IH |].
  simpl. rewrite Hu, Hs. f_equal. apply IH.
Qed.

Lemma keepFresh_NoDup (pods : list IntelGpuPod) (seen : gset string) :
  NoDup (map (fun p => uid (pod_metadata p)) (keepFresh seen pods)).
Proof.
  revert seen. induction pods as [| p pods IH]; intros seen; simpl;
    [constructor |].
  destruct (uid (pod_metadata p)) as [u |] eqn:Hu; [| apply IH].
  destruct (isEmpty u || bool_decide (u ∈ seen)) eqn:Hs; [apply IH |].
  simpl. apply NoDup_cons. split; [| apply IH].
  rewrite Hu. intros Hin. apply list_elem_of_In, in_map_iff in Hin
    as (q & Hq & Hin).
  apply keepFresh_uid in Hin as (u' & Hu' & _ & Hnot).
  rewrite Hu' in Hq. injection Hq as ->.
  apply Hnot. apply elem_of_union_l. by apply elem_of_singleton.
Qed.

(** X17. The de-duplication is idempotent, and the pods it keeps carry
    pairwise different UIDs: running the filter on its own result changes
    nothing, and the merged list is never longer than the concatenation of
    the query results. *)
Theorem uniquePluginPods_idempotent (foundPluginPods : list IntelGpuPod) :
  uniquePluginPods (uniquePluginPods foundPluginPods)
    = uniquePluginPods foundPluginPods /\
  NoDup (map (fun p => uid (pod_metadata p)) (uniquePluginPods foundPluginPods)) /\
  (List.length (uniquePluginPods foundPluginPods)
   <= List.length foundPluginPods)%nat.
Proof.
  rewrite !uniquePluginPods_keepFresh. split; [apply keepFresh_idempotent |].
  split; [apply keepFresh_NoDup |].
  apply sublist_length, keepFresh_sublist.
Qed.

End DedupInvariants.

(* ===================================================================== *)
(** * Further properties of the Prometheus text parser *)
(* ===================================================================== *)

Module ParserProofs.
Import JS Metrics StringFacts FloatFacts MetricsProofs.
Local Open Scope list_scope.

(** ** The families of a text *)

Lemma samplesOf_app (metricName : string) (l1 l2 : list string) :
  samplesOf metricName (l1 ++ l2)
  = samplesOf metricName l1 ++ samplesOf metricName l2.
Proof. unfold samplesOf. apply omap_app. Qed.

Lemma createdAt_nonempty lines metricName fam :
  createdAt lines metricName fam -> samplesOf metricName lines <> [].
Proof.
  intros (pre & rawLine & post & -> & _ & [s Hs] & _).
  rewrite samplesOf_app. unfold samplesOf at 2. simpl. rewrite Hs.
  by destruct (samplesOf metricName pre).
Qed.

(** X18. The map [parsePrometheusText] returns has a family for a name
    exactly when some line of the text yields a finite sample for that
    name; the family is stored under its own name and holds the samples of
    those lines, all of them and in line order, whatever metadata lines
    stand between them.  No family is empty. *)
Theorem parsePrometheusText_families (text metricName : string) :
  let lines := split "010"%char text in
  match parsePrometheusText text !! metricName with
  | None => samplesOf metricName lines = []
  | Some fam =>
      name fam = metricName /\
      samples fam = samplesOf metricName lines /\
      samples fam <> []
  end.
Proof.
  intros lines. subst lines. unfold parsePrometheusText.
  pose proof (parseLines_family (split "010"%char text) metricName) as H.
  destruct (families (parseLines (split "010"%char text)) !! metricName)
    as [fam |]; [| done].
  destruct H as (Hn & Hs & Hc). split; [done |]. split; [done |].
  rewrite Hs. by apply (createdAt_nonempty _ _ fam).
Qed.

(** ** Text that arrives later *)

Lemma parseLine_grows (st : ParserState) (rawLine metricName : string)
    (fam : MetricFamily) :
  families st !! metricName = Some fam ->
  exists fam',
    families (parseLine st rawLine) !! metricName = Some fam' /\
    name fam' = name fam /\ help fam' = help fam /\ type fam' = type fam /\
    samples fam' = samples fam ++
      match sampleFor metricName rawLine with Some s => [s] | None => [] end.
Proof.
  intros Hf. rewrite parseLine_cases. unfold sampleFor.
  destruct (helpOfLine rawLine) as [[n h] |] eqn:Hh.
  { rewrite (helpOfLine_no_sample rawLine) by (by rewrite Hh). simpl.
    exists fam. by rewrite app_nil_r. }
  destruct (typeOfLine rawLine) as [[n t] |] eqn:Ht.
  { rewrite (typeOfLine_no_sample rawLine) by (by rewrite Ht). simpl.
    exists fam. by rewrite app_nil_r. }
  destruct (sampleOfLine rawLine) as [[n sample] |] eqn:Hs.
  2: { exists fam. by rewrite app_nil_r. }
  unfold pushSample. simpl.
  destruct (String.eqb_spec n metricName) as [-> | Hne].
  - rewrite lookup_insert_eq, Hf. by eexists.
  - rewrite lookup_insert_ne by done. exists fam. by rewrite app_nil_r.
Qed.

Lemma fold_parseLine_grows (lines : list string) (st : ParserState)
    (metricName : string) (fam : MetricFamily) :
  families st !! metricName = Some fam ->
  exists fam',
    families (fold_left parseLine lines st) !! metricName = Some fam' /\
    name fam' = name fam /\ help fam' = help fam /\ type fam' = type fam /\
    samples fam' = samples fam ++ samplesOf metricName lines.
Proof.
  revert st fam. induction lines as [| x lines IH]; intros st fam Hf; simpl.
  - exists fam. by rewrite app_nil_r.
  - destruct (parseLine_grows st x metricName fam Hf)
      as (fam1 & Hf1 & Hn1 & Hh1 & Ht1 & Hs1).
    destruct (IH _ _ Hf1) as (fam2 & Hf2 & Hn2 & Hh2 & Ht2 & Hs2).
    exists fam2. split; [done |].
    rewrite Hn2, Hh2, Ht2, Hs2, Hs1, <- app_assoc.
    repeat split; try done. f_equal. unfold samplesOf. simpl.
    by destruct (sampleFor metricName x).
Qed.

(** X19. Text appended after a line break never rewrites what was parsed
    before: a family present for the first part keeps its name, its help
    and its type, and its samples are extended by the samples the appended
    lines yield for it.  In particular [# HELP] and [# TYPE] lines that
    come after the first sample of a family have no effect on it. *)
Theorem parsePrometheusText_append (text more metricName : string)
    (fam : MetricFamily) :
  parsePrometheusText text !! metricName = Some fam ->
  exists fam',
    parsePrometheusText (text ++ newline ++ more)%string !! metricName
      = Some fam' /\
    name fam' = name fam /\ help fam' = help fam /\ type fam' = type fam /\
    samples fam' =
      samples fam ++ samplesOf metricName (split "010"%char more).
Proof.
  unfold parsePrometheusText. intros Hf.
  change (text +:+ newline +:+ more)
    with (text +:+ String "010"%char more).
  rewrite split_app. unfold parseLines. rewrite fold_left_app.
  by apply fold_parseLine_grows.
Qed.

Lemma parsePrometheusText_append_witness :
  parsePrometheusText mixedMetadataText !! "foo" = Some fooFamily /\
  exists fam',
    parsePrometheusText
      (mixedMetadataText ++ newline ++ "# HELP foo other"
       ++ newline ++ "foo 2")%string !! "foo"
      = Some fam' /\
    name fam' = name fooFamily /\ help fam' = help fooFamily /\
    type fam' = type fooFamily /\
    samples fam' =
      samples fooFamily ++
      samplesOf "foo" (split "010"%char
                         ("# HELP foo other" ++ newline ++ "foo 2")%string).
Proof.
  assert (H : parsePrometheusText mixedMetadataText !! "foo" = Some fooFamily)
    by (vm_compute; reflexivity).
  split; [exact H |].
  exact (parsePrometheusText_append mixedMetadataText
           ("# HELP foo other" ++ newline ++ "foo 2")%string "foo" fooFamily H).
Defined.

End ParserProofs.

(* ===================================================================== *)
(** * Reading back what the exposition format writes *)
(* ===================================================================== *)

Module ExpositionProofs.
Import JS Metrics Exposition StringFacts ConcatFacts MetricsProofs.

(** ** Scanning a concatenation *)

Lemma span_app (p : ascii -> bool) (a rest : string) :
  allChars p a = true ->
  match rest with String c _ => p c = false | EmptyString => True end ->
  span p (a ++ rest) = (a, rest).
Proof.
  intros Ha Hr. induction a as [| x a IH].
  - rewrite app_empty. destruct rest as [| c r]; simpl; [done |]. by rewrite Hr.
  - simpl in Ha. apply andb_prop in Ha as [Hx Ha].
    rewrite app_cons. simpl. by rewrite Hx, (IH Ha).
Qed.

Lemma skip_app (a rest : string) (labels : gmap string string) :
  parseLabelsFrom (String.length a) (a ++ rest) labels
  = parseLabelsFrom O rest labels.
Proof.
  induction a as [| x a IH].
  - rewrite app_empty. by destruct rest.
  - rewrite app_cons. simpl. apply IH.
Qed.

(** ** parseLabels *)

Lemma matchLabelPair_render (k v rest : string) :
  isEmpty k = false -> allChars isWord k = true -> validValue v = true ->
  matchLabelPair (renderPair (k, v) ++ rest)
  = Some (k, v, (String.length k + 2 + String.length v + 1)%nat).
Proof.
  intros Hk Hw Hv. unfold matchLabelPair, renderPair, dq. simpl fst. simpl snd.
  rewrite !app_assoc_string, !app_cons, !app_empty.
  rewrite (span_app isWord k) by done. rewrite Hk.
  rewrite (span_app _ v) by (done || by rewrite ?Ascii.eqb_refl).
  reflexivity.
Qed.

Lemma parseLabelsFrom_pair (k v rest : string) (labels : gmap string string) :
  validPair (k, v) = true ->
  parseLabelsFrom O (renderPair (k, v) ++ rest) labels
  = parseLabelsFrom O rest (<[k := v]> labels).
Proof.
  unfold validPair, validKey. simpl fst. simpl snd.
  intros [[[Hk Hw]%andb_prop Hp]%andb_prop Hv]%andb_prop.
  apply negb_true_iff in Hk. apply negb_true_iff in Hp.
  pose proof (matchLabelPair_render k v rest Hk Hw Hv) as Hm.
  assert (Hlen : String.length (renderPair (k, v))
                 = (String.length k + 2 + String.length v + 1)%nat).
  { unfold renderPair, dq. simpl fst. simpl snd.
    rewrite !length_app. simpl. lia. }
  destruct (renderPair (k, v)) as [| c body] eqn:E.
  { destruct k; [discriminate Hk | discriminate E]. }
  rewrite app_cons in *. simpl parseLabelsFrom. rewrite Hm, Hk.
  cbn [negb]. unfold setLabel. rewrite Hp.
  simpl in Hlen. rewrite <- Hlen.
  replace (S (String.length body) - 1)%nat with (String.length body) by lia.
  apply skip_app.
Qed.

Lemma parseLabelsFrom_comma (rest : string) (labels : gmap string string) :
  parseLabelsFrom O ("," ++ rest) labels = parseLabelsFrom O rest labels.
Proof. reflexivity. Qed.

Lemma parseLabelsFrom_render (pairs : list (string * string)) (rest : string)
    (labels : gmap string string) :
  forallb validPair pairs = true ->
  parseLabelsFrom O (renderLabels pairs ++ rest) labels
  = parseLabelsFrom O rest
      (fold_left (fun m kv => <[fst kv := snd kv]> m) pairs labels).
Proof.
  revert labels. induction pairs as [| [k v] pairs IH]; intros labels Hv.
  - by rewrite app_empty.
  - simpl in Hv. apply andb_prop in Hv as [Hkv Hv].
    cbn [renderLabels fold_left]. rewrite app_assoc_string.
    rewrite parseLabelsFrom_pair by done. simpl fst. simpl snd.
    destruct pairs as [| kv' pairs'].
    + by rewrite app_empty.
    + rewrite app_assoc_string, parseLabelsFrom_comma. by apply IH.
Qed.

Lemma parseLabels_render (pairs : list (string * string)) :
  forallb validPair pairs = true ->
  parseLabels (renderLabels pairs) = labelsOf pairs.
Proof.
  intros Hv. unfold parseLabels, labelsOf.
  transitivity (parseLabelsFrom O (renderLabels pairs ++ "") ∅).
  - f_equal. induction (renderLabels pairs) as [| c s IH]; [done |].
    by rewrite app_cons, <- IH.
  - by rewrite parseLabelsFrom_render.
Qed.

(** X20. [parseLabels] reads back what the exposition format writes: for
    label pairs whose keys are non-empty words other than [__proto__] and
    whose values hold no double quote, parsing the comma-separated
    [key="value"] text gives the object with exactly these labels, a later
    pair replacing an earlier one with the same key. *)
Theorem parseLabels_round_trip (pairs : list (string * string)) :
  forallb validPair pairs = true ->
  parseLabels (renderLabels pairs) = labelsOf pairs /\
  (forall k v, NoDup (map fst pairs) -> In (k, v) pairs ->
     parseLabels (renderLabels pairs) !! k = Some v).
Proof.
  intros Hv. rewrite (parseLabels_render pairs Hv). split; [done |].
  unfold labelsOf. intros k v.
  assert (H : forall m : gmap string string,
    NoDup (map fst pairs) -> In (k, v) pairs ->
    fold_left (fun m kv => <[fst kv := snd kv]> m) pairs m !! k = Some v).
  { clear Hv. induction pairs as [| [k0 v0] pairs IH]; intros m Hnd Hin;
      [done |].
    apply NoDup_cons in Hnd as [Hk0 Hnd]. simpl.
    destruct Hin as [[= -> ->] | Hin]; [| by apply IH].
    assert (Hkeep : forall m' : gmap string string, m' !! k = Some v ->
      fold_left (fun m kv => <[fst kv := snd kv]> m) pairs m' !! k = Some v).
    { clear IH Hnd. induction pairs as [| [k1 v1] pairs IH]; intros m' Hm';
        [done |].
      simpl. apply IH.
      - intros Hin. apply Hk0. simpl. by right.
      - rewrite lookup_insert_ne; [done |].
        intros ->. apply Hk0. simpl. by left. }
    apply Hkeep. apply lookup_insert_eq. }
  apply H.
Qed.

Lemma parseLabels_round_trip_witness :
  forallb validPair [("card", "card0"); ("engine", "render/0")] = true /\
  parseLabels (renderLabels [("card", "card0"); ("engine", "render/0")])
    = labelsOf [("card", "card0"); ("engine", "render/0")].
Proof.
  split; [reflexivity |].
  exact (proj1 (parseLabels_round_trip
                  [("card", "card0"); ("engine", "render/0")] eq_refl)).
Defined.

(** ** A sample line *)

Lemma allChars_impl (p q : ascii -> bool) (s : string) :
  (forall c, p c = true -> q c = true) ->
  allChars p s = true -> allChars q s = true.
Proof.
  intros Hpq. induction s as [| c s IH]; simpl; [done |].
  intros [Hc Hs]%andb_prop. by rewrite (Hpq c Hc), IH.
Qed.

Lemma allChars_app (p : ascii -> bool) (a b : string) :
  allChars p (a ++ b) = allChars p a && allChars p b.
Proof.
  induction a as [| c a IH]; [done |].
  rewrite app_cons. simpl. by rewrite IH, andb_assoc.
Qed.

Lemma indexOf_none (c : ascii) (s : string) :
  allChars (notChar c) s = true -> indexOf c s = None.
Proof.
  induction s as [| a s IH]; simpl; [done |].
  unfold notChar at 1. intros [Ha Hs]%andb_prop.
  apply negb_true_iff in Ha. by rewrite Ha, IH.
Qed.

Lemma lastIndexOf_none (c : ascii) (s : string) :
  allChars (notChar c) s = true -> lastIndexOf c s = None.
Proof.
  induction s as [| a s IH]; simpl; [done |].
  unfold notChar at 1. intros [Ha Hs]%andb_prop.
  apply negb_true_iff in Ha. by rewrite Ha, IH.
Qed.

Lemma indexOf_app (c : ascii) (a r : string) :
  allChars (notChar c) a = true ->
  indexOf c (a ++ String c r) = Some (String.length a).
Proof.
  induction a as [| x a IH].
  - intros _. rewrite app_empty. simpl. by rewrite Ascii.eqb_refl.
  - simpl. unfold notChar at 1. intros [Hx Ha]%andb_prop.
    apply negb_true_iff in Hx. rewrite ?app_cons. simpl.
    by rewrite Hx, IH.
Qed.

Lemma lastIndexOf_app (c : ascii) (a b : string) :
  allChars (notChar c) b = true ->
  lastIndexOf c (a ++ String c b) = Some (String.length a).
Proof.
  intros Hb. induction a as [| x a IH].
  - rewrite app_empty. simpl.
    by rewrite (lastIndexOf_none _ _ Hb), Ascii.eqb_refl.
  - rewrite app_cons. simpl. by rewrite IH.
Qed.

Lemma trimEnd_plain (s : string) :
  allChars (fun c => negb (isWhite c)) s = true -> trimEnd s = s.
Proof.
  induction s as [| c s IH]; simpl; [done |].
  intros [Hc Hs]%andb_prop. apply negb_true_iff in Hc.
  by rewrite Hc, IH.
Qed.

Lemma trimEnd_app (a b : string) :
  isEmpty b = false ->
  allChars (fun c => negb (isWhite c)) b = true ->
  trimEnd (a ++ b) = (a ++ b)%string.
Proof.
  intros Hb Hw. induction a as [| x a IH].
  - rewrite app_empty. by apply trimEnd_plain.
  - rewrite app_cons. simpl. rewrite IH.
    replace (isEmpty (a ++ b)) with false; [by rewrite andb_false_r |].
    destruct a; [by rewrite app_empty | done].
Qed.

Lemma trimStart_plain (c : ascii) (s : string) :
  isWhite c = false -> trimStart (String c s) = String c s.
Proof. intros Hc. simpl. by rewrite Hc. Qed.

(** The three hypotheses on a name, unpacked. *)
Lemma validName_head (n : string) :
  validName n = true ->
  exists c r, n = String c r /\ isWhite c = false /\ c <> "#"%char /\
    allChars (notChar "{"%char) n = true.
Proof.
  unfold validName. intros [[Hn Hh]%andb_prop Ha]%andb_prop.
  destruct n as [| c r]; [discriminate Hn |]. exists c, r.
  split; [done |].
  assert (Hb : allChars (notChar "{"%char) (String c r) = true).
  { revert Ha. apply allChars_impl. by intros a [_ ?]%andb_prop. }
  simpl in Ha. apply andb_prop in Ha as [[Hw _]%andb_prop _].
  apply negb_true_iff in Hw. split; [done |]. split; [| done].
  intros ->. apply negb_true_iff in Hh.
  assert (startsWith "#" (String "#"%char r) = true)
    by (apply startsWith_app; by exists r).
  congruence.
Qed.

Lemma validToken_plain (tok : string) :
  validToken tok = true ->
  isEmpty tok = false /\
  allChars (fun c => negb (isWhite c)) tok = true /\
  allChars (notChar "}"%char) tok = true /\
  allChars (notChar " "%char) tok = true.
Proof.
  unfold validToken. intros [Hn Ha]%andb_prop.
  apply negb_true_iff in Hn. split; [done |]. repeat split.
  - revert Ha. apply allChars_impl. by intros a [? _]%andb_prop.
  - revert Ha. apply allChars_impl. by intros a [_ ?]%andb_prop.
  - revert Ha. apply allChars_impl. intros a [Hw _]%andb_prop.
    unfold notChar. destruct (Ascii.eqb_spec a " "%char) as [-> | _]; done.
Qed.

Lemma renderSample_trim (metricName : string) (pairs : list (string * string))
    (tok : string) :
  validName metricName = true -> validToken tok = true ->
  trim (renderSample metricName pairs tok) = renderSample metricName pairs tok.
Proof.
  intros (c & r & -> & Hw & _)%validName_head
         (Hn & Hp & _)%validToken_plain.
  unfold trim, renderSample. rewrite app_cons, trimStart_plain by done.
  rewrite <- app_cons.
  rewrite <- !app_assoc_string. by apply trimEnd_app.
Qed.

Lemma splitDataLine_render (metricName : string)
    (pairs : list (string * string)) (tok : string) :
  validName metricName = true -> validToken tok = true ->
  splitDataLine (renderSample metricName pairs tok)
  = Some (metricName, parseLabels (renderLabels pairs), tok).
Proof.
  intros (c & r & E & _ & _ & Hb)%validName_head
         (Hn & Hp & Hc & Hs)%validToken_plain.
  clear E c r. unfold splitDataLine, renderSample.
  set (L := renderLabels pairs).
  assert (Ho : indexOf "{"%char (metricName ++ "{" ++ L ++ "} " ++ tok)
               = Some (String.length metricName)).
  { change ("{" ++ L ++ "} " ++ tok)%string
      with (String "{"%char (L ++ "} " ++ tok)).
    by apply indexOf_app. }
  assert (Hcl : lastIndexOf "}"%char (metricName ++ "{" ++ L ++ "} " ++ tok)
                = Some (String.length (metricName ++ "{" ++ L))).
  { replace (metricName ++ "{" ++ L ++ "} " ++ tok)%string
      with ((metricName ++ "{" ++ L) ++ String "}"%char (" " ++ tok))%string
      by (by rewrite !app_assoc_string).
    apply lastIndexOf_app. rewrite app_cons, app_empty. simpl. exact Hc. }
  rewrite Ho, Hcl, !length_app.
  change (String.length "{") with 1%nat.
  replace (String.length metricName <? String.length metricName
             + (1 + String.length L))%nat with true
    by (symmetry; apply Nat.ltb_lt; lia).
  f_equal. f_equal; [f_equal |].
  - unfold slice. rewrite Nat.sub_0_r. simpl sliceFrom. apply sliceTo_app.
  - f_equal. unfold slice.
    replace (String.length metricName + 1)%nat
      with (String.length (metricName ++ "{")) by (by rewrite length_app).
    rewrite <- app_assoc_string, sliceFrom_app.
    replace (String.length metricName + (1 + String.length L)
             - String.length (metricName ++ "{"))%nat
      with (String.length L) by (rewrite length_app; simpl; lia).
    apply sliceTo_app.
  - replace (String.length metricName + (1 + String.length L) + 1)%nat
      with (String.length (metricName ++ "{" ++ L ++ "}"))
      by (rewrite !length_app; simpl; lia).
    replace (metricName ++ "{" ++ L ++ "} " ++ tok)%string
      with ((metricName ++ "{" ++ L ++ "}") ++ " " ++ tok)%string
      by (by rewrite !app_assoc_string).
    rewrite sliceFrom_app. unfold trim. rewrite app_cons, app_empty.
    destruct tok as [| t tok']; [discriminate Hn |].
    simpl in Hp. apply andb_prop in Hp as [Ht Hp'].
    apply negb_true_iff in Ht.
    change (trimStart (String " " (String t tok')))
      with (trimStart (String t tok')).
    rewrite trimStart_plain by done. apply trimEnd_plain.
    simpl. by rewrite Ht, Hp'.
Qed.

Lemma renderSample_not_comment (metricName : string)
    (pairs : list (string * string)) (tok : string) :
  validName metricName = true ->
  isEmpty (renderSample metricName pairs tok) = false /\
  startsWith "#" (renderSample metricName pairs tok) = false.
Proof.
  intros (c & r & -> & _ & Hc & _)%validName_head.
  unfold renderSample. rewrite app_cons. split; [done |].
  destruct (startsWith "#" _) eqn:E; [| done].
  apply startsWith_app in E as [rest E]. rewrite app_cons, app_empty in E.
  by injection E as -> _.
Qed.

Lemma sampleOfLine_render (metricName : string)
    (pairs : list (string * string)) (tok : string) :
  validName metricName = true -> forallb validPair pairs = true ->
  validToken tok = true ->
  sampleOfLine (renderSample metricName pairs tok) =
    if isFinite (parseFloat tok)
    then Some (metricName,
               {| labels := labelsOf pairs; value := parseFloat tok |})
    else None.
Proof.
  intros Hname Hpairs Htok. unfold sampleOfLine.
  rewrite renderSample_trim by done.
  destruct (renderSample_not_comment metricName pairs tok Hname) as [-> ->].
  cbn [orb]. rewrite splitDataLine_render, parseLabels_render by done.
  destruct (validToken_plain tok Htok) as (_ & _ & _ & Hs).
  unfold valueToken. by rewrite (split_single _ _ (indexOf_none _ _ Hs)).
Qed.

Lemma indexOf_app_none (c : ascii) (a b : string) :
  indexOf c a = None -> indexOf c b = None -> indexOf c (a ++ b) = None.
Proof.
  intros Ha Hb. induction a as [| x a IH]; [by rewrite app_empty |].
  rewrite app_cons. simpl in *. destruct (Ascii.eqb x c); [done |].
  destruct (indexOf c a); [done |]. by rewrite IH.
Qed.

(** X21. The parser reads back a sample line of the exposition format:
    for a metric name without white space or an opening brace that does
    not start a comment, valid label pairs, and a value token without
    white space or a closing brace, the line [name{labels} token] yields
    the metric name, the labels (values may hold braces, commas and
    spaces) and the number the token denotes, or nothing when the token
    is not a finite number; a text that consists of such a line with a
    finite value parses to exactly one family with one sample and empty
    help and type. *)
Theorem renderSample_round_trip (metricName : string)
    (pairs : list (string * string)) (tok : string) :
  validName metricName = true -> forallb validPair pairs = true ->
  validToken tok = true ->
  sampleOfLine (renderSample metricName pairs tok) =
    (if isFinite (parseFloat tok)
     then Some (metricName,
                {| labels := labelsOf pairs; value := parseFloat tok |})
     else None) /\
  (indexOf "010"%char (renderLabels pairs) = None ->
   isFinite (parseFloat tok) = true ->
   parsePrometheusText (renderSample metricName pairs tok) =
     {[ metricName :=
          {| name := metricName; help := ""; type := "";
             samples := [{| labels := labelsOf pairs;
                            value := parseFloat tok |}] |} ]}).
Proof.
  intros Hname Hpairs Htok.
  pose proof (sampleOfLine_render _ _ _ Hname Hpairs Htok) as Hs.
  split; [exact Hs |]. intros Hnl Hfin. rewrite Hfin in Hs.
  unfold parsePrometheusText.
  assert (Hline : indexOf "010"%char (renderSample metricName pairs tok) = None).
  { unfold renderSample.
    destruct (validToken_plain tok Htok) as (_ & Hw & _ & _).
    unfold validName in Hname. apply andb_prop in Hname as [_ Hn].
    repeat apply indexOf_app_none; try done.
    - apply indexOf_none. revert Hn. apply allChars_impl.
      intros a [Ha _]%andb_prop. unfold notChar.
      by destruct (Ascii.eqb_spec a "010"%char) as [-> | _].
    - apply indexOf_none. revert Hw. apply allChars_impl.
      intros a Ha. unfold notChar.
      by destruct (Ascii.eqb_spec a "010"%char) as [-> | _]. }
  rewrite (split_single _ _ Hline). unfold parseLines. simpl fold_left.
  rewrite parseLine_cases, Hs.
  destruct (renderSample_not_comment metricName pairs tok Hname) as [_ Hc].
  assert (Hh : helpOfLine (renderSample metricName pairs tok) = None).
  { unfold helpOfLine. rewrite renderSample_trim by done.
    destruct (startsWith "# HELP " _) eqn:E; [| done].
    apply startsWith_hash in E as [E _]. congruence. }
  assert (Ht : typeOfLine (renderSample metricName pairs tok) = None).
  { unfold typeOfLine. rewrite renderSample_trim by done.
    destruct (startsWith "# TYPE " _) eqn:E; [| done].
    apply startsWith_hash in E as [E _]. congruence. }
  rewrite Hh, Ht. unfold pushSample, initialState. simpl.
  rewrite lookup_empty. simpl.
  rewrite insert_empty. by destruct (String.eqb metricName "").
Qed.

Lemma renderSample_round_trip_witness :
  sampleOfLine exampleSampleLine =
    (if isFinite (parseFloat "50")
     then Some (ACTIVE_TICKS,
                {| labels := labelsOf [("card", "card0"); ("engine", "render/0")];
                   value := parseFloat "50" |})
     else None) /\
  isFinite (parseFloat "50") = true.
Proof.
  split; [| reflexivity].
  exact (proj1 (renderSample_round_trip ACTIVE_TICKS
                  [("card", "card0"); ("engine", "render/0")] "50"
                  eq_refl eq_refl eq_refl)).
Defined.

(** ** What parseLabels returns for any input *)

Lemma span_all (p : ascii -> bool) (s a b : string) :
  span p s = (a, b) -> allChars p a = true /\ s = (a ++ b)%string.
Proof.
  revert a b. induction s as [| c s IH]; intros a b; simpl.
  - by intros [= <- <-].
  - destruct (p c) eqn:Hc.
    + destruct (span p s) as [h t]. intros [= <- <-].
      destruct (IH h t eq_refl) as [Hh ->]. simpl. by rewrite Hc, Hh.
    + by intros [= <- <-].
Qed.

Lemma matchLabelPair_valid (s k v : string) (n : nat) :
  matchLabelPair s = Some (k, v, n) ->
  isEmpty k = false /\ allChars isWord k = true /\ validValue v = true /\
  allChars (notChar "034"%char) s = false.
Proof.
  unfold matchLabelPair.
  destruct (span isWord s) as [key r1] eqn:E1.
  apply span_all in E1 as [Hkey ->].
  destruct (isEmpty key) eqn:Hk; [done |].
  destruct r1 as [| c1 rest]; [done |].
  destruct c1 as [[] [] [] [] [] [] [] []]; try done;
    destruct rest as [| c2 r2]; try done;
    destruct c2 as [[] [] [] [] [] [] [] []]; try done.
  destruct (span _ r2) as [val r3] eqn:E2.
  apply span_all in E2 as [Hval ->].
  destruct r3; [done |]. intros [= <- <- _].
  repeat split; try done.
  rewrite allChars_app. simpl. by rewrite andb_false_r.
Qed.

Lemma parseLabelsFrom_valid (s : string) (skip : nat)
    (labels : gmap string string) :
  (forall k v, labels !! k = Some v -> validPair (k, v) = true) ->
  forall k v, parseLabelsFrom skip s labels !! k = Some v ->
              validPair (k, v) = true.
Proof.
  revert skip labels. induction s as [| c s IH]; intros skip labels Hl;
    [exact Hl |].
  cbn [parseLabelsFrom]. destruct skip as [| n]; [| by apply IH].
  destruct (matchLabelPair (String c s)) as [[[key val] len] |] eqn:Hm;
    [| by apply IH].
  apply IH. apply matchLabelPair_valid in Hm as (Hk & Hw & Hv & _).
  rewrite Hk. cbn [negb]. unfold setLabel.
  destruct (String.eqb_spec key "__proto__") as [-> | Hp]; [exact Hl |].
  intros k v. destruct (String.eqb_spec key k) as [<- | Hne].
  - rewrite lookup_insert_eq. intros [= <-].
    unfold validPair, validKey. simpl. rewrite Hk, Hw, Hv.
    by apply String.eqb_neq in Hp as ->.
  - rewrite lookup_insert_ne by done. apply Hl.
Qed.

Lemma parseLabelsFrom_no_quote (s : string) (skip : nat)
    (labels : gmap string string) :
  allChars (notChar "034"%char) s = true ->
  parseLabelsFrom skip s labels = labels.
Proof.
  revert skip. induction s as [| c s IH]; intros skip Hs; [done |].
  cbn [parseLabelsFrom].
  assert (Hs' : allChars (notChar "034"%char) s = true)
    by (simpl in Hs; by apply andb_prop in Hs as [_ ?]).
  destruct skip as [| n]; [| by apply IH].
  destruct (matchLabelPair (String c s)) as [[[key val] len] |] eqn:Hm;
    [| by apply IH].
  apply matchLabelPair_valid in Hm as (_ & _ & _ & Hq). congruence.
Qed.

(** X27. Whatever string [parseLabels] is given, every label it returns
    has a key that is a non-empty word other than [__proto__] and a value
    without a double quote; a string without any double quote (for
    instance unquoted [key=value] pairs) gives no label at all. *)
Theorem parseLabels_valid (labelStr k v : string) :
  parseLabels labelStr !! k = Some v ->
  validPair (k, v) = true /\
  (forall s, allChars (notChar "034"%char) s = true -> parseLabels s = ∅).
Proof.
  intros H. split.
  - revert H. apply parseLabelsFrom_valid. intros k' v'.
    by rewrite lookup_empty.
  - intros s Hs. by apply parseLabelsFrom_no_quote.
Qed.

Lemma parseLabels_valid_witness :
  parseLabels (renderLabels [("card", "card0")]) !! "card" = Some "card0" /\
  validPair ("card", "card0") = true.
Proof.
  assert (H : parseLabels (renderLabels [("card", "card0")]) !! "card"
              = Some "card0") by (vm_compute; reflexivity).
  split; [exact H |].
  exact (proj1 (parseLabels_valid _ _ _ H)).
Defined.

(** ** White space around lines *)

Lemma trimStart_white (w s : string) :
  allChars isWhite w = true -> trimStart (w ++ s) = trimStart s.
Proof.
  induction w as [| c w IH]; [done |]. simpl.
  intros [Hc Hw]%andb_prop. rewrite Hc. by apply IH.
Qed.

Lemma trimEnd_white (w : string) :
  allChars isWhite w = true -> trimEnd w = "".
Proof.
  induction w as [| c w IH]; [done |]. simpl.
  intros [Hc Hw]%andb_prop. by rewrite (IH Hw), Hc.
Qed.

Lemma trimEnd_app_white (s w : string) :
  allChars isWhite w = true -> trimEnd (s ++ w) = trimEnd s.
Proof.
  intros Hw. induction s as [| c s IH].
  - rewrite app_empty. by apply trimEnd_white.
  - rewrite app_cons. simpl. by rewrite IH.
Qed.

Lemma trimStart_app (s w : string) :
  trimStart (s ++ w) =
    if isEmpty (trimStart s) then trimStart w else (trimStart s ++ w)%string.
Proof.
  induction s as [| c s IH]; [done |].
  rewrite app_cons. simpl. destruct (isWhite c); [apply IH | done].
Qed.

Lemma trim_white (pre line post : string) :
  allChars isWhite pre = true -> allChars isWhite post = true ->
  trim (pre ++ line ++ post) = trim line.
Proof.
  intros Hpre Hpost. unfold trim.
  rewrite trimStart_white by done. rewrite trimStart_app.
  destruct (isEmpty (trimStart line)) eqn:E.
  - apply isEmpty_true in E. rewrite E.
    rewrite <- (app_empty_r post), (trimStart_white post "") by done.
    reflexivity.
  - by rewrite trimEnd_app_white.
Qed.

Lemma parseLine_trim (st : ParserState) (a b : string) :
  trim a = trim b -> parseLine st a = parseLine st b.
Proof. intros H. unfold parseLine. by rewrite H. Qed.

Lemma parseLines_trim (l1 l2 : list string) :
  Forall2 (fun a b => trim a = trim b) l1 l2 -> parseLines l1 = parseLines l2.
Proof.
  intros H. unfold parseLines. generalize initialState.
  induction H as [| a b l1 l2 Hab _ IH]; intros st; [done |].
  simpl. rewrite (parseLine_trim st a b Hab). apply IH.
Qed.

Lemma joinLines_cons (sep l0 l1 : string) (rest : list string) :
  joinLines sep (l0 :: l1 :: rest)
  = (l0 ++ sep ++ joinLines sep (l1 :: rest))%string.
Proof. reflexivity. Qed.

Lemma split_joinLines (sep l0 : string) (lines : list string) :
  Forall (fun l => indexOf "010"%char l = None) (l0 :: lines) ->
  indexOf "010"%char sep = None ->
  split "010"%char (joinLines (sep ++ newline) (l0 :: lines))
  = withEnding sep (l0 :: lines).
Proof.
  intros Hall Hsep. revert l0 Hall.
  induction lines as [| l1 lines IH]; intros l0 Hall.
  - apply Forall_cons in Hall as [H0 _]. cbn [joinLines withEnding].
    rewrite app_empty_r. by apply split_single.
  - apply Forall_cons in Hall as [H0 Hall].
    rewrite joinLines_cons.
    replace (l0 ++ (sep ++ newline)
             ++ joinLines (sep ++ newline) (l1 :: lines))%string
      with ((l0 ++ sep)
            ++ String "010"%char (joinLines (sep ++ newline) (l1 :: lines)))%string
      by (rewrite !app_assoc_string; reflexivity).
    rewrite split_app, (split_single _ (l0 ++ sep))
      by (by apply indexOf_app_none).
    rewrite (IH l1 Hall). reflexivity.
Qed.

Lemma withEnding_trim (l0 : string) (lines : list string) :
  Forall2 (fun a b => trim a = trim b)
    (withEnding (String "013"%char "") (l0 :: lines))
    (withEnding "" (l0 :: lines)).
Proof.
  revert l0. induction lines as [| l1 lines IH]; intros l0.
  - by constructor.
  - cbn [withEnding]. constructor; [| apply IH].
    rewrite app_empty_r.
    apply (trim_white "" l0 (String "013"%char "")); reflexivity.
Qed.

(** X28. White space at the start or at the end of a line, such as
    indentation or the carriage return of a DOS line break, never changes
    what the line means; a text with carriage-return/line-feed line breaks
    therefore parses to the same families as the text with plain line
    feeds. *)
Theorem parsePrometheusText_crlf (lines : list string) :
  Forall (fun l => indexOf "010"%char l = None) lines ->
  parsePrometheusText (joinLines crlf lines)
    = parsePrometheusText (joinLines newline lines) /\
  (forall st pre line post,
     allChars isWhite pre = true -> allChars isWhite post = true ->
     parseLine st (pre ++ line ++ post) = parseLine st line).
Proof.
  intros Hall. split.
  2: { intros st pre line post Hpre Hpost.
       by apply parseLine_trim, trim_white. }
  unfold parsePrometheusText.
  destruct lines as [| l0 lines]; [done |].
  change crlf with (String "013"%char "" ++ newline)%string.
  change (joinLines newline (l0 :: lines))
    with (joinLines ("" ++ newline) (l0 :: lines)).
  rewrite !split_joinLines by done.
  f_equal. apply parseLines_trim, withEnding_trim.
Qed.

Lemma parsePrometheusText_crlf_witness :
  Forall (fun l => indexOf "010"%char l = None)
    ["# HELP foo number of foos"; "foo 1"] /\
  parsePrometheusText (joinLines crlf ["# HELP foo number of foos"; "foo 1"])
    = parsePrometheusText
        (joinLines newline ["# HELP foo number of foos"; "foo 1"]).
Proof.
  assert (H : Forall (fun l => indexOf "010"%char l = None)
                ["# HELP foo number of foos"; "foo 1"])
    by (repeat constructor).
  split; [exact H |].
  exact (proj1 (parsePrometheusText_crlf _ H)).
Defined.

(** ** A timestamp after the value *)

Lemma plainToken_plain (tok : string) :
  plainToken tok = true ->
  validToken tok = true /\ allChars (notChar "{"%char) tok = true.
Proof.
  unfold plainToken, validToken. intros [Hn Ha]%andb_prop. rewrite Hn. split.
  - simpl. revert Ha. apply allChars_impl.
    intros a [[-> _]%andb_prop ->]%andb_prop. done.
  - revert Ha. apply allChars_impl. by intros a [[_ ?]%andb_prop _]%andb_prop.
Qed.

Lemma bracelessStart_head (n : string) :
  bracelessStart n = true ->
  exists c r, n = String c r /\ isWhite c = false /\ c <> "#"%char /\
    allChars (notChar "{"%char) n = true.
Proof.
  unfold bracelessStart. intros [Hh Ha]%andb_prop.
  destruct n as [| c r]; [discriminate Hh |]. exists c, r.
  apply andb_prop in Hh as [Hw Hc]. apply negb_true_iff in Hw.
  repeat split; try done. intros ->. discriminate Hc.
Qed.

(** A line without an opening brace is cut at its last space. *)
Lemma sampleOfLine_braceless (n tok : string) :
  bracelessStart n = true -> plainToken tok = true ->
  sampleOfLine (n ++ " " ++ tok) =
    if isFinite (parseFloat tok)
    then Some (n, {| labels := ∅; value := parseFloat tok |})
    else None.
Proof.
  intros (c & r & Hn & Hw & Hc & Hb)%bracelessStart_head
         [(He & Hp & _ & Hs)%validToken_plain Hbt]%plainToken_plain.
  assert (Htrim : trim (n ++ " " ++ tok) = (n ++ " " ++ tok)%string).
  { unfold trim. rewrite Hn, app_cons, trimStart_plain by done.
    rewrite <- app_cons, <- Hn, <- app_assoc_string. by apply trimEnd_app. }
  assert (Hopen : indexOf "{"%char (n ++ " " ++ tok) = None).
  { apply indexOf_none. rewrite !allChars_app, Hb, Hbt. reflexivity. }
  assert (Hsp : lastIndexOf " "%char (n ++ " " ++ tok)
                = Some (String.length n)).
  { change (" " ++ tok)%string with (String " "%char tok).
    by apply lastIndexOf_app. }
  unfold sampleOfLine. rewrite Htrim.
  replace (isEmpty (n ++ " " ++ tok)) with false by (by rewrite Hn).
  replace (startsWith "#" (n ++ " " ++ tok)) with false.
  2: { symmetry. apply not_true_is_false. intros E.
       apply startsWith_app in E as [rest E]. rewrite Hn in E.
       rewrite !app_cons, app_empty in E. by injection E as -> _. }
  cbn [orb]. unfold splitDataLine. rewrite Hopen, Hsp.
  unfold slice. rewrite Nat.sub_0_r.
  change (sliceFrom 0 (n ++ " " ++ tok)) with (n ++ " " ++ tok)%string.
  rewrite sliceTo_app.
  replace (String.length n + 1)%nat with (String.length (n ++ " "))
    by (by rewrite length_app).
  rewrite <- app_assoc_string, sliceFrom_app.
  assert (Htok : trim tok = tok).
  { unfold trim. destruct tok as [| t tok']; [discriminate He |].
    simpl in Hp. apply andb_prop in Hp as [Ht Hp'].
    apply negb_true_iff in Ht. rewrite trimStart_plain by done.
    apply trimEnd_plain. simpl. by rewrite Ht, Hp'. }
  rewrite Htok. unfold valueToken.
  by rewrite (split_single _ _ (indexOf_none _ _ Hs)).
Qed.

(** A line with labels: what follows the value token is not read. *)
Lemma sampleOfLine_tail (metricName : string) (pairs : list (string * string))
    (tok ts : string) :
  validName metricName = true -> forallb validPair pairs = true ->
  validToken tok = true -> validToken ts = true ->
  sampleOfLine (renderSample metricName pairs tok ++ " " ++ ts)
  = sampleOfLine (renderSample metricName pairs tok).
Proof.
  intros Hname Hpairs Htok Hts.
  rewrite (sampleOfLine_render _ _ _ Hname Hpairs Htok).
  destruct (validName_head _ Hname) as (c & r & E & Hw & Hc & Hb).
  destruct (validToken_plain _ Htok) as (Hn & Hp & Hcl & Hs).
  destruct (validToken_plain _ Hts) as (Hn' & Hp' & Hcl' & Hs').
  set (L := renderLabels pairs).
  assert (Hline : (renderSample metricName pairs tok ++ " " ++ ts)%string
                  = ((metricName ++ "{" ++ L) ++
                     String "}"%char (" " ++ tok ++ " " ++ ts))%string).
  { unfold renderSample. fold L. by rewrite !app_assoc_string. }
  assert (Htrim : trim (renderSample metricName pairs tok ++ " " ++ ts)
                  = (renderSample metricName pairs tok ++ " " ++ ts)%string).
  { unfold trim, renderSample. rewrite E, !app_cons, trimStart_plain by done.
    rewrite <- !app_cons, <- !app_assoc_string. by apply trimEnd_app. }
  unfold sampleOfLine. rewrite Htrim.
  replace (isEmpty (renderSample metricName pairs tok ++ " " ++ ts)) with false
    by (unfold renderSample; by rewrite E).
  replace (startsWith "#" (renderSample metricName pairs tok ++ " " ++ ts))
    with false.
  2: { symmetry. apply not_true_is_false. intros H.
       apply startsWith_app in H as [rest H]. unfold renderSample in H.
       rewrite E, !app_cons, app_empty in H. by injection H as -> _. }
  cbn [orb]. unfold splitDataLine. rewrite Hline.
  assert (Ho : indexOf "{"%char
                 ((metricName ++ "{" ++ L)
                  ++ String "}"%char (" " ++ tok ++ " " ++ ts))
               = Some (String.length metricName)).
  { rewrite app_assoc_string.
    change ("{" ++ ?x)%string with (String "{"%char x).
    by apply indexOf_app. }
  assert (Hcb : lastIndexOf "}"%char
                  ((metricName ++ "{" ++ L)
                   ++ String "}"%char (" " ++ tok ++ " " ++ ts))
                = Some (String.length (metricName ++ "{" ++ L))).
  { apply lastIndexOf_app.
    rewrite app_cons, app_empty. simpl. rewrite allChars_app, Hcl.
    rewrite app_cons, app_empty. simpl. exact Hcl'. }
  rewrite Ho, Hcb, !length_app. change (String.length "{") with 1%nat.
  replace (String.length metricName <? String.length metricName
             + (1 + String.length L))%nat with true
    by (symmetry; apply Nat.ltb_lt; lia).
  assert (Hv : valueToken
                 (trim (sliceFrom
                          (String.length metricName + (1 + String.length L) + 1)
                          ((metricName ++ "{" ++ L)
                           ++ String "}"%char (" " ++ tok ++ " " ++ ts))))
               = tok).
  { replace (String.length metricName + (1 + String.length L) + 1)%nat
      with (String.length ((metricName ++ "{" ++ L) ++ "}"))
      by (rewrite !length_app; simpl; lia).
    replace ((metricName ++ "{" ++ L)
             ++ String "}"%char (" " ++ tok ++ " " ++ ts))%string
      with (((metricName ++ "{" ++ L) ++ "}") ++ " " ++ tok ++ " " ++ ts)%string
      by (by rewrite !app_assoc_string).
    rewrite sliceFrom_app.
    assert (Ht : trim (" " ++ tok ++ " " ++ ts) = (tok ++ " " ++ ts)%string).
    { unfold trim. rewrite (trimStart_white " " _) by done.
      destruct tok as [| t tok']; [discriminate Hn |].
      simpl in Hp. apply andb_prop in Hp as [Ht _].
      apply negb_true_iff in Ht.
      rewrite app_cons, trimStart_plain by done. rewrite <- app_cons.
      rewrite <- app_assoc_string. by apply trimEnd_app. }
    rewrite Ht. unfold valueToken.
    change (tok ++ " " ++ ts)%string with (tok ++ String " "%char ts)%string.
    rewrite split_app, (split_single _ tok) by (by apply indexOf_none).
    reflexivity. }
  rewrite Hv.
  assert (Hname' : slice 0 (String.length metricName)
                     ((metricName ++ "{" ++ L)
                      ++ String "}"%char (" " ++ tok ++ " " ++ ts))
                   = metricName).
  { unfold slice. rewrite Nat.sub_0_r. simpl sliceFrom.
    rewrite app_assoc_string. apply sliceTo_app. }
  assert (Hlab : slice (String.length metricName + 1)
                   (String.length metricName + (1 + String.length L))
                   ((metricName ++ "{" ++ L)
                    ++ String "}"%char (" " ++ tok ++ " " ++ ts))
                 = L).
  { unfold slice.
    replace (String.length metricName + 1)%nat
      with (String.length (metricName ++ "{")) by (by rewrite length_app).
    rewrite <- (app_assoc_string metricName "{" L).
    rewrite (app_assoc_string (metricName ++ "{") L), sliceFrom_app.
    replace (String.length metricName + (1 + String.length L)
             - String.length (metricName ++ "{"))%nat
      with (String.length L) by (rewrite length_app; simpl; lia).
    apply sliceTo_app. }
  rewrite Hname', Hlab. unfold L. by rewrite parseLabels_render.
Qed.

(** X29. A timestamp after the value is handled in two different ways.  On
    a line with labels the value is the first token after the closing
    brace and the timestamp is not read.  On a line without braces the
    line is cut at its last space: the last token is parsed as the value,
    so for [name value timestamp] the sample is stored under the name
    [name value] with the timestamp as its value. *)
Theorem timestamp_after_value (metricName tok ts : string)
    (pairs : list (string * string)) :
  validName metricName = true -> forallb validPair pairs = true ->
  plainToken tok = true -> plainToken ts = true ->
  sampleOfLine (renderSample metricName pairs tok ++ " " ++ ts)
    = sampleOfLine (renderSample metricName pairs tok) /\
  sampleOfLine (metricName ++ " " ++ tok ++ " " ++ ts) =
    (if isFinite (parseFloat ts)
     then Some ((metricName ++ " " ++ tok)%string,
                {| labels := ∅; value := parseFloat ts |})
     else None) /\
  sampleOfLine (metricName ++ " " ++ tok) =
    (if isFinite (parseFloat tok)
     then Some (metricName, {| labels := ∅; value := parseFloat tok |})
     else None).
Proof.
  intros Hname Hpairs Htok Hts.
  destruct (plainToken_plain _ Htok) as [Hvt Hbt].
  destruct (plainToken_plain _ Hts) as [Hvts _].
  assert (Hstart : bracelessStart metricName = true).
  { destruct (validName_head _ Hname) as (c & r & -> & Hw & Hc & Hb).
    unfold bracelessStart. rewrite Hb, Hw. unfold notChar.
    by destruct (Ascii.eqb_spec c "#"%char). }
  split; [by apply sampleOfLine_tail |]. split.
  - rewrite <- (sampleOfLine_braceless (metricName ++ " " ++ tok) ts);
      [by rewrite !app_assoc_string | | done].
    unfold bracelessStart in *. apply andb_prop in Hstart as [Hh Hb].
    rewrite !allChars_app, Hb, Hbt.
    destruct metricName; [discriminate Hh |]. rewrite app_cons.
    by rewrite Hh.
  - by apply sampleOfLine_braceless.
Qed.

Lemma timestamp_after_value_witness :
  sampleOfLine ("foo" ++ " " ++ "12" ++ " " ++ "1700000000") =
    (if isFinite (parseFloat "1700000000")
     then Some (("foo" ++ " " ++ "12")%string,
                {| labels := ∅; value := parseFloat "1700000000" |})
     else None) /\
  isFinite (parseFloat "1700000000") = true.
Proof.
  split; [| reflexivity].
  exact (proj1 (proj2 (timestamp_after_value "foo" "12" "1700000000" []
                         eq_refl eq_refl eq_refl eq_refl))).
Defined.

End ExpositionProofs.

(* ===================================================================== *)
(** * The utilization computed from a scraped text *)
(* ===================================================================== *)

Module UtilizationProofs.
Import JS Metrics Exposition StringFacts FloatFacts MetricsProofs.
Local Open Scope list_scope.

Lemma signedBy_number s x : signedBy s x -> SFnumber x.
Proof. by destruct x. Qed.

Lemma SFnonneg_number x : SFnonneg x -> SFnumber x.
Proof. by destruct x. Qed.

Lemma SFnumber_not_nan (f : float) : SFnumber (Prim2SF f) -> is_nan f = false.
Proof. unfold Prim2SF. destruct (is_nan f); simpl; tauto. Qed.

Lemma div_number (a t : float) :
  is_finite a = true -> SFpositive (Prim2SF t) -> SFnumber (Prim2SF (a / t)).
Proof.
  intros Hf Ht. rewrite FloatAxioms.div_spec. unfold SF64div, SFdiv.
  pose proof (is_finite_not_infinity a) as Hi.
  assert (Hn : Prim2SF a <> S754_nan).
  { unfold is_finite in Hf. rewrite negb_true_iff, orb_false_iff in Hf.
    destruct Hf as [Hn Hinf]. unfold Prim2SF. rewrite Hn, Hinf.
    destruct (is_zero a); [discriminate |].
    destruct (Z.frexp a) as [r ex].
    destruct (shr_fexp _ _ _ _) as [sh e'].
    destruct (shr_m sh); discriminate. }
  destruct (Prim2SF a) as [sa | sa | | sa ma ea];
    try (destruct (Hi sa Hf eq_refl)); try (by destruct Hn);
    destruct (Prim2SF t) as [st | [|] | | [|] mt et]; simpl in Ht; try tauto;
    simpl; auto.
  unfold SFdiv_core_binary.
  set (m' := match _ - _ - _ with Z0 => Z.pos ma | Zpos _ => Z.shiftl (Z.pos ma) _ | Zneg _ => 0 end).
  assert (Hm : 0 <= m').
  { subst m'. destruct (_ - _ - _); try lia. apply Z.shiftl_nonneg. lia. }
  pose proof (Z.div_pos m' (Z.pos mt) Hm ltac:(lia)) as Hq.
  unfold Z.div in Hq. destruct (Z.div_eucl m' (Z.pos mt)) as [q r].
  eapply signedBy_number, binary_round_aux_signed. exact Hq.
Qed.

Lemma mul_100_number (x : float) :
  SFnumber (Prim2SF x) -> SFnumber (Prim2SF (x * 100)).
Proof.
  intros Hx. rewrite FloatAxioms.mul_spec, Prim2SF_100. unfold SF64mul, SFmul.
  destruct (Prim2SF x) as [sx | sx | | sx mx ex]; simpl in Hx; try tauto;
    simpl; auto.
  eapply signedBy_number, binary_round_aux_signed. lia.
Qed.

Lemma Math_round_number (y : float) :
  SFnumber (Prim2SF y) -> SFnumber (Prim2SF (Math_round y)).
Proof.
  intros Hy. unfold Math_round.
  destruct (Prim2SF y) as [sy | sy | | sy my ey] eqn:E; simpl in Hy;
    try tauto; try (rewrite E; exact Hy).
  destruct (0 <=? ey); [rewrite E; exact I |].
  destruct sy.
  - rewrite FloatAxioms.opp_spec.
    pose proof (of_uint63_nonneg
                  (Uint63.of_Z
                     (- Z.shiftr (Z.shiftl 1 (- ey - 1) - Z.pos my) (- ey))))
      as Hn.
    destruct (Prim2SF (of_uint63 _)); simpl in *; tauto.
  - apply SFnonneg_number, of_uint63_nonneg.
Qed.

Lemma Math_min_100_le (z : float) :
  SFnumber (Prim2SF z) -> (Math_min 100 z <=? 100)%float = true.
Proof.
  intros Hz. unfold Math_min.
  rewrite (SFnumber_not_nan z Hz).
  change (is_nan 100) with false. change (get_sign 100) with false. simpl.
  destruct (z <? 100)%float eqn:Hlt.
  - rewrite FloatAxioms.ltb_spec in Hlt. rewrite FloatAxioms.leb_spec.
    unfold SFltb in Hlt. unfold SFleb.
    destruct (SFcompare _ _) as [[| |] |]; congruence.
  - destruct (100 <? z)%float eqn:Hgt; [reflexivity |].
    rewrite FloatAxioms.ltb_spec in Hlt, Hgt. rewrite FloatAxioms.leb_spec.
    unfold SFltb in Hlt, Hgt. unfold SFleb. rewrite Prim2SF_100 in *.
    destruct (SFcompare (Prim2SF z) _) as [[| |] |] eqn:C; try congruence.
    + apply SFcompare_Gt_Lt in C. rewrite C in Hgt. discriminate.
    + apply SFcompare_None in C. rewrite C in Hz. destruct Hz.
Qed.

Lemma Math_min_100_number (z : float) :
  SFnumber (Prim2SF z) -> is_nan (Math_min 100 z) = false.
Proof.
  intros Hz. unfold Math_min.
  rewrite (SFnumber_not_nan z Hz).
  change (is_nan 100) with false. change (get_sign 100) with false. simpl.
  destruct (z <? 100)%float; [by apply SFnumber_not_nan |].
  destruct (100 <? z)%float; [reflexivity | by apply SFnumber_not_nan].
Qed.

Lemma utilizationPct_le (active : MetricSample)
    (totalSample : option MetricSample) :
  isFinite (value active) = true ->
  (utilizationPct active totalSample <=? 100)%float = true /\
  is_nan (utilizationPct active totalSample) = false.
Proof.
  intros Hf. unfold utilizationPct.
  destruct (0 <? _)%float eqn:Ht; [| split; reflexivity].
  assert (Hn : SFnumber
    (Prim2SF (Math_round
       (value active
        / match totalSample with Some t => value t | None => 0 end
        * 100)))).
  { apply Math_round_number, mul_100_number, div_number; [exact Hf |].
    by apply ltb_zero_positive. }
  split; [by apply Math_min_100_le | by apply Math_min_100_number].
Qed.

Lemma samplesFor_finite (text metricName : string) (sample : MetricSample) :
  In sample (samplesFor (parsePrometheusText text) metricName) ->
  isFinite (value sample) = true.
Proof.
  unfold samplesFor, parsePrometheusText. intros Hin.
  pose proof (parseLines_family (split "010"%char text) metricName) as Hs.
  destruct (families (parseLines (split "010"%char text)) !! metricName)
    as [fam |]; [| destruct Hin].
  destruct Hs as (_ & Hsm & _). rewrite Hsm in Hin.
  by apply samplesOf_finite in Hin.
Qed.

(** X22. Whatever text the metrics endpoint returns, every engine
    utilization computed from it is a number of at most 100: the parser
    keeps finite values only, so the quotient is never [NaN].  (A value
    below 0 remains possible for a negative active count.) *)
Theorem utilization_of_text_at_most_100 (text nodeName podName : string)
    (e : UtilizationEntry) :
  In e (engineUtilization
          (extractGpuNodeMetrics (parsePrometheusText text) nodeName podName)) ->
  (pct e <=? 100)%float = true /\ is_nan (pct e) = false.
Proof.
  rewrite engineUtilization_map. intros (a & <- & Ha)%in_map_iff.
  apply samplesFor_finite in Ha.
  exact (utilizationPct_le a
    (List.find (matchesTotal (cardOf a) (engineOf a))
       (samplesFor (parsePrometheusText text) TOTAL_TICKS)) Ha).
Qed.

Lemma utilization_of_text_at_most_100_witness :
  In {| card := "card0"; engine := "render/0"; pct := 50 |}
     (engineUtilization
        (extractGpuNodeMetrics (parsePrometheusText exampleText) "node" "pod")) /\
  (50 <=? 100)%float = true.
Proof.
  assert (H : In {| card := "card0"; engine := "render/0"; pct := 50 |}
     (engineUtilization
        (extractGpuNodeMetrics (parsePrometheusText exampleText) "node" "pod"))).
  { vm_compute. left. reflexivity. }
  split; [exact H |].
  exact (proj1 (utilization_of_text_at_most_100 exampleText "node" "pod" _ H)).
Defined.

End UtilizationProofs.

(* ===================================================================== *)
(** * What the capacity and allocatable totals add up *)
(* ===================================================================== *)

Module TotalsProofs.
Import JS K8s K8sHelpers OverviewPage OverviewTotals NodesPage K8sProofs.
Import ResourceProofs Binary64Proofs.
Local Open Scope list_scope.

Lemma add_Int (a b : JSInt) (z : Z) :
  add a b = Int z -> exists x y, a = Int x /\ b = Int y /\ z = x + y.
Proof.
  destruct a as [| x], b as [| y]; simpl; try discriminate.
  intros [= <-]. by exists x, y.
Qed.

Lemma add_NaN (a b : JSInt) : add a b = NaN <-> a = NaN \/ b = NaN.
Proof. destruct a, b; simpl; split; try tauto; try done; by intros [? | ?]. Qed.

(** The loop over the keys of [capacity] adds, for each of the two device
    keys that occurs, the value read under it. *)
Lemma keyStep_fold (capacity allocatable : NodeResources) (keys : list string)
    (t : Totals) :
  NoDup keys ->
  fold_left (keyStep capacity allocatable) keys t =
    {| totalCapacityGpus :=
         add (totalCapacityGpus t)
           (add (if existsb (String.eqb INTEL_GPU_RESOURCE) keys
                 then quantity capacity INTEL_GPU_RESOURCE else Int 0)
                (if existsb (String.eqb INTEL_GPU_XE_RESOURCE) keys
                 then quantity capacity INTEL_GPU_XE_RESOURCE else Int 0));
       totalAllocatableGpus :=
         add (totalAllocatableGpus t)
           (add (if existsb (String.eqb INTEL_GPU_RESOURCE) keys
                 then quantity allocatable INTEL_GPU_RESOURCE else Int 0)
                (if existsb (String.eqb INTEL_GPU_XE_RESOURCE) keys
                 then quantity allocatable INTEL_GPU_XE_RESOURCE else Int 0)) |}.
Proof.
  revert t. induction keys as [| k keys IH]; intros t Hnd.
  - destruct t as [[| a] [| b]]; simpl; f_equal; f_equal; lia.
  - apply NoDup_cons in Hnd as [Hk Hnd]. simpl fold_left. rewrite IH by done.
    assert (Hout : existsb (String.eqb k) keys = false).
    { apply not_true_is_false. intros E.
      apply existsb_exists in E as (x & Hx & Hkx).
      apply String.eqb_eq in Hkx. subst x.
      destruct Hk. by apply list_elem_of_In. }
    unfold keyStep, isDeviceCountKey. cbn [existsb]. clear IH.
    destruct (String.eqb_spec k INTEL_GPU_RESOURCE) as [-> | H1].
    + rewrite Hout.
      change (INTEL_GPU_RESOURCE =? INTEL_GPU_RESOURCE)%string with true.
      change (INTEL_GPU_XE_RESOURCE =? INTEL_GPU_RESOURCE)%string with false.
      cbn [orb totalCapacityGpus totalAllocatableGpus].
      generalize (quantity capacity INTEL_GPU_RESOURCE)
        (quantity capacity INTEL_GPU_XE_RESOURCE)
        (quantity allocatable INTEL_GPU_RESOURCE)
        (quantity allocatable INTEL_GPU_XE_RESOURCE).
      intros c1 c2 a1 a2.
      destruct t as [[| a] [| b]], c1, c2, a1, a2,
        (existsb (String.eqb INTEL_GPU_XE_RESOURCE) keys);
        simpl; f_equal; f_equal; lia.
    + destruct (String.eqb_spec k INTEL_GPU_XE_RESOURCE) as [-> | H2].
      * rewrite Hout.
        change (INTEL_GPU_XE_RESOURCE =? INTEL_GPU_XE_RESOURCE)%string with true.
        change (INTEL_GPU_RESOURCE =? INTEL_GPU_XE_RESOURCE)%string with false.
        cbn [orb totalCapacityGpus totalAllocatableGpus].
        generalize (quantity capacity INTEL_GPU_RESOURCE)
          (quantity capacity INTEL_GPU_XE_RESOURCE)
          (quantity allocatable INTEL_GPU_RESOURCE)
          (quantity allocatable INTEL_GPU_XE_RESOURCE).
        intros c1 c2 a1 a2.
        destruct t as [[| a] [| b]], c1, c2, a1, a2,
          (existsb (String.eqb INTEL_GPU_RESOURCE) keys);
          simpl; f_equal; f_equal; lia.
      * cbn [orb].
        replace (INTEL_GPU_RESOURCE =? k)%string with false
          by (symmetry; apply String.eqb_neq; congruence).
        replace (INTEL_GPU_XE_RESOURCE =? k)%string with false
          by (symmetry; apply String.eqb_neq; congruence).
        reflexivity.
Qed.

Lemma key_listed {V : Type} (m : gmap string V) (key : string) :
  existsb (String.eqb key) (map fst (map_to_list m))
  = bool_decide (is_Some (m !! key)).
Proof.
  apply eq_true_iff_eq. rewrite existsb_exists, bool_decide_eq_true.
  split.
  - intros (k & Hk & ->%String.eqb_eq).
    apply in_map_iff in Hk as ([k' v] & Hkv & Hin). simpl in Hkv. subst k'.
    apply list_elem_of_In, elem_of_map_to_list in Hin. by exists v.
  - intros [v Hv]. exists key. split; [| apply String.eqb_refl].
    apply in_map_iff. exists (key, v). split; [done |].
    by apply list_elem_of_In, elem_of_map_to_list.
Qed.

Lemma nodeStep_terms (t : Totals) (node : IntelGpuNode) :
  nodeStep t node =
    {| totalCapacityGpus :=
         add (totalCapacityGpus t)
           (add (capacityTerm node INTEL_GPU_RESOURCE)
                (capacityTerm node INTEL_GPU_XE_RESOURCE));
       totalAllocatableGpus :=
         add (totalAllocatableGpus t)
           (add (allocatableTerm node INTEL_GPU_RESOURCE)
                (allocatableTerm node INTEL_GPU_XE_RESOURCE)) |}.
Proof.
  unfold nodeStep, objectEntries.
  rewrite keyStep_fold by apply (NoDup_fst_map_to_list (capacityOf node)).
  rewrite !key_listed. unfold capacityTerm, allocatableTerm.
  by destruct (capacityOf node !! INTEL_GPU_RESOURCE),
    (capacityOf node !! INTEL_GPU_XE_RESOURCE).
Qed.

Lemma capacityTerm_Int (node : IntelGpuNode) (key : string) (x : Z) :
  capacityTerm node key = Int x -> x = deviceCount (capacityOf node) key.
Proof.
  unfold capacityTerm, quantity, deviceCount.
  destruct (capacityOf node !! key) as [[v |] |].
  - by intros ->.
  - by intros [= <-].
  - by intros [= <-].
Qed.

Lemma allocatableTerm_Int (node : IntelGpuNode) (key : string) (x : Z) :
  allocatableTerm node key = Int x ->
  x = if bool_decide (is_Some (capacityOf node !! key))
      then deviceCount (allocatableOf node) key else 0.
Proof.
  unfold allocatableTerm, quantity, deviceCount.
  destruct (capacityOf node !! key) as [c |].
  - rewrite bool_decide_eq_true_2 by eauto.
    destruct (allocatableOf node !! key) as [[v |] |].
    + by intros ->.
    + by intros [= <-].
    + by intros [= <-].
  - rewrite bool_decide_eq_false_2 by (by intros [? ?]). by intros [= <-].
Qed.

Lemma capacityTerm_NaN (node : IntelGpuNode) (key : string) :
  capacityTerm node key = NaN <->
  exists v, capacityOf node !! key = Some (Some v) /\ parseInt v = NaN.
Proof.
  unfold capacityTerm, quantity.
  destruct (capacityOf node !! key) as [[v |] |]; split; try done.
  - intros H. by exists v.
  - by intros (v' & [= <-] & H).
  - by intros (v' & [=] & _).
  - by intros (v' & [=] & _).
Qed.

Lemma totals_fold (nodes : list IntelGpuNode) (t : Totals) :
  fold_left nodeStep nodes t =
    {| totalCapacityGpus :=
         fold_left add
           (map (fun n => add (capacityTerm n INTEL_GPU_RESOURCE)
                              (capacityTerm n INTEL_GPU_XE_RESOURCE)) nodes)
           (totalCapacityGpus t);
       totalAllocatableGpus :=
         fold_left add
           (map (fun n => add (allocatableTerm n INTEL_GPU_RESOURCE)
                              (allocatableTerm n INTEL_GPU_XE_RESOURCE)) nodes)
           (totalAllocatableGpus t) |}.
Proof.
  revert t. induction nodes as [| n nodes IH]; intros t; [by destruct t |].
  simpl fold_left. by rewrite IH, nodeStep_terms.
Qed.

Lemma fold_add_Int {A : Type} (f : A -> JSInt) (g : A -> Z) (l : list A)
    (a : JSInt) (z : Z) :
  (forall x y, f x = Int y -> y = g x) ->
  fold_left add (map f l) a = Int z ->
  exists a0, a = Int a0 /\ z = a0 + sumZ (map g l).
Proof.
  intros Hfg. revert a. induction l as [| x l IH]; intros a; simpl.
  - intros ->. exists z. split; [done | lia].
  - intros (s & Hs & ->)%IH. apply add_Int in Hs as (a0 & y & -> & Hy & ->).
    exists a0. split; [done |]. rewrite (Hfg x y Hy). lia.
Qed.

Lemma fold_add_NaN {A : Type} (f : A -> JSInt) (l : list A) (a : JSInt) :
  fold_left add (map f l) a = NaN <-> a = NaN \/ exists x, In x l /\ f x = NaN.
Proof.
  revert a. induction l as [| x l IH]; intros a; simpl.
  - split; [by left | by intros [? | (? & [] & _)]].
  - rewrite IH, add_NaN. split.
    + intros [[Ha | Hx] | (y & Hy & Hf)]; eauto 6.
    + intros [Ha | (y & [<- | Hy] & Hf)]; eauto 6.
Qed.

Lemma add_zero_l (x : JSInt) : add (Int 0) x = x.
Proof. by destruct x. Qed.

(** The loop of a row of the nodes page computes what the loop of the
    overview page computes for the node. *)
Lemma rowKeyStep_fold (capacity allocatable : NodeResources)
    (keys : list string) (t : Totals) (r : RowTotals) :
  totalCapacity r = totalCapacityGpus t ->
  totalAllocatable r = totalAllocatableGpus t ->
  totalCapacity (fold_left (rowKeyStep capacity allocatable) keys r)
    = totalCapacityGpus (fold_left (keyStep capacity allocatable) keys t) /\
  totalAllocatable (fold_left (rowKeyStep capacity allocatable) keys r)
    = totalAllocatableGpus (fold_left (keyStep capacity allocatable) keys t).
Proof.
  revert t r. induction keys as [| k keys IH]; intros t r Hc Ha; [done |].
  simpl. apply IH; unfold rowKeyStep, keyStep;
    destruct (isDeviceCountKey k); simpl; congruence.
Qed.

Lemma rowTotals_terms (node : IntelGpuNode) :
  totalCapacity (rowTotals node)
    = add (capacityTerm node INTEL_GPU_RESOURCE)
          (capacityTerm node INTEL_GPU_XE_RESOURCE) /\
  totalAllocatable (rowTotals node)
    = add (allocatableTerm node INTEL_GPU_RESOURCE)
          (allocatableTerm node INTEL_GPU_XE_RESOURCE).
Proof.
  pose proof (nodeStep_terms
    {| totalCapacityGpus := Int 0; totalAllocatableGpus := Int 0 |} node) as Hn.
  destruct (rowKeyStep_fold (capacityOf node) (allocatableOf node)
              (map fst (objectEntries (capacityOf node)))
              {| totalCapacityGpus := Int 0; totalAllocatableGpus := Int 0 |}
              {| totalCapacity := Int 0; totalAllocatable := Int 0 |}
              eq_refl eq_refl) as [Hc Ha].
  unfold rowTotals. cbv zeta. rewrite Hc, Ha.
  fold (nodeStep {| totalCapacityGpus := Int 0; totalAllocatableGpus := Int 0 |}
          node).
  rewrite Hn. cbn [totalCapacityGpus totalAllocatableGpus].
  by rewrite !add_zero_l.
Qed.

Lemma fold_add_all_Int {A : Type} (f : A -> JSInt) (g : A -> Z) (l : list A)
    (a : Z) :
  (forall x, In x l -> f x = Int (g x)) ->
  fold_left add (map f l) (Int a) = Int (a + sumZ (map g l)).
Proof.
  revert a. induction l as [| x l IH]; intros a H; simpl.
  - f_equal. lia.
  - rewrite (H x) by (by left). simpl. rewrite IH.
    + f_equal. lia.
    + intros y Hy. apply H. by right.
Qed.

Lemma capacityTerm_readable (node : IntelGpuNode) (key : string) :
  isDeviceCountKey key = true -> ~ unreadableCapacity node ->
  capacityTerm node key = Int (deviceCount (capacityOf node) key).
Proof.
  intros Hk Hr. destruct (capacityTerm node key) as [| x] eqn:E.
  - apply capacityTerm_NaN in E as (v & Hv & Hp). destruct Hr. by exists key, v.
  - by rewrite (capacityTerm_Int _ _ _ E).
Qed.

Lemma getNodeGpuCount_fold (nodes : list IntelGpuNode) (a : Z) :
  fold_left add (map getNodeGpuCount nodes) (Int a)
  = Int (a + sumZ (map capacityDevices nodes)).
Proof.
  apply fold_add_all_Int. intros n _. apply getNodeGpuCount_deviceCount.
Qed.

Lemma sumZ_abs_le {A : Type} (f g : A -> Z) (l : list A) (b : Z) :
  (forall x, Z.abs (f x) <= g x) ->
  Z.abs (sumZ (map g l)) <= b -> Z.abs (sumZ (map f l)) <= b.
Proof.
  intros H Hb.
  assert (Hle : forall l, Z.abs (sumZ (map f l)) <= sumZ (map g l)).
  { clear Hb. intros l'. induction l' as [| x l' IH]; simpl; [done |].
    specialize (H x). lia. }
  specialize (Hle l). lia.
Qed.

(** ** The totals in double precision *)

Lemma quantity_Int (resources : NodeResources) (key : string) (z : Z) :
  quantity resources key = Int z -> z = deviceCount resources key.
Proof.
  unfold quantity, deviceCount.
  destruct (resources !! key) as [[v |] |].
  - by intros ->.
  - by intros [= <-].
  - by intros [= <-].
Qed.

Lemma plus_quantity (c : JSInt) (resources : NodeResources) (key : string) :
  (forall a, c = Int a -> Z.abs a + Z.abs (deviceCount resources key) < 2 ^ 53) ->
  (Binary64.toDouble c + Binary64.quantity resources key)%float
  = Binary64.toDouble (add c (quantity resources key)).
Proof.
  intros H. unfold Binary64.quantity, quantity. apply plus_parseInt.
  intros a Ha. specialize (H a Ha). unfold deviceCount in H.
  by destruct (resources !! key) as [[v |] |].
Qed.

(** The device keys of a list without repetition are at most the two. *)
Lemma device_keys_bound (f : string -> Z) (keys : list string) :
  NoDup keys -> (forall k, 0 <= f k) ->
  sumZ (map (fun k => if isDeviceCountKey k then f k else 0) keys)
  <= (if bool_decide (INTEL_GPU_RESOURCE ∈ keys) then f INTEL_GPU_RESOURCE else 0)
     + (if bool_decide (INTEL_GPU_XE_RESOURCE ∈ keys)
        then f INTEL_GPU_XE_RESOURCE else 0).
Proof.
  intros Hnd Hf. induction Hnd as [| k keys Hk Hnd IH]; [done |].
  rewrite sumZ_map_cons. unfold isDeviceCountKey at 1.
  destruct (String.eqb_spec k INTEL_GPU_RESOURCE) as [-> | H1].
  - cbn [orb]. rewrite (bool_decide_eq_true_2
                          (INTEL_GPU_RESOURCE ∈ INTEL_GPU_RESOURCE :: keys))
      by (apply elem_of_cons; by left).
    rewrite (bool_decide_eq_false_2 (INTEL_GPU_RESOURCE ∈ keys)) in IH by done.
    rewrite (bool_decide_ext (INTEL_GPU_XE_RESOURCE ∈ INTEL_GPU_RESOURCE :: keys)
               (INTEL_GPU_XE_RESOURCE ∈ keys)).
    + lia.
    + rewrite elem_of_cons. split; [| auto]. by intros [[=] | ?].
  - destruct (String.eqb_spec k INTEL_GPU_XE_RESOURCE) as [-> | H2].
    + cbn [orb].
      rewrite (bool_decide_eq_true_2
                 (INTEL_GPU_XE_RESOURCE ∈ INTEL_GPU_XE_RESOURCE :: keys))
        by (apply elem_of_cons; by left).
      rewrite (bool_decide_eq_false_2 (INTEL_GPU_XE_RESOURCE ∈ keys)) in IH
        by done.
      rewrite (bool_decide_ext
                 (INTEL_GPU_RESOURCE ∈ INTEL_GPU_XE_RESOURCE :: keys)
                 (INTEL_GPU_RESOURCE ∈ keys)).
      * lia.
      * rewrite elem_of_cons. split; [| auto]. by intros [[=] | ?].
    + cbn [orb].
      rewrite (bool_decide_ext (INTEL_GPU_RESOURCE ∈ k :: keys)
                 (INTEL_GPU_RESOURCE ∈ keys)).
      2: { rewrite elem_of_cons. split; [| auto]. intros [E | ?]; congruence. }
      rewrite (bool_decide_ext (INTEL_GPU_XE_RESOURCE ∈ k :: keys)
                 (INTEL_GPU_XE_RESOURCE ∈ keys)).
      2: { rewrite elem_of_cons. split; [| auto]. intros [E | ?]; congruence. }
      lia.
Qed.

(** The loop over the keys in double precision follows the loop on the
    integers while the numbers added stay within the safe integers. *)
Lemma keyStep_doubles (capacity allocatable : NodeResources)
    (keys : list string) (t : Totals) :
  (forall a, totalCapacityGpus t = Int a ->
     Z.abs a + sumZ (map (fun k => if isDeviceCountKey k
                                   then Z.abs (deviceCount capacity k) else 0)
                       keys) < 2 ^ 53) ->
  (forall a, totalAllocatableGpus t = Int a ->
     Z.abs a + sumZ (map (fun k => if isDeviceCountKey k
                                   then Z.abs (deviceCount allocatable k) else 0)
                       keys) < 2 ^ 53) ->
  fold_left (Binary64.keyStep capacity allocatable) keys (Binary64.toDoubles t)
  = Binary64.toDoubles (fold_left (keyStep capacity allocatable) keys t).
Proof.
  revert t. induction keys as [| k keys IH]; intros t Hc Ha; [done |].
  assert (H0 : forall res : NodeResources,
    0 <= sumZ (map (fun k => if isDeviceCountKey k
                             then Z.abs (deviceCount res k) else 0) keys)).
  { intros res. apply sumZ_nonneg. intros x. destruct (isDeviceCountKey x); lia. }
  pose proof (H0 capacity) as H0c. pose proof (H0 allocatable) as H0a.
  rewrite !sumZ_map_cons in *. cbn [fold_left].
  assert (Hstep : Binary64.keyStep capacity allocatable (Binary64.toDoubles t) k
                  = Binary64.toDoubles (keyStep capacity allocatable t k)).
  { unfold Binary64.keyStep, keyStep. destruct (isDeviceCountKey k); [| done].
    unfold Binary64.toDoubles.
    cbn [Binary64.totalCapacityGpus Binary64.totalAllocatableGpus
         totalCapacityGpus totalAllocatableGpus].
    rewrite !plus_quantity; [done | |].
    - intros a E. specialize (Ha a E). lia.
    - intros a E. specialize (Hc a E). lia. }
  rewrite Hstep. apply IH.
  - intros a' E. unfold keyStep in E.
    destruct (isDeviceCountKey k); cbn [totalCapacityGpus] in E.
    + apply add_Int in E as (a & z & Et & Eq & ->).
      specialize (Hc a Et). rewrite (quantity_Int _ _ _ Eq). lia.
    + specialize (Hc a' E). lia.
  - intros a' E. unfold keyStep in E.
    destruct (isDeviceCountKey k); cbn [totalAllocatableGpus] in E.
    + apply add_Int in E as (a & z & Et & Eq & ->).
      specialize (Ha a Et). rewrite (quantity_Int _ _ _ Eq). lia.
    + specialize (Ha a' E). lia.
Qed.

Lemma device_keys_magnitude (resources : NodeResources) (keys : list string) :
  NoDup keys ->
  sumZ (map (fun k => if isDeviceCountKey k
                      then Z.abs (deviceCount resources k) else 0) keys)
  <= Z.abs (deviceCount resources INTEL_GPU_RESOURCE)
     + Z.abs (deviceCount resources INTEL_GPU_XE_RESOURCE).
Proof.
  intros Hnd.
  pose proof (device_keys_bound (fun k => Z.abs (deviceCount resources k))
                keys Hnd (fun k => Z.abs_nonneg _)) as H.
  cbn beta in H.
  destruct (bool_decide _), (bool_decide _); lia.
Qed.

Lemma nodeStep_doubles (t : Totals) (node : IntelGpuNode) :
  (forall a, totalCapacityGpus t = Int a ->
     Z.abs a + capacityMagnitude node < 2 ^ 53) ->
  (forall a, totalAllocatableGpus t = Int a ->
     Z.abs a + allocatableMagnitude node < 2 ^ 53) ->
  Binary64.nodeStep (Binary64.toDoubles t) node
  = Binary64.toDoubles (nodeStep t node).
Proof.
  intros Hc Ha. unfold Binary64.nodeStep, nodeStep. cbv zeta.
  pose proof (NoDup_fst_map_to_list (capacityOf node)) as Hnd.
  apply keyStep_doubles; intros a E.
  - specialize (Hc a E).
    pose proof (device_keys_magnitude (capacityOf node)
                  (map fst (map_to_list (capacityOf node))) Hnd).
    unfold capacityMagnitude, objectEntries in *. lia.
  - specialize (Ha a E).
    pose proof (device_keys_magnitude (allocatableOf node)
                  (map fst (map_to_list (capacityOf node))) Hnd).
    unfold allocatableMagnitude, objectEntries in *. lia.
Qed.

Lemma nodeStep_capacity_bound (t : Totals) (node : IntelGpuNode) (a' : Z) :
  totalCapacityGpus (nodeStep t node) = Int a' ->
  exists a, totalCapacityGpus t = Int a /\
            Z.abs a' <= Z.abs a + capacityMagnitude node.
Proof.
  rewrite nodeStep_terms. cbn [totalCapacityGpus].
  intros (a & s & Et & (x1 & x2 & E1 & E2 & ->)%add_Int & ->)%add_Int.
  exists a. split; [done |].
  rewrite (capacityTerm_Int _ _ _ E1), (capacityTerm_Int _ _ _ E2).
  unfold capacityMagnitude. lia.
Qed.

Lemma nodeStep_allocatable_bound (t : Totals) (node : IntelGpuNode) (a' : Z) :
  totalAllocatableGpus (nodeStep t node) = Int a' ->
  exists a, totalAllocatableGpus t = Int a /\
            Z.abs a' <= Z.abs a + allocatableMagnitude node.
Proof.
  rewrite nodeStep_terms. cbn [totalAllocatableGpus].
  intros (a & s & Et & (x1 & x2 & E1 & E2 & ->)%add_Int & ->)%add_Int.
  exists a. split; [done |].
  rewrite (allocatableTerm_Int _ _ _ E1), (allocatableTerm_Int _ _ _ E2).
  unfold allocatableMagnitude.
  destruct (bool_decide _), (bool_decide _); lia.
Qed.

Lemma totals_doubles (nodes : list IntelGpuNode) (t : Totals) :
  (forall a, totalCapacityGpus t = Int a ->
     Z.abs a + sumZ (map capacityMagnitude nodes) < 2 ^ 53) ->
  (forall a, totalAllocatableGpus t = Int a ->
     Z.abs a + sumZ (map allocatableMagnitude nodes) < 2 ^ 53) ->
  fold_left Binary64.nodeStep nodes (Binary64.toDoubles t)
  = Binary64.toDoubles (fold_left nodeStep nodes t).
Proof.
  revert t. induction nodes as [| n nodes IH]; intros t Hc Ha; [done |].
  assert (H0c : 0 <= sumZ (map capacityMagnitude nodes)).
  { apply sumZ_nonneg. intros x. unfold capacityMagnitude. lia. }
  assert (H0a : 0 <= sumZ (map allocatableMagnitude nodes)).
  { apply sumZ_nonneg. intros x. unfold allocatableMagnitude. lia. }
  rewrite !sumZ_map_cons in *. cbn [fold_left].
  rewrite nodeStep_doubles.
  - apply IH.
    + intros a' (a & Et & Hb)%nodeStep_capacity_bound.
      specialize (Hc a Et). lia.
    + intros a' (a & Et & Hb)%nodeStep_allocatable_bound.
      specialize (Ha a Et). lia.
  - intros a E. specialize (Hc a E). lia.
  - intros a E. specialize (Ha a E). lia.
Qed.

Lemma healthyNode_readable : ~ unreadableCapacity healthyNode.
Proof.
  intros (key & v & Hk & Hv & Hp).
  unfold isDeviceCountKey in Hk. apply orb_prop in Hk as [Hk | Hk];
    apply String.eqb_eq in Hk; subst key; vm_compute in Hv;
    [| discriminate Hv].
  injection Hv as <-. discriminate Hp.
Qed.

(** A row of the nodes page: the allocatable devices are read under the
    keys that the capacity has. *)
Example rowTotals_example :
  rowTotals
    {| node_metadata :=
         {| meta_name := "gpu-node-1"; meta_labels := None; uid := None |};
       node_status :=
         Some {| capacity := Some {[ INTEL_GPU_RESOURCE := Some "2";
                                    "cpu" := Some "8" ]};
                 allocatable := Some {[ INTEL_GPU_RESOURCE := Some "1";
                                       INTEL_GPU_XE_RESOURCE := Some "4" ]} |} |}
  = {| totalCapacity := Int 2; totalAllocatable := Int 1 |}.
Proof. vm_compute. reflexivity. Qed.

(** X23. The capacity total of the overview page is [NaN] exactly when some
    node holds, under one of the two capacity keys, a string that does not
    start with an integer, provided the capacities that can be read stay
    within the safe integers in total.  Otherwise it is the sum of the
    nodes' [i915] and [xe] capacities, the same number that adding up
    [getNodeGpuCount] gives.  When the allocatable total is a number it
    counts a node's allocatable devices only under the device keys that
    the node's capacity has.  Each total is the sum of the totals that the
    nodes page computes per row.  Computed in double precision, the two
    loops give the doubles of these totals. *)
Theorem allocationTotals_numbers (gpuNodes : list IntelGpuNode) :
  safeInteger (sumZ (map capacityMagnitude gpuNodes)) ->
  safeInteger (sumZ (map allocatableMagnitude gpuNodes)) ->
  (totalCapacityGpus (allocationTotals gpuNodes) = NaN <->
   exists node, In node gpuNodes /\ unreadableCapacity node) /\
  ((forall node, In node gpuNodes -> ~ unreadableCapacity node) ->
   totalCapacityGpus (allocationTotals gpuNodes)
     = Int (sumZ (map capacityDevices gpuNodes)) /\
   fold_left add (map getNodeGpuCount gpuNodes) (Int 0)
     = Int (sumZ (map capacityDevices gpuNodes))) /\
  safeInteger (sumZ (map capacityDevices gpuNodes)) /\
  (forall z,
     totalAllocatableGpus (allocationTotals gpuNodes) = Int z ->
     z = sumZ (map countedAllocatable gpuNodes) /\ safeInteger z) /\
  totalCapacityGpus (allocationTotals gpuNodes)
    = fold_left add (map (fun n => totalCapacity (rowTotals n)) gpuNodes)
        (Int 0) /\
  totalAllocatableGpus (allocationTotals gpuNodes)
    = fold_left add (map (fun n => totalAllocatable (rowTotals n)) gpuNodes)
        (Int 0) /\
  Binary64.allocationTotals gpuNodes
    = Binary64.toDoubles (allocationTotals gpuNodes).
Proof.
  intros Hcap Halloc.
  assert (Hd : Binary64.allocationTotals gpuNodes
               = Binary64.toDoubles (allocationTotals gpuNodes)).
  { assert (H0c : 0 <= sumZ (map capacityMagnitude gpuNodes)).
    { apply sumZ_nonneg. intros x. unfold capacityMagnitude. lia. }
    assert (H0a : 0 <= sumZ (map allocatableMagnitude gpuNodes)).
    { apply sumZ_nonneg. intros x. unfold allocatableMagnitude. lia. }
    unfold safeInteger, MAX_SAFE_INTEGER in *.
    unfold Binary64.allocationTotals, allocationTotals.
    change {| Binary64.totalCapacityGpus := 0;
              Binary64.totalAllocatableGpus := 0 |}
      with (Binary64.toDoubles
              {| totalCapacityGpus := Int 0; totalAllocatableGpus := Int 0 |}).
    apply totals_doubles; cbn [totalCapacityGpus totalAllocatableGpus];
      intros a [= <-]; lia. }
  unfold allocationTotals in *. rewrite totals_fold in *.
  cbn [totalCapacityGpus totalAllocatableGpus].
  split; [| split; [| split; [| split; [| split; [| split; [| exact Hd]]]]]].
  - rewrite fold_add_NaN. split.
    + intros [[=] | (n & Hn & Hnan)]. exists n. split; [done |].
      apply add_NaN in Hnan as [H | H]; apply capacityTerm_NaN in H as (v & Hv & Hp).
      * by exists INTEL_GPU_RESOURCE, v.
      * by exists INTEL_GPU_XE_RESOURCE, v.
    + intros (n & Hn & key & v & Hk & Hv & Hp). right. exists n.
      split; [done |]. apply add_NaN.
      unfold isDeviceCountKey in Hk. apply orb_prop in Hk as [Hk | Hk];
        apply String.eqb_eq in Hk; subst key; [left | right];
        apply capacityTerm_NaN; eauto.
  - intros Hread. split; [| by rewrite getNodeGpuCount_fold].
    rewrite (fold_add_all_Int _ capacityDevices); [done |].
    intros n Hn. specialize (Hread n Hn).
    by rewrite !capacityTerm_readable.
  - unfold safeInteger in *. revert Hcap. apply sumZ_abs_le.
    intros n. unfold capacityDevices, capacityMagnitude. lia.
  - intros z Hz.
    apply (fold_add_Int _ countedAllocatable) in Hz as (a0 & [= <-] & ->).
    2: { intros n y (x1 & x2 & H1 & H2 & ->)%add_Int. unfold countedAllocatable.
         by rewrite <- (allocatableTerm_Int _ _ _ H1),
                    <- (allocatableTerm_Int _ _ _ H2). }
    split; [lia |]. rewrite Z.add_0_l.
    unfold safeInteger in *. revert Halloc. apply sumZ_abs_le.
    intros n. unfold countedAllocatable, allocatableMagnitude.
    destruct (bool_decide _), (bool_decide _); lia.
  - f_equal. apply map_ext. intros n.
    by rewrite (proj1 (rowTotals_terms n)).
  - f_equal. apply map_ext. intros n.
    by rewrite (proj2 (rowTotals_terms n)).
Qed.

(** The doubles of the two example nodes: the capacity that is not a
    number turns both totals into [NaN]. *)
Example allocationTotals_doubles :
  Binary64.allocationTotals [healthyNode]
    = {| Binary64.totalCapacityGpus := 2; Binary64.totalAllocatableGpus := 2 |} /\
  is_nan (Binary64.totalCapacityGpus
            (Binary64.allocationTotals [healthyNode; malformedNode])) = true.
Proof. split; vm_compute; reflexivity. Qed.

Lemma allocationTotals_numbers_witness :
  totalCapacityGpus (allocationTotals [healthyNode]) = Int 2.
Proof.
  assert (H1 : safeInteger (sumZ (map capacityMagnitude [healthyNode])))
    by (vm_compute; discriminate).
  assert (H2 : safeInteger (sumZ (map allocatableMagnitude [healthyNode])))
    by (vm_compute; discriminate).
  destruct (allocationTotals_numbers [healthyNode] H1 H2) as (_ & Hsum & _).
  refine (proj1 (Hsum _)).
  intros node [<- | []]. exact healthyNode_readable.
Defined.

End TotalsProofs.

(* ===================================================================== *)
(** * Properties of the grouping done by the pages *)
(* ===================================================================== *)

Module GroupingProofs.
Import JS Metrics K8s K8sHelpers MetricsPage NodesPage.
Local Open Scope list_scope.

(** ** The engines of a card *)

Lemma groupStep_lookup (byCard : gmap string (list UtilizationEntry))
    (e : UtilizationEntry) (c : string) :
  groupStep byCard e !! c =
    if onCard c e then Some (default [] (byCard !! c) ++ [e])
    else byCard !! c.
Proof.
  unfold groupStep, onCard.
  destruct (byCard !! card e) as [engines |] eqn:E.
  - rewrite bool_decide_eq_true_2 by eauto. rewrite E.
    destruct (String.eqb_spec (card e) c) as [<- | Hne].
    + by rewrite lookup_insert_eq, E.
    + by rewrite lookup_insert_ne.
  - rewrite bool_decide_eq_false_2 by (by intros [? ?]).
    rewrite lookup_insert_eq.
    destruct (String.eqb_spec (card e) c) as [<- | Hne].
    + by rewrite lookup_insert_eq, E.
    + by rewrite !lookup_insert_ne.
Qed.

Lemma group_fold (entries : list UtilizationEntry)
    (byCard : gmap string (list UtilizationEntry)) (c : string) :
  fold_left groupStep entries byCard !! c =
    match List.filter (onCard c) entries with
    | [] => byCard !! c
    | es => Some (default [] (byCard !! c) ++ es)
    end.
Proof.
  revert byCard. induction entries as [| e entries IH]; intros byCard; simpl;
    [done |].
  rewrite IH, groupStep_lookup.
  destruct (onCard c e); simpl.
  - destruct (List.filter (onCard c) entries); [done |].
    by rewrite <- app_assoc.
  - done.
Qed.

Lemma value_fold (values : list CardValue) (m : gmap string float) (c : string) :
  fold_left (fun m f => <[cv_card f := cv_value f]> m) values m !! c =
    match last (valuesOnCard c values) with
    | Some v => Some v
    | None => m !! c
    end.
Proof.
  unfold valuesOnCard. revert m.
  induction values as [| f values IH]; intros m; simpl; [done |].
  rewrite IH. destruct (String.eqb_spec (cv_card f) c) as [<- | Hne]; simpl.
  - rewrite lookup_insert_eq. clear IH.
    generalize (map cv_value
                  (List.filter
                     (fun f0 => String.eqb (cv_card f0) (cv_card f)) values)).
    intros [| v vs]; [reflexivity |].
    change (last (cv_value f :: v :: vs)) with (last (v :: vs)).
    destruct (last (v :: vs)) eqn:E; [done |].
    apply last_None in E. discriminate E.
  - by rewrite lookup_insert_ne.
Qed.

(** X24. On the metrics page the engines grouped under a card are exactly
    the utilization entries of that card, in their original order, and a
    card has a group only if it has an entry, so the groups partition the
    entries; the frequency, memory and energy shown for a card are those
    of the last sample of that card. *)
Theorem byCardOf_groups (engineUtilization : list UtilizationEntry)
    (values : list CardValue) (c : string) :
  default [] (byCardOf engineUtilization !! c)
    = List.filter (onCard c) engineUtilization /\
  (byCardOf engineUtilization !! c = None <->
   List.filter (onCard c) engineUtilization = []) /\
  valueByCard values !! c = last (valuesOnCard c values).
Proof.
  unfold byCardOf, valueByCard. rewrite group_fold, value_fold, !lookup_empty.
  split; [| split].
  - by destruct (List.filter (onCard c) engineUtilization).
  - by destruct (List.filter (onCard c) engineUtilization).
  - by destruct (last _).
Qed.

(** ** The cards of a node *)

Lemma distinct_In (l : list string) (x : string) : In x (distinct l) <-> In x l.
Proof.
  induction l as [| y l IH]; simpl; [done |].
  rewrite filter_In, IH, negb_true_iff, String.eqb_neq.
  destruct (String.eqb_spec x y) as [-> | Hne]; [tauto |].
  split; [tauto |]. intros [-> | H]; [done | tauto].
Qed.

Lemma distinct_NoDup (l : list string) : NoDup (distinct l).
Proof.
  induction l as [| y l IH]; simpl; [constructor |].
  apply NoDup_cons. split.
  - rewrite list_elem_of_In, filter_In, String.eqb_refl. by intros [_ ?].
  - apply NoDup_ListNoDup, List.NoDup_filter. by apply NoDup_ListNoDup.
Qed.

(** X25. The cards the metrics page shows for a node are sorted by code
    units and pairwise different; a card is shown exactly when it has an
    engine utilization entry, a boost frequency sample or a local memory
    sample.  A card that only has system memory or energy samples is not
    shown. *)
Theorem cardsOf_listed (metrics : GpuNodeMetrics) :
  Sorted codeUnitLe (cardsOf metrics) /\
  NoDup (cardsOf metrics) /\
  (forall c, In c (cardsOf metrics) <->
     (exists e, In e (engineUtilization metrics) /\ card e = c) \/
     (exists f, In f (boostFreqMhz metrics) /\ cv_card f = c) \/
     (exists f, In f (memoryLocalBytes metrics) /\ cv_card f = c)).
Proof.
  unfold cardsOf. split; [| split].
  - apply Sorted_merge_sort. intros a b. apply String.leb_total.
  - rewrite merge_sort_Permutation. apply distinct_NoDup.
  - intros c. rewrite <- list_elem_of_In, merge_sort_Permutation,
      list_elem_of_In, distinct_In, !in_app_iff, !distinct_In, !in_map_iff.
    split; (intros [(x & Hx) | [(x & Hx) | (x & Hx)]];
            [left | right; left | right; right]); exists x; tauto.
Qed.

(** ** The pods of a node *)

Lemma podsByNodeStep_lookup (podsByNode : gmap string (list string))
    (pod : GpuPod) (n : string) :
  isEmpty n = false ->
  podsByNodeStep podsByNode pod !! n =
    if NodeDetailSection.onNode n pod
    then Some (default [] (podsByNode !! n)
               ++ [meta_name (pod_metadata (pod_object pod))])
    else podsByNode !! n.
Proof.
  intros Hn. unfold podsByNodeStep, NodeDetailSection.onNode, nodeNameOf.
  destruct (pod_spec pod) as [spec |]; [| done].
  destruct (spec_nodeName spec) as [m |]; [| done].
  destruct (String.eqb_spec m n) as [-> | Hne].
  - by rewrite Hn, lookup_insert_eq.
  - destruct (isEmpty m); [done |]. by rewrite lookup_insert_ne.
Qed.

Lemma podsByNodeStep_empty (podsByNode : gmap string (list string))
    (pod : GpuPod) :
  podsByNode !! "" = None -> podsByNodeStep podsByNode pod !! "" = None.
Proof.
  intros H. unfold podsByNodeStep.
  destruct (nodeNameOf pod) as [m |]; [| done].
  destruct m as [| c m]; [done |]. simpl. by rewrite lookup_insert_ne.
Qed.

(** X26. On the nodes page the pods listed for a node are the names of the
    GPU pods whose [spec.nodeName] is the node's name, in their original
    order: the same pods that the node detail section selects.  Pods
    without a node name, or with an empty one, are listed for no node. *)
Theorem podsOnNode_filter (gpuPods : list GpuPod) (node : IntelGpuNode) :
  podsOnNode gpuPods node =
    if isEmpty (meta_name (node_metadata node)) then []
    else map (fun p => meta_name (pod_metadata (pod_object p)))
           (List.filter
              (NodeDetailSection.onNode (meta_name (node_metadata node)))
              gpuPods).
Proof.
  unfold podsOnNode, podsByNodeOf.
  destruct (isEmpty (meta_name (node_metadata node))) eqn:Hn.
  - apply StringFacts.isEmpty_true in Hn. rewrite Hn.
    assert (H : forall m : gmap string (list string),
              m !! "" = None -> fold_left podsByNodeStep gpuPods m !! "" = None).
    { induction gpuPods as [| p pods IH]; intros m Hm; [done |].
      simpl. apply IH. by apply podsByNodeStep_empty. }
    by rewrite H.
  - set (n := meta_name (node_metadata node)) in *.
    assert (H : forall m : gmap string (list string),
      default [] (fold_left podsByNodeStep gpuPods m !! n)
      = default [] (m !! n)
        ++ map (fun p => meta_name (pod_metadata (pod_object p)))
             (List.filter (NodeDetailSection.onNode n) gpuPods)).
    { induction gpuPods as [| p pods IH]; intros m; simpl.
      - by rewrite app_nil_r.
      - rewrite IH, podsByNodeStep_lookup by done.
        destruct (NodeDetailSection.onNode n p); simpl; [| done].
        by rewrite <- app_assoc. }
    by rewrite H, lookup_empty.
Qed.

End GroupingProofs.
